(** * Cappuccino: event lifecycle, roster rules and reminder scheduling

    A shallow embedding of the event part of [src/bot.js]: the Redis
    helpers, the reminder queue helpers, the button handler
    [handleButtonInteraction], the change-time branch of
    [handleModalSubmission] and the BullMQ worker [reminderWorker].

    Conventions.
    - Redis hashes are finite maps ([gmap] with string keys); the BullMQ
      queue is the list of its waiting and delayed jobs, oldest first.
    - A [Date] is its millisecond timestamp ([Z]); [Date.now()] is the
      argument [now] of the operation that reads it.
    - Redis and the queue answer every call (a failed call would be an
      exception of the driver, outside the handlers' own logic).  Discord
      direct messages do fail in practice and every handler catches that,
      so the world records which users cannot be reached.
    - Events are the records this version of the bot writes: the
      participant list is an array of [{ id, role, class }] objects.  The
      two shims at the head of [handleButtonInteraction] for older records
      (a missing list, a list of bare ids) leave such events as they are.
    - Rendering of embeds and buttons is not modelled, except for the
      participant limit shown on them and for the length check of the
      description field that makes [createEventEmbed] throw.
    - A string is given by its UTF-8 bytes; the operations on button ids
      and dates look at ASCII characters only.
    - Sends that a handler starts together ([.map(async ...)] awaited with
      [Promise.allSettled]) reach Discord in an order the code does not
      fix; the interaction carries that order as a rank on the user
      ids. *)

From Stdlib Require Import ZArith Ascii String.
From stdpp Require Import base gmap strings list fin_maps pretty sorting.

Local Open Scope string_scope.
Local Open Scope list_scope.
Local Open Scope nat_scope.

(** ** Data model *)

(** An element of [event.participants]: [{ id, role, class }]. *)
Record Participant := mkParticipant {
  p_id : string;
  p_role : string;
  p_class : option string
}.

(** The record built by [handleCreateEvent] and stored in the [events]
    hash. *)
Record Event := mkEvent {
  ev_id : string;
  ev_type : string;
  ev_date : Z;
  ev_organizer : string;
  ev_description : string;
  ev_groupType : string;
  ev_participants : list Participant;
  ev_messageId : option string
}.

(** The value stored by [saveDMMessageForEvent]. *)
Record DMData := mkDMData {
  dm_userId : string;
  dm_messageId : string;
  dm_messageType : string;
  dm_timestamp : Z
}.

(** [job.data]: reminder jobs carry all four fields, a cleanup job only
    [eventId]. *)
Record JobData := mkJobData {
  jd_eventId : string;
  jd_participantId : option string;
  jd_reminderType : option string;
  jd_eventDate : option Z
}.

(** A pending job: name, payload, the [delay] option and the time of the
    [add] call. *)
Record Job := mkJob {
  job_name : string;
  job_data : JobData;
  job_delay : Z;
  job_added : Z
}.

Definition fireTime (j : Job) : Z := (job_added j + job_delay j)%Z.

(** What a direct message is about (the title of its embed). *)
Inductive DMKind :=
| RegistrationConfirmed
| WithdrawnNotice
| RoleUpdated
| EventCancelled
| TimeChanged
| EventReminder (reminderType : option string) (eventDate : option Z).

(** A direct message present in a user's DM channel. *)
Record DM := mkDM {
  sent_to : string;
  sent_id : string;
  sent_kind : DMKind
}.

(** The state the bot works on: the two Redis structures, the queue, and
    the part of Discord it touches. *)
Record World := mkWorld {
  events : gmap string Event;
  dm_messages : gmap string (gmap string DMData);
  reminderQueue : list Job;
  announcements : gset string;
  inbox : list DM;
  next_message : N;
  dm_closed : gset string;
  channel_cached : bool
}.

Definition set_events (f : gmap string Event → gmap string Event) (w : World) : World :=
  mkWorld (f (events w)) (dm_messages w) (reminderQueue w) (announcements w)
          (inbox w) (next_message w) (dm_closed w) (channel_cached w).

Definition set_dm_messages
    (f : gmap string (gmap string DMData) → gmap string (gmap string DMData))
    (w : World) : World :=
  mkWorld (events w) (f (dm_messages w)) (reminderQueue w) (announcements w)
          (inbox w) (next_message w) (dm_closed w) (channel_cached w).

Definition set_reminderQueue (f : list Job → list Job) (w : World) : World :=
  mkWorld (events w) (dm_messages w) (f (reminderQueue w)) (announcements w)
          (inbox w) (next_message w) (dm_closed w) (channel_cached w).

Definition set_announcements (f : gset string → gset string) (w : World) : World :=
  mkWorld (events w) (dm_messages w) (reminderQueue w) (f (announcements w))
          (inbox w) (next_message w) (dm_closed w) (channel_cached w).

Definition set_inbox (f : list DM → list DM) (w : World) : World :=
  mkWorld (events w) (dm_messages w) (reminderQueue w) (announcements w)
          (f (inbox w)) (next_message w) (dm_closed w) (channel_cached w).

Definition set_next_message (f : N → N) (w : World) : World :=
  mkWorld (events w) (dm_messages w) (reminderQueue w) (announcements w)
          (inbox w) (f (next_message w)) (dm_closed w) (channel_cached w).

(** ** Redis management functions *)

Definition saveEventToRedis (event : Event) (w : World) : World :=
  set_events (λ m, <[ev_id event := event]> m) w.

Definition getEventFromRedis (eventId : string) (w : World) : option Event :=
  events w !! eventId.

Definition deleteEventFromRedis (eventId : string) (w : World) : World :=
  set_events (λ m, delete eventId m) w.

(** ** DM message tracking functions *)

(** The hash stored under [dm_messages:<eventId>]; a missing key reads as
    the empty hash. *)
Definition dmHash (eventId : string) (w : World) : gmap string DMData :=
  default ∅ (dm_messages w !! eventId).

Definition dmField (userId messageType : string) (now : Z) : string :=
  userId +:+ "_" +:+ messageType +:+ "_" +:+ pretty now.

Definition saveDMMessageForEvent
    (eventId userId messageId messageType : string) (now : Z) (w : World) : World :=
  let dmData := mkDMData userId messageId messageType now in
  set_dm_messages
    (λ m, <[eventId := <[dmField userId messageType now := dmData]> (dmHash eventId w)]> m) w.

Definition getDMMessagesForEvent (eventId : string) (w : World) : list DMData :=
  (map_to_list (dmHash eventId w)).*2.

Definition deleteDMMessagesForEvent (eventId : string) (w : World) : World :=
  set_dm_messages (λ m, delete eventId m) w.

(** ** Discord direct messages *)

(** [client.users.fetch(id)] followed by [user.send(...)]: either the
    message is created and its id returned, or the call throws. *)
Definition sendDM (userId : string) (kind : DMKind) (w : World) : option string * World :=
  if decide (userId ∈ dm_closed w) then (None, w)
  else
    let messageId := pretty (next_message w) in
    (Some messageId,
     set_next_message N.succ (set_inbox (λ l, l ++ [mkDM userId messageId kind]) w)).

(** [dmChannel.messages.fetch(messageId)] then [message.delete()];
    a message that is already gone leaves the channel as it is. *)
Definition deleteDM (userId messageId : string) (w : World) : World :=
  set_inbox (filter (λ d, ¬ (sent_to d = userId ∧ sent_id d = messageId))) w.

(** The pattern used by every handler: send, and when the send went
    through, track the message; a failure is logged and ignored. *)
Definition sendTrackedDM
    (eventId userId : string) (kind : DMKind) (messageType : string) (now : Z)
    (w : World) : World :=
  match sendDM userId kind w with
  | (Some messageId, w') => saveDMMessageForEvent eventId userId messageId messageType now w'
  | (None, w') => w'
  end.

(** ** Pruning the DMs of a completed event *)

Definition typesToPrune : list string :=
  ["registration"; "withdrawal"; "cancellation"; "reminder"; "time_change"].

Definition pruneOne (dmData : DMData) (w : World) : World :=
  if decide (dm_messageType dmData ∈ typesToPrune)
  then deleteDM (dm_userId dmData) (dm_messageId dmData) w
  else w.

Definition pruneDMsForCompletedEvent (eventId : string) (event : Event) (now : Z)
    (w : World) : World :=
  let dmMessages := getDMMessagesForEvent eventId w in
  if decide (ev_date event > now)%Z then w
  else deleteDMMessagesForEvent eventId (foldr pruneOne w dmMessages).

(** ** Role limits and classes *)

Definition ROLE_LIMITS : list (string * nat) :=
  [("tank", 2); ("healer", 2); ("dps", 4)].

Definition ROLE_LIMITS_LIGHT : list (string * nat) :=
  [("tank", 1); ("healer", 1); ("dps", 2)].

Definition ROLE_CLASS : list (string * list string) :=
  [("tank", ["Paladin"; "Warrior"; "Dark Knight"; "Gunbreaker"]);
   ("healer", ["White Mage"; "Scholar"; "Astrologian"; "Sage"]);
   ("dps", ["Monk"; "Dragoon"; "Ninja"; "Samurai"; "Reaper"; "Bard"; "Machinist";
            "Dancer"; "Black Mage"; "Summoner"; "Red Mage"; "Pictomancer"; "Viper"]);
   ("blue_mage", [])].

(** [table[key]] on one of the constant objects above; [None] is
    [undefined]. *)
Fixpoint prop {A} (table : list (string * A)) (key : string) : option A :=
  match table with
  | [] => None
  | (k, v) :: rest => if decide (k = key) then Some v else prop rest key
  end.

#[global] Arguments prop {A} table key : simpl never.

(** [roleCount >= ROLE_LIMITS[role]]; a comparison with [undefined] is
    false. *)
Definition atLimit (roleCount : nat) (limit : option nat) : bool :=
  match limit with
  | Some n => bool_decide (n ≤ roleCount)
  | None => false
  end.

(** [!ROLE_CLASS[role] || ROLE_CLASS[role].length === 0] *)
Definition noClasses (role : string) : bool :=
  match prop ROLE_CLASS role with
  | None | Some [] => true
  | Some (_ :: _) => false
  end.

(** [!ROLE_CLASS[role] || !ROLE_CLASS[role].includes(className)] *)
Definition invalidClass (role className : string) : bool :=
  match prop ROLE_CLASS role with
  | None => true
  | Some classes => bool_decide (className ∉ classes)
  end.

Definition buttonsPerRow : nat := 5.

(** [createClassButtons] and [createRoleChangeClassButtons]: [None] for a
    role without classes, otherwise rows of at most five class buttons. *)
Definition createClassButtons (role : string) : option (list (list string)) :=
  match prop ROLE_CLASS role with
  | None | Some [] => None
  | Some classes =>
      Some ((λ k, take buttonsPerRow (drop (buttonsPerRow * k) classes))
              <$> seq 0 ((length classes + (buttonsPerRow - 1)) / buttonsPerRow))
  end.

(** The limit [createEventEmbed] and [createEventButtons] display, and at
    which the Participate button is disabled. *)
Definition maxParticipants (groupType : string) : nat :=
  if decide (groupType = "light_party") then 4 else 8.

(** ** Reminder queue *)

Definition reminderTimes : list (Z * string) :=
  [(24 * 60 * 60 * 1000, "24 hours");
   (12 * 60 * 60 * 1000, "12 hours");
   (1 * 60 * 60 * 1000, "1 hour")]%Z.

(** The jobs [scheduleReminders] adds, in the order of its two loops. *)
Definition reminderJobs (eventId : string) (eventTimestamp : Z)
    (participants : list string) (now : Z) : list Job :=
  participant ← participants;
  reminder ← reminderTimes;
  let reminderTime := (eventTimestamp - reminder.1)%Z in
  if decide (reminderTime > now)%Z then
    [mkJob ("reminder_" +:+ eventId +:+ "_" +:+ participant +:+ "_" +:+ reminder.2)
           (mkJobData eventId (Some participant) (Some reminder.2) (Some eventTimestamp))
           (reminderTime - now) now]
  else [].

Definition scheduleReminders (eventId : string) (eventDate : Z)
    (participants : list string) (now : Z) (w : World) : World :=
  set_reminderQueue (λ q, q ++ reminderJobs eventId eventDate participants now) w.

(** [job.remove()] on every pending job selected by the filter. *)
Definition removeJobs (selected : Job → Prop) `{∀ j, Decision (selected j)}
    (w : World) : World :=
  set_reminderQueue (filter (λ j, ¬ selected j)) w.

Definition cancelEventReminders (eventId : string) (w : World) : World :=
  removeJobs (λ job, jd_eventId (job_data job) = eventId) w.

Definition cancelParticipantReminders (eventId participantId : string) (w : World) : World :=
  removeJobs (λ job, jd_eventId (job_data job) = eventId
                     ∧ jd_participantId (job_data job) = Some participantId) w.

Definition scheduleEventCleanup (eventId : string) (eventDate : Z) (now : Z)
    (w : World) : World :=
  let delay := (eventDate - now + 5 * 60 * 1000)%Z in
  if decide (delay > 0)%Z then
    set_reminderQueue
      (λ q, q ++ [mkJob ("cleanup_" +:+ eventId) (mkJobData eventId None None None) delay now]) w
  else w.

(** ** Interactions *)

(** The [action] of a parsed button id, with the [role] and [className]
    that [parseButtonInteraction] extracts for it. *)
Inductive Action :=
| act_withdraw
| act_changeRole
| act_participate
| act_role (role : string)
| act_class (role className : string)
| act_rolechange (role : string)
| act_rolechangeclass (role className : string)
| act_changeTime
| act_delete
| act_other.

(** What the handlers read of a Discord interaction: the user, the role
    ids of the guild member (if any), the parsed button id, and the
    message carrying the button with its [deletable] flag.  The last
    field is not read by the code: it is the order in which the sends
    that the handler starts together reach Discord, as a rank on the
    user ids (see [startedTogether]). *)
Record Interaction := mkInteraction {
  i_user : string;
  i_member : option (list string);
  i_eventId : string;
  i_action : Action;
  i_message : option (string * bool);
  i_arrival : string → nat
}.

(** The answer given to the user. *)
Inductive Reply :=
| EventNotFound
| NotParticipating
| AlreadyParticipating
| EventFull
| RoleFull (role : string)
| InvalidRole
| InvalidClass
| Forbidden
| AlreadyHasRole
| SelectRolePrompt
| SelectClassPrompt (role : string) (rows : list (list string))
| SelectNewRolePrompt
| SelectNewClassPrompt (role : string) (rows : list (list string))
| SwitchClassPrompt (role : string) (rows : list (list string))
| Withdrawn
| Joined (role : string) (className : option string)
| RoleChanged (oldRole newRole : string) (className : option string)
| ShowChangeTimeModal
| EventDeleted
| TimeChangedReply (oldDate newDate : Z)
| InvalidDateTime
| ChannelNotFound
| EventCreated (eventId : string)
| CommandFailed
| NoReply.

Definition setParticipants (event : Event) (participants : list Participant) : Event :=
  mkEvent (ev_id event) (ev_type event) (ev_date event) (ev_organizer event)
          (ev_description event) (ev_groupType event) participants (ev_messageId event).

Definition setDate (event : Event) (date : Z) : Event :=
  mkEvent (ev_id event) (ev_type event) date (ev_organizer event)
          (ev_description event) (ev_groupType event) (ev_participants event)
          (ev_messageId event).

(** [participants.some(p => p.id === userId)] *)
Definition isListed (userId : string) (participants : list Participant) : Prop :=
  Exists (λ p, p_id p = userId) participants.

#[global] Instance isListed_dec userId participants : Decision (isListed userId participants).
Proof. unfold isListed. apply _. Defined.

(** [participants.filter(p => p.role === role).length] *)
Definition roleCount (role : string) (participants : list Participant) : nat :=
  length (filter (λ p, p_role p = role) participants).

(** [participants.filter(p => p.role === role && p.id !== userId).length] *)
Definition roleCountExcluding (role userId : string) (participants : list Participant) : nat :=
  length (filter (λ p, p_role p = role ∧ p_id p ≠ userId) participants).

Definition joinRoles : list string := ["tank"; "healer"; "dps"; "blue_mage"].
Definition classRoles : list string := ["tank"; "healer"; "dps"].

Section Bot.

Set Default Proof Using "Type".

(** [process.env.SERVER_ROLE_ID] *)
Variable AUTHORIZED_ROLE_ID : option string.

(** [process.env.AUTHORIZED_USERS], split at commas and trimmed. *)
Variable AUTHORIZED_USERS : list string.

(** The first part of [validateDateTime]: the two format checks and the
    conversion of date, time and timezone to a timestamp, which reads the
    host's local time for the DST rules.  [None] is a rejected input. *)
Variable parseDateTime : string → string → string → option Z.

Definition hasAuthorizedRole (member : option (list string)) : bool :=
  match AUTHORIZED_ROLE_ID, member with
  | Some roleId, Some roles => bool_decide (roleId ∈ roles)
  | _, _ => false
  end.

Definition isAuthorizedUser (userId : string) : bool :=
  bool_decide (userId ∈ AUTHORIZED_USERS).

(** [checkAuthorization(interaction, true)] *)
Definition checkAuthorization (userId : string) (member : option (list string)) : bool :=
  hasAuthorizedRole member || isAuthorizedUser userId.

Definition isEventOrganizerOrAdmin (userId : string) (event : Event)
    (member : option (list string)) : bool :=
  bool_decide (userId = ev_organizer event) || hasAuthorizedRole member.

(** The final check of [validateDateTime]. *)
Definition validateDateTime (dateString timeString timezone : string) (now : Z) : option Z :=
  match parseDateTime dateString timeString timezone with
  | None => None
  | Some eventDate => if decide (eventDate ≤ now)%Z then None else Some eventDate
  end.

(** ** [handleButtonInteraction], one definition per [action] branch

    Every branch receives the event loaded from Redis; [now] is the
    time of the interaction. *)

(** [action === 'withdraw'] *)
Definition onWithdraw (now : Z) (eventId userId : string) (event : Event) (w : World)
    : Reply * World :=
  let remaining := filter (λ p, p_id p ≠ userId) (ev_participants event) in
  if decide (length remaining = length (ev_participants event)) then (NotParticipating, w)
  else
    let w := saveEventToRedis (setParticipants event remaining) w in
    let w := cancelParticipantReminders eventId userId w in
    let w := sendTrackedDM eventId userId WithdrawnNotice "withdrawal" now w in
    (Withdrawn, w).

(** [action === 'changeRole'] *)
Definition onChangeRole (userId : string) (event : Event) (w : World) : Reply * World :=
  if decide (isListed userId (ev_participants event)) then (SelectNewRolePrompt, w)
  else (NotParticipating, w).

(** [action === 'participate'] *)
Definition onParticipate (userId : string) (event : Event) (w : World) : Reply * World :=
  if decide (isListed userId (ev_participants event)) then (AlreadyParticipating, w)
  else if decide (8 ≤ length (ev_participants event)) then (EventFull, w)
  else (SelectRolePrompt, w).

(** [event.participants.push(p)], [saveEventToRedis], [scheduleReminders]
    for the new participant. *)
Definition pushParticipant (now : Z) (eventId : string) (event : Event) (p : Participant)
    (w : World) : World :=
  let w := saveEventToRedis (setParticipants event (ev_participants event ++ [p])) w in
  scheduleReminders eventId (ev_date event) [p_id p] now w.

(** [action === 'role'] *)
Definition onRole (now : Z) (eventId userId role : string) (event : Event) (w : World)
    : Reply * World :=
  if decide (role ∉ joinRoles) then (InvalidRole, w)
  else if decide (isListed userId (ev_participants event)) then (AlreadyParticipating, w)
  else if decide (8 ≤ length (ev_participants event)) then (EventFull, w)
  else if bool_decide (ev_groupType event = "standard")
          && atLimit (roleCount role (ev_participants event)) (prop ROLE_LIMITS role)
  then (RoleFull role, w)
  else if bool_decide (role = "blue_mage") || noClasses role then
    let className := if decide (role = "blue_mage") then Some "Blue Mage" else None in
    let w := pushParticipant now eventId event (mkParticipant userId role className) w in
    let w := sendTrackedDM eventId userId RegistrationConfirmed "registration" now w in
    (Joined role className, w)
  else
    match createClassButtons role with
    | Some (row :: rows) => (SelectClassPrompt role (row :: rows), w)
    | _ =>
        let w := pushParticipant now eventId event (mkParticipant userId role None) w in
        (Joined role None, w)
    end.

(** [action === 'class'] *)
Definition onClass (now : Z) (eventId userId role className : string) (event : Event)
    (w : World) : Reply * World :=
  if decide (role ∉ classRoles) then (InvalidRole, w)
  else if invalidClass role className then (InvalidClass, w)
  else if decide (isListed userId (ev_participants event)) then (AlreadyParticipating, w)
  else if decide (8 ≤ length (ev_participants event)) then (EventFull, w)
  else if bool_decide (ev_groupType event = "standard")
          && atLimit (roleCount role (ev_participants event)) (prop ROLE_LIMITS role)
  then (RoleFull role, w)
  else
    let w := pushParticipant now eventId event (mkParticipant userId role (Some className)) w in
    let w := sendTrackedDM eventId userId RegistrationConfirmed "registration" now w in
    (Joined role (Some className), w).

(** [participant.role = role; participant.class = className] on the
    object returned by [participants.find], then [saveEventToRedis]. *)
Definition updateParticipant (event : Event) (index : nat) (participant : Participant)
    (role : string) (className : option string) (w : World) : World :=
  saveEventToRedis
    (setParticipants event
       (<[index := mkParticipant (p_id participant) role className]> (ev_participants event)))
    w.

(** [action === 'rolechange'] *)
Definition onRoleChange (now : Z) (eventId userId role : string) (event : Event) (w : World)
    : Reply * World :=
  if decide (role ∉ joinRoles) then (InvalidRole, w)
  else
    match list_find (λ p, p_id p = userId) (ev_participants event) with
    | None => (NotParticipating, w)
    | Some (index, participant) =>
        if decide (p_role participant = role) then
          match prop ROLE_CLASS role with
          | Some (_ :: _) => (SwitchClassPrompt role (default [] (createClassButtons role)), w)
          | _ => (AlreadyHasRole, w)
          end
        else if bool_decide (ev_groupType event = "standard")
                && atLimit (roleCountExcluding role userId (ev_participants event))
                           (prop ROLE_LIMITS role)
        then (RoleFull role, w)
        else if bool_decide (role = "blue_mage") || noClasses role then
          let className := if decide (role = "blue_mage") then Some "Blue Mage" else None in
          let w := updateParticipant event index participant role className w in
          let w := sendTrackedDM eventId userId RoleUpdated "role_change" now w in
          (RoleChanged (p_role participant) role className, w)
        else
          match createClassButtons role with
          | Some (row :: rows) => (SelectNewClassPrompt role (row :: rows), w)
          | _ =>
              let w := updateParticipant event index participant role None w in
              (RoleChanged (p_role participant) role None, w)
          end
    end.

(** [action === 'rolechangeclass'] *)
Definition onRoleChangeClass (now : Z) (eventId userId role className : string)
    (event : Event) (w : World) : Reply * World :=
  if decide (role ∉ classRoles) then (InvalidRole, w)
  else if invalidClass role className then (InvalidClass, w)
  else
    match list_find (λ p, p_id p = userId) (ev_participants event) with
    | None => (NotParticipating, w)
    | Some (index, participant) =>
        if bool_decide (ev_groupType event = "standard")
           && atLimit (roleCountExcluding role userId (ev_participants event))
                      (prop ROLE_LIMITS role)
        then (RoleFull role, w)
        else
          let w := updateParticipant event index participant role (Some className) w in
          let w := sendTrackedDM eventId userId RoleUpdated "role_change" now w in
          (RoleChanged (p_role participant) role (Some className), w)
    end.

(** [action === 'changeTime'] *)
Definition onChangeTime (interaction : Interaction) (event : Event) (w : World)
    : Reply * World :=
  if isEventOrganizerOrAdmin (i_user interaction) event (i_member interaction)
  then (ShowChangeTimeModal, w)
  else (Forbidden, w).

(** [participants.map(async (participant) => ...)] awaited with
    [Promise.allSettled]: the sends are started together and the code
    does not fix the order in which they reach Discord.  They are taken
    by increasing [arrival] of the user id; the result is a permutation
    of the list for every [arrival], and every order of a list with
    distinct ids is the result for some [arrival]
    ([startedTogether_any_order]). *)
Definition arrivesBefore (arrival : string → nat) (p q : Participant) : Prop :=
  arrival (p_id p) ≤ arrival (p_id q).

#[global] Instance arrivesBefore_dec arrival p q : Decision (arrivesBefore arrival p q).
Proof. unfold arrivesBefore. apply _. Defined.

Definition startedTogether (arrival : string → nat) (participants : list Participant)
    : list Participant :=
  merge_sort (arrivesBefore arrival) participants.

(** The cancellation DMs of the delete branch, one per participant other
    than the organizer, started together. *)
Definition notifyCancellation (now : Z) (eventId : string) (event : Event)
    (arrival : string → nat) (w : World) : World :=
  foldl (λ w participant,
           sendTrackedDM eventId (p_id participant) EventCancelled "cancellation" now w)
        w
        (startedTogether arrival
           (filter (λ participant, p_id participant ≠ ev_organizer event)
                   (ev_participants event))).

(** [interaction.message.delete()] when the message is deletable. *)
Definition deleteInteractionMessage (interaction : Interaction) (w : World) : World :=
  match i_message interaction with
  | Some (messageId, true) => set_announcements (λ s, s ∖ {[messageId]}) w
  | _ => w
  end.

(** [action === 'delete'] *)
Definition onDelete (now : Z) (interaction : Interaction) (eventId : string)
    (event : Event) (w : World) : Reply * World :=
  if isEventOrganizerOrAdmin (i_user interaction) event (i_member interaction) then
    let w := cancelEventReminders eventId w in
    let w := notifyCancellation now eventId event (i_arrival interaction) w in
    let w := deleteEventFromRedis eventId w in
    let w := deleteInteractionMessage interaction w in
    (EventDeleted, w)
  else (Forbidden, w).

Definition handleButtonInteraction (now : Z) (interaction : Interaction) (w : World)
    : Reply * World :=
  let eventId := i_eventId interaction in
  let userId := i_user interaction in
  match getEventFromRedis eventId w with
  | None => (EventNotFound, w)
  | Some event =>
      match i_action interaction with
      | act_withdraw => onWithdraw now eventId userId event w
      | act_changeRole => onChangeRole userId event w
      | act_participate => onParticipate userId event w
      | act_role role => onRole now eventId userId role event w
      | act_class role className => onClass now eventId userId role className event w
      | act_rolechange role => onRoleChange now eventId userId role event w
      | act_rolechangeclass role className =>
          onRoleChangeClass now eventId userId role className event w
      | act_changeTime => onChangeTime interaction event w
      | act_delete => onDelete now interaction eventId event w
      | act_other => (NoReply, w)
      end
  end.

(** ** The change-time branch of [handleModalSubmission] *)

(** The fields of the modal and, as for [Interaction], the order in
    which the sends started together reach Discord. *)
Record ModalSubmission := mkModalSubmission {
  m_user : string;
  m_member : option (list string);
  m_eventId : string;
  m_new_date : string;
  m_new_time : string;
  m_new_timezone : string;
  m_arrival : string → nat
}.

(** The time-change DMs, one per participant other than the organizer,
    started together. *)
Definition notifyTimeChange (now : Z) (eventId : string) (event : Event)
    (arrival : string → nat) (w : World) : World :=
  foldl (λ w participant,
           sendTrackedDM eventId (p_id participant) TimeChanged "time_change" now w)
        w
        (startedTogether arrival
           (filter (λ participant, p_id participant ≠ ev_organizer event)
                   (ev_participants event))).

Definition handleModalSubmission (now : Z) (modal : ModalSubmission) (w : World)
    : Reply * World :=
  let eventId := m_eventId modal in
  match getEventFromRedis eventId w with
  | None => (EventNotFound, w)
  | Some event =>
      if isEventOrganizerOrAdmin (m_user modal) event (m_member modal) then
        match validateDateTime (m_new_date modal) (m_new_time modal)
                               (m_new_timezone modal) now with
        | None => (InvalidDateTime, w)
        | Some newEventDate =>
            let oldDate := ev_date event in
            let event := setDate event newEventDate in
            let w := saveEventToRedis event w in
            let w := cancelEventReminders eventId w in
            let w := scheduleReminders eventId newEventDate
                       (p_id <$> ev_participants event) now w in
            let w := notifyTimeChange now eventId event (m_arrival modal) w in
            (TimeChangedReply oldDate newEventDate, w)
        end
      else (Forbidden, w)
  end.

(** ** [reminderWorker] *)

(** The log line the worker ends on. *)
Inductive WorkerLog :=
| AutoDeleted
| CleanupWithoutEvent
| SkippedNoEvent
| SkippedNotParticipating
| ReminderSent (messageId : string)
| ReminderFailed.

(** The cleanup branch removes the announcement through the cached event
    channel. *)
Definition deleteAnnouncement (event : Event) (w : World) : World :=
  match channel_cached w, ev_messageId event with
  | true, Some messageId => set_announcements (λ s, s ∖ {[messageId]}) w
  | _, _ => w
  end.

Definition cleanupJob (now : Z) (eventId : string) (w : World) : WorkerLog * World :=
  match getEventFromRedis eventId w with
  | Some event =>
      let w := pruneDMsForCompletedEvent eventId event now w in
      let w := deleteAnnouncement event w in
      let w := deleteEventFromRedis eventId w in
      (AutoDeleted, w)
  | None => (CleanupWithoutEvent, w)
  end.

Definition reminderJob (data : JobData) (w : World) : WorkerLog * World :=
  match getEventFromRedis (jd_eventId data) w with
  | None => (SkippedNoEvent, w)
  | Some event =>
      match jd_participantId data with
      | None => (SkippedNotParticipating, w)
      | Some participantId =>
          if decide (isListed participantId (ev_participants event)) then
            match sendDM participantId
                         (EventReminder (jd_reminderType data) (jd_eventDate data)) w with
            | (Some messageId, w) => (ReminderSent messageId, w)
            | (None, w) => (ReminderFailed, w)
            end
          else (SkippedNotParticipating, w)
      end
  end.

Definition reminderWorker (now : Z) (job : Job) (w : World) : WorkerLog * World :=
  if String.prefix "cleanup_" (job_name job)
  then cleanupJob now (jd_eventId (job_data job)) w
  else reminderJob (job_data job) w.

(** ** [handleCreateEvent] *)

(** The options of the [/create-event] command and the random suffix
    drawn for the event id. *)
Record CreateCommand := mkCreateCommand {
  c_user : string;
  c_member : option (list string);
  c_type : string;
  c_group_type : option string;
  c_date : string;
  c_time : string;
  c_timezone : string;
  c_description : option string;
  c_random : string
}.

(** [channel.send(...)]: the announcement appears in the event channel
    under a fresh message id. *)
Definition channelSend (w : World) : string * World :=
  let messageId := pretty (next_message w) in
  (messageId, set_next_message N.succ (set_announcements (λ s, s ∪ {[messageId]}) w)).

(** The longest value an embed field takes: [addFields] throws on a
    longer one. *)
Definition maxFieldValue : nat := 1024.

(** [s.length]: the number of UTF-16 code units of a string, counted on
    its UTF-8 bytes.  A byte below 128 and the first byte of a two- or
    three-byte sequence stand for one code unit, the first byte of a
    four-byte sequence for two, a continuation byte for none. *)
Definition codeUnits (c : ascii) : nat :=
  let byte := nat_of_ascii c in
  if decide (byte < 128) then 1
  else if decide (byte < 192) then 0
  else if decide (byte < 240) then 1
  else 2.

Fixpoint jsLength (s : string) : nat :=
  match s with
  | EmptyString => 0
  | String c rest => codeUnits c + jsLength rest
  end.

(** [createEventEmbed] is called before the channel is looked up and
    outside the [try]: with a description longer than an embed field
    takes, [embed.addFields] throws, the command ends in the [catch] of
    the dispatcher and nothing is written.  The other fields of the embed
    are built from the command's choices and from the date and are within
    the limits. *)
Definition handleCreateEvent (now : Z) (cmd : CreateCommand) (w : World) : Reply * World :=
  if checkAuthorization (c_user cmd) (c_member cmd) then
    match validateDateTime (c_date cmd) (c_time cmd) (c_timezone cmd) now with
    | None => (InvalidDateTime, w)
    | Some eventDate =>
        let eventId := "event_" +:+ pretty now +:+ "_" +:+ c_random cmd in
        let description := default "" (c_description cmd) in
        if decide (maxFieldValue < jsLength description) then (CommandFailed, w)
        else if channel_cached w then
          let '(messageId, w) := channelSend w in
          let event :=
            mkEvent eventId (c_type cmd) eventDate (c_user cmd) description
                    (default "standard" (c_group_type cmd)) [] (Some messageId) in
          let w := saveEventToRedis event w in
          let w := scheduleEventCleanup eventId eventDate now w in
          (EventCreated eventId, w)
        else (ChannelNotFound, w)
    end
  else (Forbidden, w).

(** ** Runs of the bot *)

(** One thing that happens to the bot: a command, a button press, a modal
    submission, or a job of the queue firing.  A job that fires leaves the
    queue ([removeOnComplete], [removeOnFail]); it fires once its delay
    has elapsed. *)
Inductive Step :=
| Command (now : Z) (cmd : CreateCommand)
| Button (now : Z) (interaction : Interaction)
| Modal (now : Z) (modal : ModalSubmission)
| Fire (now : Z) (index : nat).

Definition step (s : Step) (w : World) : World :=
  match s with
  | Command now cmd => (handleCreateEvent now cmd w).2
  | Button now interaction => (handleButtonInteraction now interaction w).2
  | Modal now modal => (handleModalSubmission now modal w).2
  | Fire now index =>
      match reminderQueue w !! index with
      | Some job =>
          if decide (fireTime job ≤ now)%Z
          then (reminderWorker now job (set_reminderQueue (delete index) w)).2
          else w
      | None => w
      end
  end.

Definition run (steps : list Step) (w : World) : World :=
  foldl (λ w s, step s w) w steps.

(** The bot before its first event. *)
Definition freshWorld (closed : gset string) (cached : bool) : World :=
  mkWorld ∅ ∅ [] ∅ [] 0 closed cached.

(** ** Roster changes and the roster invariant *)

(** The three ways a handler rewrites [event.participants]. *)
Inductive RosterChange (event : Event) : list Participant → Prop :=
| rc_withdraw userId :
    RosterChange event (filter (λ p, p_id p ≠ userId) (ev_participants event))
| rc_join p :
    ¬ isListed (p_id p) (ev_participants event) →
    length (ev_participants event) < 8 →
    bool_decide (ev_groupType event = "standard")
      && atLimit (roleCount (p_role p) (ev_participants event))
                 (prop ROLE_LIMITS (p_role p)) = false →
    RosterChange event (ev_participants event ++ [p])
| rc_change userId index participant role className :
    list_find (λ p, p_id p = userId) (ev_participants event) = Some (index, participant) →
    bool_decide (ev_groupType event = "standard")
      && atLimit (roleCountExcluding role userId (ev_participants event))
                 (prop ROLE_LIMITS role) = false →
    RosterChange event
      (<[index := mkParticipant (p_id participant) role className]> (ev_participants event)).

(** The roster invariant: distinct ids, at most eight entries, and for a
    standard group no role above its limit. *)
Definition rosterOK (event : Event) : Prop :=
  NoDup (p_id <$> ev_participants event)
  ∧ length (ev_participants event) ≤ 8
  ∧ (ev_groupType event = "standard" →
     ∀ role limit, prop ROLE_LIMITS role = Some limit →
                   roleCount role (ev_participants event) ≤ limit).

(** Every event is stored under its own id and satisfies the roster
    invariant. *)
Definition storeOK (w : World) : Prop :=
  map_Forall (λ key event, ev_id event = key ∧ rosterOK event) (events w).

(** Either nothing is written, or the loaded event is written back with a
    changed roster, or the event is deleted. *)
Definition eventsEffect (eventId : string) (event : Event) (w w' : World) : Prop :=
  events w' = events w
  ∨ (∃ participants,
        RosterChange event participants
        ∧ events w' = <[ev_id event := setParticipants event participants]> (events w))
  ∨ events w' = delete eventId (events w).

(** The three buttons of the join flow. *)
Definition isJoinAttempt (action : Action) : Prop :=
  match action with
  | act_participate | act_role _ | act_class _ _ => True
  | _ => False
  end.

(** The role and class buttons the bot itself creates: [createRoleButtons]
    offers the four roles, [createClassButtons] the classes of a role. *)
Definition offeredButton (action : Action) : Prop :=
  match action with
  | act_role role | act_rolechange role => role ∈ joinRoles
  | act_class role className | act_rolechangeclass role className =>
      role ∈ classRoles ∧ invalidClass role className = false
  | _ => True
  end.

(** ** Button ids: [parseButtonInteraction] and the builders of the ids *)

(** [s.split(sep)] for a one-character separator. *)
Fixpoint splitOn (sep : ascii) (s : string) : list string :=
  match s with
  | EmptyString => [EmptyString]
  | String c rest =>
      if decide (c = sep) then EmptyString :: splitOn sep rest
      else
        match splitOn sep rest with
        | [] => [String c EmptyString]
        | token :: tokens => String c token :: tokens
        end
  end.

(** [s.replace(/_/g, ' ')] and the like: every [from] becomes [to]. *)
Fixpoint replaceChar (from to : ascii) (s : string) : string :=
  match s with
  | EmptyString => EmptyString
  | String c rest =>
      String (if decide (c = from) then to else c) (replaceChar from to rest)
  end.

(** The white space of [\s] among the ASCII characters. *)
Definition isSpace (c : ascii) : bool :=
  bool_decide (c ∈ [" "; "009"; "010"; "011"; "012"; "013"]%char).

(** [s.replace(/\s+/g, to)] on ASCII text: every run of white space
    becomes one [to]. *)
Fixpoint collapseSpaces (to : ascii) (s : string) : string :=
  match s with
  | EmptyString => EmptyString
  | String c rest =>
      if isSpace c then
        match rest with
        | EmptyString => String to EmptyString
        | String c' _ =>
            if isSpace c' then collapseSpaces to rest
            else String to (collapseSpaces to rest)
        end
      else String c (collapseSpaces to rest)
  end.

(** The object [parseButtonInteraction] returns; [None] is [undefined]. *)
Record Parsed := mkParsed {
  pa_action : string;
  pa_eventId : string;
  pa_role : option string;
  pa_className : option string
}.

(** [MissingEventIdentifier] is the error thrown for a class button id
    without the word event. *)
Inductive ParseResult :=
| MissingEventIdentifier
| ParsedId (parsed : Parsed).

Definition parseButtonInteraction (customId : string) : ParseResult :=
  match splitOn "_" customId with
  | [] => ParsedId (mkParsed "" "" None None)
  | action :: rest =>
      if decide (action = "role" ∨ action = "rolechange") then
        ParsedId (mkParsed action (String.concat "_" (drop 1 rest)) (rest !! 0) None)
      else if decide (action = "class" ∨ action = "rolechangeclass") then
        match list_find (λ token, token = "event") rest with
        | None => MissingEventIdentifier
        | Some (eventIndex, _) =>
            ParsedId
              (mkParsed action
                 (String.concat "_" (drop eventIndex rest))
                 (rest !! 0)
                 (Some (replaceChar "_" " "
                          (String.concat "_" (take (eventIndex - 1) (drop 1 rest))))))
        end
      else ParsedId (mkParsed action (String.concat "_" rest) None None)
  end.

(** The branch of [handleButtonInteraction] a parsed id selects.  A role
    that is [undefined] is in none of the lists of valid roles, like the
    empty string that stands for it here. *)
Definition toAction (parsed : Parsed) : Action :=
  let action := pa_action parsed in
  let role := default "" (pa_role parsed) in
  let className := default "" (pa_className parsed) in
  if decide (action = "withdraw") then act_withdraw
  else if decide (action = "changeRole") then act_changeRole
  else if decide (action = "participate") then act_participate
  else if decide (action = "role") then act_role role
  else if decide (action = "class") then act_class role className
  else if decide (action = "rolechange") then act_rolechange role
  else if decide (action = "rolechangeclass") then act_rolechangeclass role className
  else if decide (action = "changeTime") then act_changeTime
  else if decide (action = "delete") then act_delete
  else act_other.

(** [createRoleButtons] and [createRoleChangeButtons]: the ids of the
    buttons of the row. *)
Definition createRoleButtons (eventId : string) : list string :=
  ["role_tank_" +:+ eventId; "role_healer_" +:+ eventId;
   "role_dps_" +:+ eventId; "role_blue_mage_" +:+ eventId].

Definition createRoleChangeButtons (eventId : string) : list string :=
  ["rolechange_tank_" +:+ eventId; "rolechange_healer_" +:+ eventId;
   "rolechange_dps_" +:+ eventId].

(** The id of one class button, for [createClassButtons] ([action] is
    class) and [createRoleChangeClassButtons] ([action] is
    rolechangeclass). *)
Definition classButtonId (action role className eventId : string) : string :=
  action +:+ "_" +:+ role +:+ "_" +:+ collapseSpaces "_" className +:+ "_" +:+ eventId.

(** A button of the announcement. *)
Record EventButton := mkButton {
  btn_customId : string;
  btn_label : string;
  btn_disabled : bool
}.

Definition createEventButtons (eventId organizerId currentUserId : string)
    (participants : list Participant) (groupType : string) : list (list EventButton) :=
  let row1 :=
    [mkButton ("participate_" +:+ eventId)
              ("Participate (" +:+ pretty (length participants) +:+ "/"
                 +:+ pretty (maxParticipants groupType) +:+ ")")
              (bool_decide (maxParticipants groupType ≤ length participants));
     mkButton ("withdraw_" +:+ eventId) "Withdraw" false;
     mkButton ("changeRole_" +:+ eventId) "Change Role" false] in
  let organizerButtons :=
    [mkButton ("changeTime_" +:+ eventId) "Change Time" false;
     mkButton ("delete_" +:+ eventId) "Delete Event" false] in
  if decide (currentUserId = organizerId) then
    if decide (length row1 ≤ 3) then [row1 ++ organizerButtons]
    else [row1; organizerButtons]
  else [row1].

(** ** The PvP calculator *)

Definition pvpLvl : list Z :=
  [0; 0; 2000; 4000; 6000; 8000; 11000; 14000; 17000; 20000; 23000; 27000;
   31000; 35000; 39000; 43000; 48500; 54000; 59500; 65000; 70500; 78000; 85500;
   93000; 100500; 108000; 118000; 128000; 138000; 148000; 158000; 178000; 198000;
   218000; 238000; 258000; 278000; 298000; 318000; 338000; 358000]%Z.

Definition frontlineWin_Exp : Z := 1500.
Definition frontlineLose2_Exp : Z := 1250.
Definition frontlineLose_Exp : Z := 1000.
Definition frontlineDailyWin_Exp : Z := 3000.
Definition frontlineDailyLose2_Exp : Z := 2750.
Definition frontlineDailyLose_Exp : Z := 2500.
Definition CrystalineWin_Exp : Z := 900.
Definition CrystalineLose_Exp : Z := 700.
Definition rivalwingsWin_Exp : Z := 1250.
Definition rivalwingsLose_Exp : Z := 750.

(** [Math.ceil(exp / reward)].  Both are integers far below 2^53 and the
    rewards are at most 3000, so the quotient computed in floating point
    is an integer exactly when the division is exact and lies strictly
    between two integers otherwise: its ceiling is the integer ceiling. *)
Definition matchesNeeded (exp reward : Z) : Z := (- ((- exp) / reward))%Z.

(** The four errors [calculatePvPXP] throws. *)
Inductive PvPError :=
| CurrentLevelOutOfRange
| GoalLevelOutOfRange
| GoalNotHigher
| ProgressOutOfRange (maxProgress : Z).

Record PvPResult := mkPvPResult {
  expNeeded : Z;
  crystallineConflict_wins : Z;
  crystallineConflict_losses : Z;
  frontline_wins : Z;
  frontline_secondPlace : Z;
  frontline_losses : Z;
  frontlineDaily_wins : Z;
  frontlineDaily_secondPlace : Z;
  frontlineDaily_losses : Z;
  rivalWings_wins : Z;
  rivalWings_losses : Z
}.

(** [pvpLvl[level]] for an integer level. *)
Definition levelMemory (level : Z) : Z := default 0%Z (pvpLvl !! Z.to_nat level).

Definition calculatePvPXP (currentLevel goalLevel currentProgress : Z)
    : PvPError + PvPResult :=
  if decide (currentLevel < 1 ∨ currentLevel > 40)%Z then inl CurrentLevelOutOfRange
  else if decide (goalLevel < 1 ∨ goalLevel > 40)%Z then inl GoalLevelOutOfRange
  else if decide (goalLevel ≤ currentLevel)%Z then inl GoalNotHigher
  else
    let current_level_memory := levelMemory currentLevel in
    let goal_level_memory := levelMemory goalLevel in
    let maxProgress := (goal_level_memory - current_level_memory)%Z in
    if decide (currentProgress < 0 ∨ maxProgress ≤ currentProgress)%Z
    then inl (ProgressOutOfRange maxProgress)
    else
      let exp := (goal_level_memory - current_level_memory - currentProgress)%Z in
      inr (mkPvPResult exp
             (matchesNeeded exp CrystalineWin_Exp)
             (matchesNeeded exp CrystalineLose_Exp)
             (matchesNeeded exp frontlineWin_Exp)
             (matchesNeeded exp frontlineLose2_Exp)
             (matchesNeeded exp frontlineLose_Exp)
             (matchesNeeded exp frontlineDailyWin_Exp)
             (matchesNeeded exp frontlineDailyLose2_Exp)
             (matchesNeeded exp frontlineDailyLose_Exp)
             (matchesNeeded exp rivalwingsWin_Exp)
             (matchesNeeded exp rivalwingsLose_Exp)).

(** [error.message] of each error. *)
Definition errorMessage (e : PvPError) : string :=
  match e with
  | CurrentLevelOutOfRange => "Current level must be between 1 and 40"
  | GoalLevelOutOfRange => "Goal level must be between 1 and 40"
  | GoalNotHigher => "Goal level must be higher than current level"
  | ProgressOutOfRange maxProgress =>
      "Current progress must be between 0 and " +:+ pretty (maxProgress - 1)%Z
  end.

(** [s.includes(needle)] *)
Fixpoint includes (needle s : string) : bool :=
  String.prefix needle s
  || match s with
     | EmptyString => false
     | String _ rest => includes needle rest
     end.

(** The line the catch block of [handlePvPCalculator] adds for an error
    message. *)
Definition pvpErrorLine (message : string) : string :=
  if includes "Goal level must be higher" message
  then "Goal level must be higher than current level"
  else if includes "Current progress must be between" message then message
  else if includes "level must be between" message
  then "PvP levels must be between 1 and 40"
  else "Please check your input values and try again".

(** [handlePvPCalculator]: the progress option defaults to 0; the answer
    is the result or the line for the error. *)
Definition handlePvPCalculator (currentLevel goalLevel : Z) (currentProgress : option Z)
    : string + PvPResult :=
  match calculatePvPXP currentLevel goalLevel (default 0%Z currentProgress) with
  | inl e => inl (pvpErrorLine (errorMessage e))
  | inr results => inr results
  end.

(** ** [handleButtonInteraction] from the raw button id *)

(** What the handler reads of a button interaction before parsing. *)
Record ButtonPress := mkButtonPress {
  bp_customId : string;
  bp_user : string;
  bp_member : option (list string);
  bp_message : option (string * bool);
  bp_arrival : string → nat
}.

(** The answers of the part of the handler that comes before the event
    is loaded, and the answer of the rest. *)
Inductive ButtonOutcome :=
| VerificationNotForYou
| VerificationModal (memberId : string)
| InvalidButtonFormat
| Replied (reply : Reply).

(** [s.substring(n)] *)
Definition substringFrom (n : nat) (s : string) : string :=
  String.substring n (String.length s - n) s.

Definition handleButtonPress (now : Z) (press : ButtonPress) (w : World)
    : ButtonOutcome * World :=
  if String.prefix "verifyMember_" (bp_customId press) then
    let memberId := substringFrom (String.length "verifyMember_") (bp_customId press) in
    if decide (bp_user press ≠ memberId) then (VerificationNotForYou, w)
    else (VerificationModal memberId, w)
  else
    match parseButtonInteraction (bp_customId press) with
    | MissingEventIdentifier => (InvalidButtonFormat, w)
    | ParsedId parsed =>
        let result :=
          handleButtonInteraction now
            (mkInteraction (bp_user press) (bp_member press) (pa_eventId parsed)
                           (toAction parsed) (bp_message press) (bp_arrival press)) w in
        (Replied result.1, result.2)
    end.

(** ** The purge command *)

(** [purgeAllEvents]: for every key of the [events] hash, the event is
    deleted and the jobs carrying its id are removed. *)
Definition purgeAllEvents (w : World) : World :=
  foldl (λ w eventId, cancelEventReminders eventId (deleteEventFromRedis eventId w))
        w (map_to_list (events w)).*1.

Inductive PurgeReply :=
| PurgeNotAuthorized
| AllEventsPurged.

(** The [purge-events] case of the command dispatcher:
    [checkAuthorization(interaction)] looks at the user id only. *)
Definition purgeEventsCommand (userId : string) (w : World) : PurgeReply * World :=
  if isAuthorizedUser userId then (AllEventsPurged, purgeAllEvents w)
  else (PurgeNotAuthorized, w).

(** A reply that reports a change of the store. *)
Definition reportsChange (reply : Reply) : Prop :=
  match reply with
  | Withdrawn | Joined _ _ | RoleChanged _ _ _ | EventDeleted => True
  | _ => False
  end.

(** A direct message is pruned by a list of tracking records when one of
    them has a prunable type and names its recipient and its id. *)
Definition prunedBy (tracked : list DMData) (d : DM) : Prop :=
  Exists (λ r, dm_messageType r ∈ typesToPrune
               ∧ sent_to d = dm_userId r ∧ sent_id d = dm_messageId r) tracked.

#[global] Instance prunedBy_dec tracked d : Decision (prunedBy tracked d).
Proof. unfold prunedBy. apply _. Defined.

(** ** Invariants of the tracking records and of the queue *)

(** The message types the handlers pass to [saveDMMessageForEvent]. *)
Definition trackedTypes : list string :=
  ["registration"; "withdrawal"; "cancellation"; "role_change"; "time_change"].

(** A tracking record has one of the five types above and sits under a
    field built from its own user id and type, followed by a time. *)
Definition recordOK (field : string) (record : DMData) : Prop :=
  dm_messageType record ∈ trackedTypes
  ∧ ∃ time, field = dmField (dm_userId record) (dm_messageType record) time.

Definition trackingOK (w : World) : Prop :=
  map_Forall (λ _ hash, map_Forall recordOK hash) (dm_messages w).

(** A pending job has a positive delay, and its name agrees with its
    payload: a job named as a cleanup carries the event id only, any
    other job carries a participant, a label and the event date, and
    fires at least an hour before that date. *)
Definition jobOK (job : Job) : Prop :=
  (0 < job_delay job)%Z
  ∧ (String.prefix "cleanup_" (job_name job) = true
     ∧ job_data job = mkJobData (jd_eventId (job_data job)) None None None
     ∨ String.prefix "cleanup_" (job_name job) = false
       ∧ ∃ participantId label eventDate,
           job_data job
           = mkJobData (jd_eventId (job_data job)) (Some participantId) (Some label)
                       (Some eventDate)
           ∧ (fireTime job ≤ eventDate - 60 * 60 * 1000)%Z).

Definition queueOK (w : World) : Prop := Forall jobOK (reminderQueue w).

(** ** Dates: the conversion in [validateDateTime]

    The part of [validateDateTime] before the comparison with the
    current time: the two format checks, the numbers read from the two
    strings, and the timestamp computed for the timezone. *)

(** [Date.UTC(year, month, date, hours, minutes)] as ECMAScript defines
    it: [MakeDay], [MakeTime], [MakeDate] and [TimeClip], with years 0 to
    99 read as 1900 to 1999.  [None] is [NaN]. *)
Definition dayFromYear (y : Z) : Z :=
  (365 * (y - 1970) + (y - 1969) / 4 - (y - 1901) / 100 + (y - 1601) / 400)%Z.

Definition inLeapYear (y : Z) : bool :=
  bool_decide (y mod 4 = 0)%Z && negb (bool_decide (y mod 100 = 0)%Z)
  || bool_decide (y mod 400 = 0)%Z.

Definition monthStart : list Z :=
  [0; 31; 59; 90; 120; 151; 181; 212; 243; 273; 304; 334]%Z.

Definition dayWithinYear (leap : bool) (month : Z) : Z :=
  (default 0 (monthStart !! Z.to_nat month)
   + (if leap && bool_decide (2 ≤ month) then 1 else 0))%Z.

Definition makeDay (year month date : Z) : Z :=
  let ym := (year + month / 12)%Z in
  let mn := (month mod 12)%Z in
  (dayFromYear ym + dayWithinYear (inLeapYear ym) mn + date - 1)%Z.

Definition makeTime (hour min : Z) : Z := (hour * 3600000 + min * 60000)%Z.

Definition timeClip (time : Z) : option Z :=
  if decide (Z.abs time ≤ 8640000000000000)%Z then Some time else None.

Definition dateUTC (year month date hours minutes : Z) : option Z :=
  let yr := if decide (0 ≤ year ≤ 99)%Z then (1900 + year)%Z else year in
  timeClip (makeDay yr month date * 86400000 + makeTime hours minutes)%Z.

(** What [isUKDST] and [isEuropeDST] ask of the host's local time zone:
    [new Date(year, month, date, hours, minutes)] as a time value,
    [getFullYear], [getDay], and [setDate] on a time value. *)
Record Host := mkHost {
  h_newDate : Z → Z → Z → Z → Z → Z;
  h_getFullYear : Z → Z;
  h_getDay : Z → Z;
  h_setDate : Z → Z → Z
}.

(** [new Date(year, month, 31)] moved back to its Sunday. *)
Definition lastSunday (host : Host) (year month : Z) : Z :=
  let date := h_newDate host year month 31 0 0 in
  h_setDate host date (31 - h_getDay host date)%Z.

Definition isUKDST (host : Host) (date : Z) : bool :=
  let year := h_getFullYear host date in
  let marchLastSunday := lastSunday host year 2 in
  let octoberLastSunday := lastSunday host year 9 in
  bool_decide (marchLastSunday ≤ date)%Z && bool_decide (date < octoberLastSunday)%Z.

Definition isEuropeDST (host : Host) (date : Z) : bool :=
  let year := h_getFullYear host date in
  let marchLastSunday := lastSunday host year 2 in
  let octoberLastSunday := lastSunday host year 9 in
  bool_decide (marchLastSunday ≤ date)%Z && bool_decide (date < octoberLastSunday)%Z.

(** [\d] *)
Definition isDigit (c : ascii) : bool :=
  bool_decide (48 ≤ nat_of_ascii c ∧ nat_of_ascii c ≤ 57).

(** [/^\d{4}-\d{2}-\d{2}$/.test(s)] *)
Definition dateRegex (s : string) : bool :=
  match s with
  | String y1 (String y2 (String y3 (String y4 (String s1 (String m1 (String m2
      (String s2 (String d1 (String d2 EmptyString))))))))) =>
      forallb isDigit [y1; y2; y3; y4; m1; m2; d1; d2]
      && bool_decide (s1 = "-"%char) && bool_decide (s2 = "-"%char)
  | _ => false
  end.

(** [/^\d{2}:\d{2}$/.test(s)] *)
Definition timeRegex (s : string) : bool :=
  match s with
  | String h1 (String h2 (String s1 (String m1 (String m2 EmptyString)))) =>
      forallb isDigit [h1; h2; m1; m2] && bool_decide (s1 = ":"%char)
  | _ => false
  end.

(** [Number(s)] on a string of decimal digits. *)
Definition digitValue (c : ascii) : Z := (Z.of_nat (nat_of_ascii c) - 48)%Z.

Fixpoint toNumberFrom (acc : Z) (s : string) : Z :=
  match s with
  | EmptyString => acc
  | String c rest => toNumberFrom (10 * acc + digitValue c)%Z rest
  end.

Definition toNumber (s : string) : Z := toNumberFrom 0 s.

Inductive DateTimeError :=
| InvalidDateFormat
| InvalidTimeFormat
| InvalidTimezone
| InvalidDateOrTime.

(** A component missing after the split is [undefined], which makes the
    date [NaN]. *)
Definition convertDateTime (host : Host) (dateString timeString timezone : string)
    : DateTimeError + Z :=
  if negb (dateRegex dateString) then inl InvalidDateFormat
  else if negb (timeRegex timeString) then inl InvalidTimeFormat
  else
    match toNumber <$> splitOn "-" dateString, toNumber <$> splitOn ":" timeString with
    | year :: month :: day :: _, hour :: minute :: _ =>
        let utc hours :=
          match dateUTC year (month - 1) day hours minute with
          | Some time => inr time
          | None => inl InvalidDateOrTime
          end in
        if decide (timezone = "UTC") then utc hour
        else if decide (timezone = "BST") then
          let bstDate := h_newDate host year (month - 1)%Z day hour minute in
          let offsetHours := if isUKDST host bstDate then 1%Z else 0%Z in
          utc (hour - (1 + offsetHours))%Z
        else if decide (timezone = "CET") then
          let cetDate := h_newDate host year (month - 1)%Z day hour minute in
          let cetOffsetHours := if isEuropeDST host cetDate then 2%Z else 1%Z in
          utc (hour - cetOffsetHours)%Z
        else inl InvalidTimezone
    | _, _ => inl InvalidDateOrTime
    end.

(** The conversion as the [validateDateTime] above takes it. *)
Definition parseDateTimeOn (host : Host) (dateString timeString timezone : string)
    : option Z :=
  match convertDateTime host dateString timeString timezone with
  | inr time => Some time
  | inl _ => None
  end.

(** The place of the first [u] in a list of user ids (its length when
    [u] is not in it): the arrival under which a given order comes out of
    [startedTogether]. *)
Fixpoint position (u : string) (ids : list string) : nat :=
  match ids with
  | [] => 0
  | v :: ids => if decide (v = u) then 0 else S (position u ids)
  end.

(** A reminder message. *)
Definition isReminder (kind : DMKind) : Prop :=
  match kind with
  | EventReminder _ _ => True
  | _ => False
  end.

(** Message ids come from the counter: every id in an inbox and in a
    tracking record is that of a value the counter has passed, and a
    tracking record never holds the id of a reminder message. *)
Definition messagesOK (w : World) : Prop :=
  (∀ d, d ∈ inbox w → ∃ n, (n < next_message w)%N ∧ sent_id d = pretty n)
  ∧ (∀ eventId field record,
       dmHash eventId w !! field = Some record →
       (∃ n, (n < next_message w)%N ∧ dm_messageId record = pretty n)
       ∧ ∀ d, d ∈ inbox w → sent_id d = dm_messageId record → ¬ isReminder (sent_kind d)).

(** ** Example data

    A store with two events a week before their date, used for the worked
    examples at the end of the file. *)

Definition demoDate : Z := 1893528000000.
Definition raidDate : Z := 1893441600000.
Definition demoNow : Z := 1892851200000.

(** A stand-in for the date conversion, knowing one date. *)
Definition demoParse (dateString timeString timezone : string) : option Z :=
  if decide (dateString = "2030-01-01" ∧ timeString = "20:00" ∧ timezone = "UTC")
  then Some demoDate else None.

Definition raid : Event :=
  mkEvent "e1" "savage_raids" raidDate "org" "" "standard"
    [mkParticipant "u1" "tank" (Some "Paladin");
     mkParticipant "u2" "tank" (Some "Warrior");
     mkParticipant "u3" "healer" (Some "Sage");
     mkParticipant "u4" "dps" (Some "Monk")]
    (Some "100").

Definition lightParty : Event :=
  mkEvent "e2" "maps" demoDate "org" "farm" "light_party"
    [mkParticipant "u1" "tank" (Some "Paladin");
     mkParticipant "u2" "healer" (Some "Sage");
     mkParticipant "u3" "dps" (Some "Monk");
     mkParticipant "u4" "dps" (Some "Ninja")]
    (Some "101").

Definition cleanupE1 : Job :=
  mkJob "cleanup_e1" (mkJobData "e1" None None None) 777300000 1892664600000.

Definition cleanupE2 : Job :=
  mkJob "cleanup_e2" (mkJobData "e2" None None None) 863700000 1892664600000.

Definition reminderU1 : Job :=
  mkJob "reminder_e1_u1_1 hour"
        (mkJobData "e1" (Some "u1") (Some "1 hour") (Some raidDate))
        687000000 1892751000000.

Definition reminderU7 : Job :=
  mkJob "reminder_e1_u7_1 hour"
        (mkJobData "e1" (Some "u7") (Some "1 hour") (Some raidDate))
        687000000 1892751000000.

Definition demoWorld : World :=
  mkWorld
    {[ "e1" := raid; "e2" := lightParty ]}
    {[ "e2" := {[ "u1_registration_1892751000000"
                  := mkDMData "u1" "55" "registration" 1892751000000 ]} ]}
    [cleanupE1; cleanupE2; reminderU1]
    {[ "100"; "101" ]}
    [mkDM "u1" "55" RegistrationConfirmed]
    200 {[ "u9" ]} true.

Definition press (userId eventId : string) (action : Action) : Interaction :=
  mkInteraction userId None eventId action (Some ("101", true)) (λ _, 0).

(** A light party is created and four users pick a class one after the
    other. *)
Definition lightPartyId : string := "event_1892851200000_k3x9q2m1z".

Definition lightPartySetup : list Step :=
  [Command demoNow
     (mkCreateCommand "org" None "maps" (Some "light_party")
                      "2030-01-01" "20:00" "UTC" (Some "farm") "k3x9q2m1z");
   Button (demoNow + 1000) (press "u1" lightPartyId (act_class "tank" "Paladin"));
   Button (demoNow + 2000) (press "u2" lightPartyId (act_class "healer" "Sage"));
   Button (demoNow + 3000) (press "u3" lightPartyId (act_class "dps" "Monk"));
   Button (demoNow + 4000) (press "u4" lightPartyId (act_class "dps" "Ninja"))].

(** A standard event is created and two tanks join. *)
Definition standardId : string := "event_1892851200000_p0w7c5r2d".

Definition standardSetup : list Step :=
  [Command demoNow
     (mkCreateCommand "org" None "savage_raids" None
                      "2030-01-01" "20:00" "UTC" (Some "prog") "p0w7c5r2d");
   Button (demoNow + 1000) (press "u1" standardId (act_class "tank" "Paladin"));
   Button (demoNow + 2000) (press "u2" standardId (act_class "tank" "Warrior"))].

Definition standardAfterSetup : Event :=
  mkEvent standardId "savage_raids" demoDate "org" "prog" "standard"
    [mkParticipant "u1" "tank" (Some "Paladin");
     mkParticipant "u2" "tank" (Some "Warrior")]
    (Some "0").

Definition changeTimeE1 : ModalSubmission :=
  mkModalSubmission "org" None "e1" "2030-01-01" "20:00" "UTC" (λ _, 0).

(** ** What the handlers leave alone *)

Lemma events_sendTrackedDM eventId userId kind messageType now w :
  events (sendTrackedDM eventId userId kind messageType now w) = events w.
Proof. unfold sendTrackedDM, sendDM. case_decide; reflexivity. Qed.

Lemma reminderQueue_sendTrackedDM eventId userId kind messageType now w :
  reminderQueue (sendTrackedDM eventId userId kind messageType now w) = reminderQueue w.
Proof. unfold sendTrackedDM, sendDM. case_decide; reflexivity. Qed.

Lemma events_foldl_sendTrackedDM eventId kind messageType now l w :
  events (foldl (λ w p, sendTrackedDM eventId (p_id p) kind messageType now w) w l)
  = events w.
Proof.
  revert w. induction l as [|p l IH]; intros w; simpl; [reflexivity|].
  rewrite IH. apply events_sendTrackedDM.
Qed.

Lemma reminderQueue_foldl_sendTrackedDM eventId kind messageType now l w :
  reminderQueue (foldl (λ w p, sendTrackedDM eventId (p_id p) kind messageType now w) w l)
  = reminderQueue w.
Proof.
  revert w. induction l as [|p l IH]; intros w; simpl; [reflexivity|].
  rewrite IH. apply reminderQueue_sendTrackedDM.
Qed.

Lemma events_pruneDMsForCompletedEvent eventId event now w :
  events (pruneDMsForCompletedEvent eventId event now w) = events w.
Proof.
  unfold pruneDMsForCompletedEvent. case_decide; [reflexivity|]. simpl.
  induction (getDMMessagesForEvent eventId w) as [|d l IH]; simpl; [reflexivity|].
  unfold pruneOne at 1. case_decide; simpl; exact IH.
Qed.

Lemma isListed_elem_of userId participants :
  isListed userId participants ↔ userId ∈ p_id <$> participants.
Proof.
  unfold isListed. rewrite Exists_exists, list_elem_of_fmap.
  split; intros (p & H1 & H2); exists p; auto.
Qed.

Lemma roleCount_app role l1 l2 :
  roleCount role (l1 ++ l2) = roleCount role l1 + roleCount role l2.
Proof. unfold roleCount. by rewrite filter_app, length_app. Qed.

Lemma roleCountExcluding_app role userId l1 l2 :
  roleCountExcluding role userId (l1 ++ l2)
  = roleCountExcluding role userId l1 + roleCountExcluding role userId l2.
Proof. unfold roleCountExcluding. by rewrite filter_app, length_app. Qed.

Lemma roleCountExcluding_le role userId l :
  roleCountExcluding role userId l ≤ roleCount role l.
Proof.
  unfold roleCountExcluding, roleCount.
  induction l as [|p l IH]; [done|]. rewrite !filter_cons.
  destruct (decide (p_role p = role ∧ p_id p ≠ userId)) as [[Hrole _]|_].
  - rewrite decide_True by done. simpl. lia.
  - destruct (decide (p_role p = role)); simpl; lia.
Qed.

Lemma roleCountExcluding_absent role userId l :
  userId ∉ p_id <$> l → roleCountExcluding role userId l = roleCount role l.
Proof.
  induction l as [|p l IH]; [done|]. rewrite fmap_cons, not_elem_of_cons.
  intros [Hne Hl]. specialize (IH Hl). revert IH.
  unfold roleCountExcluding, roleCount. rewrite !filter_cons. intros IH.
  destruct (decide (p_role p = role)) as [Hrole|Hrole].
  - rewrite decide_True by done. simpl. by rewrite IH.
  - rewrite decide_False by (by intros [? _]). done.
Qed.

Lemma roleCount_filter_le role (P : Participant → Prop) `{∀ p, Decision (P p)} l :
  roleCount role (filter P l) ≤ roleCount role l.
Proof.
  unfold roleCount.
  induction l as [|p l IH]; [done|]. rewrite !filter_cons.
  destruct (decide (P p)); [rewrite filter_cons|];
    destruct (decide (p_role p = role)); simpl; lia.
Qed.

Lemma atLimit_false count limit :
  atLimit count (Some limit) = false → count < limit.
Proof. simpl. rewrite bool_decide_eq_false. lia. Qed.

Lemma quota_check_false groupType count limit :
  bool_decide (groupType = "standard") && atLimit count (Some limit) = false →
  groupType = "standard" → count < limit.
Proof.
  intros Hcheck Hstd. rewrite bool_decide_eq_true_2 in Hcheck by done.
  by apply atLimit_false.
Qed.

Lemma list_find_split userId (l : list Participant) index participant :
  list_find (λ p, p_id p = userId) l = Some (index, participant) →
  l = take index l ++ participant :: drop (S index) l
  ∧ p_id participant = userId
  ∧ length (take index l) = index.
Proof.
  intros (Hlook & Hid & _)%list_find_Some. split; [|split; [done|]].
  - symmetry. by apply take_drop_middle.
  - rewrite length_take. apply lookup_lt_Some in Hlook. lia.
Qed.

Lemma insert_found userId (l : list Participant) index participant p' :
  list_find (λ p, p_id p = userId) l = Some (index, participant) →
  <[index := p']> l = take index l ++ p' :: drop (S index) l.
Proof.
  intros (Hlook & _)%list_find_Some.
  apply lookup_lt_Some in Hlook. by rewrite insert_take_drop.
Qed.

Lemma rosterOK_withdraw event userId :
  rosterOK event →
  rosterOK (setParticipants event (filter (λ p, p_id p ≠ userId) (ev_participants event))).
Proof.
  intros (Hnd & Hlen & Hquota). split; [|split]; simpl.
  - eapply sublist_NoDup; [exact Hnd|]. apply fmap_sublist, sublist_filter.
  - etrans; [apply length_filter|exact Hlen].
  - intros Hstd role limit Hlim. etrans; [apply roleCount_filter_le|]. by eapply Hquota.
Qed.

Lemma rosterOK_join event p :
  rosterOK event →
  ¬ isListed (p_id p) (ev_participants event) →
  length (ev_participants event) < 8 →
  bool_decide (ev_groupType event = "standard")
    && atLimit (roleCount (p_role p) (ev_participants event))
               (prop ROLE_LIMITS (p_role p)) = false →
  rosterOK (setParticipants event (ev_participants event ++ [p])).
Proof.
  intros (Hnd & Hlen & Hquota) Hnew Hroom Hrole. split; [|split]; simpl.
  - rewrite fmap_app. apply NoDup_app. split; [done|]. split; [|apply NoDup_singleton].
    intros x Hx ->%list_elem_of_singleton. apply Hnew. by apply isListed_elem_of.
  - rewrite length_app. simpl. lia.
  - intros Hstd role limit Hlim. rewrite roleCount_app.
    specialize (Hquota Hstd role limit Hlim).
    assert (p_role p = role → roleCount role (ev_participants event) < limit) as Hfree.
    { intros Heq. rewrite Heq, Hlim in Hrole. by eapply quota_check_false. }
    clear Hrole Hlim. unfold roleCount in *. rewrite filter_cons, filter_nil.
    case_decide as Heq; simpl; [specialize (Hfree Heq)|]; lia.
Qed.

Lemma rosterOK_change event userId index participant role className :
  rosterOK event →
  list_find (λ p, p_id p = userId) (ev_participants event) = Some (index, participant) →
  bool_decide (ev_groupType event = "standard")
    && atLimit (roleCountExcluding role userId (ev_participants event))
               (prop ROLE_LIMITS role) = false →
  rosterOK (setParticipants event
              (<[index := mkParticipant (p_id participant) role className]>
                 (ev_participants event))).
Proof.
  intros (Hnd & Hlen & Hquota) Hfind Hrole.
  pose proof (list_find_split _ _ _ _ Hfind) as (Hsplit & Hid & _).
  split; [|split]; simpl.
  - rewrite list_fmap_insert. simpl. rewrite list_insert_id; [done|].
    apply list_find_Some in Hfind as (Hlook & _). by rewrite list_lookup_fmap, Hlook.
  - by rewrite length_insert.
  - intros Hstd r limit Hlim. specialize (Hquota Hstd r limit Hlim).
    rewrite (insert_found _ _ _ _ _ Hfind).
    rewrite Hsplit in Hquota, Hnd, Hrole.
    set (l1 := take index (ev_participants event)) in *.
    set (l2 := drop (S index) (ev_participants event)) in *.
    rewrite roleCount_app in Hquota |- *.
    change (participant :: l2) with ([participant] ++ l2) in Hquota, Hnd, Hrole.
    change (mkParticipant (p_id participant) role className :: l2)
      with ([mkParticipant (p_id participant) role className] ++ l2).
    rewrite roleCount_app in Hquota |- *.
    destruct (decide (r = role)) as [->|Hne].
    + rewrite Hlim in Hrole. apply quota_check_false in Hrole; [|done].
      rewrite !roleCountExcluding_app in Hrole.
      rewrite !fmap_app in Hnd. simpl in Hnd.
      apply NoDup_app in Hnd as (_ & Hdisj & Hnd2).
      apply NoDup_cons in Hnd2 as (Hnot2 & _).
      assert (userId ∉ p_id <$> l1) as Hnot1.
      { intros Hin. apply (Hdisj _ Hin). rewrite Hid. left. }
      rewrite Hid in Hnot2.
      rewrite (roleCountExcluding_absent _ _ _ Hnot1) in Hrole.
      rewrite (roleCountExcluding_absent _ _ _ Hnot2) in Hrole.
      assert (roleCount role [mkParticipant (p_id participant) role className] = 1) as ->.
      { unfold roleCount. rewrite filter_cons, filter_nil. simpl. by case_decide. }
      lia.
    + assert (roleCount r [mkParticipant (p_id participant) role className] = 0) as ->.
      { clear Hrole. unfold roleCount. rewrite filter_cons, filter_nil. simpl.
        case_decide as Heq; [by rewrite Heq in Hne|done]. }
      lia.
Qed.

Lemma rosterOK_RosterChange event participants :
  rosterOK event → RosterChange event participants →
  rosterOK (setParticipants event participants).
Proof.
  intros Hok [userId | p Hnew Hroom Hrole | userId index participant role className Hfind Hrole].
  - by apply rosterOK_withdraw.
  - by apply rosterOK_join.
  - by eapply rosterOK_change.
Qed.

(** ** The effect of a button press on the [events] hash *)

Ltac frame_events :=
  cbv zeta; cbn [snd];
  repeat first
    [ rewrite events_sendTrackedDM
    | rewrite events_foldl_sendTrackedDM
    | rewrite events_pruneDMsForCompletedEvent ];
  try reflexivity.

Ltac unchanged := left; frame_events.
Ltac rewritten := right; left; eexists; split; [|frame_events].

Lemma checks_false (b1 b2 : bool) : b1 && b2 = false ↔ ¬ (b1 && b2).
Proof. destruct b1, b2; simpl; naive_solver. Qed.

Lemma onWithdraw_events now eventId userId event w :
  eventsEffect eventId event w (onWithdraw now eventId userId event w).2.
Proof.
  unfold onWithdraw. case_decide; [by unchanged|].
  rewritten. apply rc_withdraw.
Qed.

Lemma onRole_events now eventId userId role event w :
  eventsEffect eventId event w (onRole now eventId userId role event w).2.
Proof.
  unfold onRole.
  case_decide; [by unchanged|]. case_decide; [by unchanged|].
  case_decide; [by unchanged|].
  destruct (_ && atLimit _ _) eqn:Hquota; [by unchanged|].
  destruct (_ || _).
  - rewritten. apply rc_join; simpl; [done|lia|done].
  - destruct (createClassButtons role) as [[|row rows]|]; [|by unchanged|].
    + rewritten. apply rc_join; simpl; [done|lia|done].
    + rewritten. apply rc_join; simpl; [done|lia|done].
Qed.

Lemma onClass_events now eventId userId role className event w :
  eventsEffect eventId event w (onClass now eventId userId role className event w).2.
Proof.
  unfold onClass.
  case_decide; [by unchanged|]. destruct (invalidClass _ _); [by unchanged|].
  case_decide; [by unchanged|]. case_decide; [by unchanged|].
  destruct (_ && atLimit _ _) eqn:Hquota; [by unchanged|].
  rewritten. apply rc_join; simpl; [done|lia|done].
Qed.

Lemma onRoleChange_events now eventId userId role event w :
  eventsEffect eventId event w (onRoleChange now eventId userId role event w).2.
Proof.
  unfold onRoleChange. case_decide; [by unchanged|].
  destruct (list_find _ _) as [[index participant]|] eqn:Hfind; [|by unchanged].
  case_decide.
  { destruct (prop ROLE_CLASS role) as [[|c cs]|]; by unchanged. }
  destruct (_ && atLimit _ _) eqn:Hquota; [by unchanged|].
  destruct (_ || _).
  - rewritten. by eapply rc_change.
  - destruct (createClassButtons role) as [[|row rows]|]; [|by unchanged|].
    + rewritten. by eapply rc_change.
    + rewritten. by eapply rc_change.
Qed.

Lemma onRoleChangeClass_events now eventId userId role className event w :
  eventsEffect eventId event w
    (onRoleChangeClass now eventId userId role className event w).2.
Proof.
  unfold onRoleChangeClass. case_decide; [by unchanged|].
  destruct (invalidClass _ _); [by unchanged|].
  destruct (list_find _ _) as [[index participant]|] eqn:Hfind; [|by unchanged].
  destruct (_ && atLimit _ _) eqn:Hquota; [by unchanged|].
  rewritten. by eapply rc_change.
Qed.

Lemma onDelete_events now interaction eventId event w :
  eventsEffect eventId event w (onDelete now interaction eventId event w).2.
Proof.
  unfold onDelete. destruct (isEventOrganizerOrAdmin _ _ _); [|by unchanged].
  right; right. simpl. unfold deleteInteractionMessage.
  destruct (i_message interaction) as [[m []]|]; simpl;
    unfold notifyCancellation; by rewrite events_foldl_sendTrackedDM.
Qed.

Lemma handleButtonInteraction_events now interaction w event :
  getEventFromRedis (i_eventId interaction) w = Some event →
  eventsEffect (i_eventId interaction) event w
    (handleButtonInteraction now interaction w).2.
Proof.
  intros Hget. unfold handleButtonInteraction. rewrite Hget.
  destruct (i_action interaction).
  - apply onWithdraw_events.
  - unfold onChangeRole. case_decide; by unchanged.
  - unfold onParticipate. repeat case_decide; by unchanged.
  - apply onRole_events.
  - apply onClass_events.
  - apply onRoleChange_events.
  - apply onRoleChangeClass_events.
  - unfold onChangeTime. destruct (isEventOrganizerOrAdmin _ _ _); by unchanged.
  - apply onDelete_events.
  - by unchanged.
Qed.

Lemma handleButtonInteraction_missing now interaction w :
  getEventFromRedis (i_eventId interaction) w = None →
  handleButtonInteraction now interaction w = (EventNotFound, w).
Proof. intros Hget. unfold handleButtonInteraction. by rewrite Hget. Qed.

(** ** The roster invariant along a run *)

Lemma rosterOK_empty eventId type date organizer description groupType messageId :
  rosterOK (mkEvent eventId type date organizer description groupType [] messageId).
Proof.
  split; [|split]; simpl.
  - apply NoDup_nil_2.
  - lia.
  - intros _ role limit _. unfold roleCount. rewrite filter_nil. simpl. lia.
Qed.

Lemma rosterOK_setDate event date : rosterOK event → rosterOK (setDate event date).
Proof. by intros (? & ? & ?). Qed.

Lemma storeOK_events w w' : events w' = events w → storeOK w → storeOK w'.
Proof. unfold storeOK. by intros ->. Qed.

Lemma storeOK_button now interaction w :
  storeOK w → storeOK (handleButtonInteraction now interaction w).2.
Proof.
  intros Hok.
  destruct (getEventFromRedis (i_eventId interaction) w) as [event|] eqn:Hget.
  - destruct (handleButtonInteraction_events now _ _ _ Hget)
      as [Heq | [(participants & Hchange & Heq) | Heq]].
    + by eapply storeOK_events.
    + destruct (Hok _ _ Hget) as [_ Hroster].
      unfold storeOK. rewrite Heq. apply map_Forall_insert_2; [|done].
      split; [done|]. by apply rosterOK_RosterChange.
    + unfold storeOK. rewrite Heq. by apply map_Forall_delete.
  - by rewrite handleButtonInteraction_missing.
Qed.

Lemma storeOK_modal now modal w :
  storeOK w → storeOK (handleModalSubmission now modal w).2.
Proof.
  intros Hok. unfold handleModalSubmission.
  destruct (getEventFromRedis _ w) as [event|] eqn:Hget; [|done].
  destruct (isEventOrganizerOrAdmin _ _ _); [|done].
  destruct (validateDateTime _ _ _ _) as [newEventDate|]; [|done].
  cbv zeta; cbn [snd]. unfold storeOK, notifyTimeChange.
  rewrite events_foldl_sendTrackedDM. simpl.
  destruct (Hok _ _ Hget) as [_ Hroster].
  apply map_Forall_insert_2; [|done]. split; [done|]. by apply rosterOK_setDate.
Qed.

Lemma storeOK_command now cmd w :
  storeOK w → storeOK (handleCreateEvent now cmd w).2.
Proof.
  intros Hok. unfold handleCreateEvent.
  destruct (checkAuthorization _ _); [|done].
  destruct (validateDateTime _ _ _ _) as [eventDate|]; [|done].
  cbv zeta. destruct (decide (maxFieldValue < _)); [done|].
  destruct (channel_cached w); [|done].
  cbv zeta; cbn [snd channelSend]. unfold storeOK, scheduleEventCleanup.
  case_decide; simpl;
    (apply map_Forall_insert_2; [split; [done|apply rosterOK_empty]|done]).
Qed.

Lemma storeOK_worker now job w :
  storeOK w → storeOK (reminderWorker now job w).2.
Proof.
  intros Hok. unfold reminderWorker. destruct (String.prefix _ _).
  - unfold cleanupJob. destruct (getEventFromRedis _ w) as [event|]; [|done].
    cbv zeta; cbn [snd]. unfold storeOK, deleteAnnouncement.
    assert (events (pruneDMsForCompletedEvent (jd_eventId (job_data job)) event now w)
            = events w) as Hev by apply events_pruneDMsForCompletedEvent.
    destruct (channel_cached _), (ev_messageId event); simpl; rewrite Hev;
      by apply map_Forall_delete.
  - unfold reminderJob. destruct (getEventFromRedis _ w) as [event|]; [|done].
    destruct (jd_participantId _) as [participantId|]; [|done].
    case_decide; [|done]. unfold sendDM. by case_decide.
Qed.

Lemma storeOK_step s w : storeOK w → storeOK (step s w).
Proof.
  intros Hok. destruct s as [now cmd | now interaction | now modal | now index]; simpl.
  - by apply storeOK_command.
  - by apply storeOK_button.
  - by apply storeOK_modal.
  - destruct (reminderQueue w !! index) as [job|]; [|done].
    case_decide; [|done]. by apply storeOK_worker.
Qed.

Lemma storeOK_run steps w : storeOK w → storeOK (run steps w).
Proof.
  revert w. induction steps as [|s steps IH]; intros w Hok; [done|].
  apply IH. by apply storeOK_step.
Qed.

Lemma storeOK_freshWorld closed cached : storeOK (freshWorld closed cached).
Proof. apply map_Forall_empty. Qed.

(** X26. Whatever the group type, no roster the bot reaches has more than
    eight entries, and no user is on it twice. *)
Lemma roster_at_most_eight closed cached steps key event :
  events (run steps (freshWorld closed cached)) !! key = Some event →
  length (ev_participants event) ≤ 8 ∧ NoDup (p_id <$> ev_participants event).
Proof.
  intros Hlookup.
  destruct (storeOK_run steps _ (storeOK_freshWorld closed cached) key event Hlookup)
    as (_ & Hnd & Hlen & _).
  by split.
Qed.

(** ** Joining *)

Lemma withdraw_listed now eventId userId event w :
  isListed userId (ev_participants event) →
  onWithdraw now eventId userId event w
  = (Withdrawn,
     sendTrackedDM eventId userId WithdrawnNotice "withdrawal" now
       (cancelParticipantReminders eventId userId
          (saveEventToRedis
             (setParticipants event
                (filter (λ p, p_id p ≠ userId) (ev_participants event))) w))).
Proof.
  intros (p & Hin & Hid)%Exists_exists. unfold onWithdraw.
  case_decide as Hlen; [|done].
  pose proof (length_filter_lt (λ p, p_id p ≠ userId) _ p Hin) as Hlt.
  rewrite Hlen in Hlt. exfalso. apply (Nat.lt_irrefl (length (ev_participants event))), Hlt.
  by intros [].
Qed.

Lemma not_listed_after_withdraw userId (participants : list Participant) :
  ¬ isListed userId (filter (λ p, p_id p ≠ userId) participants).
Proof.
  intros (p & Hin & Hid)%Exists_exists.
  apply list_elem_of_filter in Hin as [Hne _]. done.
Qed.

Lemma onClass_joined now eventId userId role className event w :
  role ∈ classRoles → invalidClass role className = false →
  ¬ isListed userId (ev_participants event) →
  length (ev_participants event) < 8 →
  bool_decide (ev_groupType event = "standard")
    && atLimit (roleCount role (ev_participants event)) (prop ROLE_LIMITS role) = false →
  onClass now eventId userId role className event w
  = (Joined role (Some className),
     sendTrackedDM eventId userId RegistrationConfirmed "registration" now
       (pushParticipant now eventId event (mkParticipant userId role (Some className)) w)).
Proof.
  intros Hrole Hclass Hnew Hroom Hquota. unfold onClass.
  rewrite Hquota, Hclass. clear Hquota.
  case_decide; [done|]. case_decide; [done|]. case_decide; [lia|done].
Qed.

Lemma onRole_blue_mage now eventId userId event w :
  ¬ isListed userId (ev_participants event) →
  length (ev_participants event) < 8 →
  onRole now eventId userId "blue_mage" event w
  = (Joined "blue_mage" (Some "Blue Mage"),
     sendTrackedDM eventId userId RegistrationConfirmed "registration" now
       (pushParticipant now eventId event
          (mkParticipant userId "blue_mage" (Some "Blue Mage")) w)).
Proof.
  intros Hnew Hroom. unfold onRole.
  case_decide as Hin; [exfalso; apply Hin; repeat constructor|].
  case_decide; [done|]. case_decide; [lia|].
  replace (prop ROLE_LIMITS "blue_mage") with (@None nat) by done.
  by rewrite andb_false_r.
Qed.

Lemma events_pushParticipant now eventId event p w :
  events (pushParticipant now eventId event p w)
  = <[ev_id event := setParticipants event (ev_participants event ++ [p])]> (events w).
Proof. reflexivity. Qed.

(** C6. A join attempt (Participate, a role button or a class button) by a
    user whose id is already on the roster is rejected and changes
    nothing: the event read back from the store is the same, with the same
    participant list.  The rejection is "already participating" for every
    button the bot offers; a button id with an unknown role or class is
    turned down as invalid before the roster is looked at. *)
Theorem second_join_rejected now interaction w event :
  getEventFromRedis (i_eventId interaction) w = Some event →
  isListed (i_user interaction) (ev_participants event) →
  isJoinAttempt (i_action interaction) →
  let result := handleButtonInteraction now interaction w in
  result.2 = w
  ∧ getEventFromRedis (i_eventId interaction) result.2 = Some event
  ∧ (result.1 = AlreadyParticipating ∨ result.1 = InvalidRole ∨ result.1 = InvalidClass)
  ∧ (offeredButton (i_action interaction) → result.1 = AlreadyParticipating).
Proof.
  intros Hget Hlisted Hjoin. unfold handleButtonInteraction. rewrite Hget.
  destruct (i_action interaction) as [| | |role|role className| | | | |]; try done; simpl.
  - unfold onParticipate. rewrite decide_True by done.
    split_and!; [done|done|by left|done].
  - unfold onRole. destruct (decide (role ∉ joinRoles)) as [Hrole|Hrole].
    + split_and!; [done|done|by right; left|by intros Hoffered].
    + rewrite decide_True by done. split_and!; [done|done|by left|done].
  - unfold onClass. destruct (decide (role ∉ classRoles)) as [Hrole|Hrole].
    + split_and!; [done|done|by right; left|by intros [Hoffered _]].
    + destruct (invalidClass role className) eqn:Hclass.
      * split_and!; [done|done|by right; right|by intros [_ Hoffered]].
      * rewrite decide_True by done. split_and!; [done|done|by left|done].
Qed.

(** C7. A participant who withdraws and then joins again (the event not
    being full and the role quota allowing it) is accepted, and their new
    record is the last entry of the participant list: the roster is the
    other participants in their old order followed by the new record. *)
Theorem withdraw_then_join_appends now1 now2 (eventId userId : string) member1 member2
    message1 message2 arrival1 arrival2 w event rejoin record :
  getEventFromRedis eventId w = Some event →
  ev_id event = eventId →
  isListed userId (ev_participants event) →
  let others := filter (λ p, p_id p ≠ userId) (ev_participants event) in
  let afterWithdraw :=
    handleButtonInteraction now1
      (mkInteraction userId member1 eventId act_withdraw message1 arrival1) w in
  let afterJoin :=
    handleButtonInteraction now2
      (mkInteraction userId member2 eventId rejoin message2 arrival2) afterWithdraw.2 in
  (rejoin = act_role "blue_mage"
   ∧ record = mkParticipant userId "blue_mage" (Some "Blue Mage")
   ∨ ∃ role className,
       rejoin = act_class role className
       ∧ role ∈ classRoles ∧ invalidClass role className = false
       ∧ record = mkParticipant userId role (Some className)) →
  length others < 8 →
  bool_decide (ev_groupType event = "standard")
    && atLimit (roleCount (p_role record) others) (prop ROLE_LIMITS (p_role record)) = false →
  afterWithdraw.1 = Withdrawn
  ∧ afterJoin.1 = Joined (p_role record) (p_class record)
  ∧ (ev_participants <$> getEventFromRedis eventId afterJoin.2) = Some (others ++ [record])
  ∧ last (others ++ [record]) = Some record
  ∧ p_id record = userId.
Proof.
  intros Hget Hkey Hlisted others afterWithdraw afterJoin Hrejoin Hroom Hquota.
  set (w1 := sendTrackedDM eventId userId WithdrawnNotice "withdrawal" now1
               (cancelParticipantReminders eventId userId
                  (saveEventToRedis (setParticipants event others) w))).
  assert (afterWithdraw = (Withdrawn, w1)) as Hwithdraw.
  { subst afterWithdraw. unfold handleButtonInteraction. simpl.
    by rewrite Hget, (withdraw_listed _ _ _ _ _ Hlisted). }
  assert (getEventFromRedis eventId w1 = Some (setParticipants event others)) as Hget1.
  { subst w1. unfold getEventFromRedis. rewrite events_sendTrackedDM. simpl.
    by rewrite Hkey, lookup_insert_eq. }
  assert (¬ isListed userId (ev_participants (setParticipants event others))) as Hgone
    by apply not_listed_after_withdraw.
  subst afterJoin. rewrite Hwithdraw. cbn [fst snd].
  split; [done|].
  unfold handleButtonInteraction. cbn [i_eventId i_user i_action]. rewrite Hget1.
  destruct Hrejoin as [[-> ->] | (role & className & -> & Hrole & Hclass & ->)].
  - rewrite onRole_blue_mage by done. cbn [fst snd p_role p_class p_id].
    unfold getEventFromRedis. rewrite events_sendTrackedDM, events_pushParticipant.
    cbn [ev_id setParticipants]. rewrite Hkey, lookup_insert_eq.
    by rewrite last_snoc.
  - rewrite onClass_joined by done. cbn [fst snd p_role p_class p_id].
    unfold getEventFromRedis. rewrite events_sendTrackedDM, events_pushParticipant.
    cbn [ev_id setParticipants]. rewrite Hkey, lookup_insert_eq.
    by rewrite last_snoc.
Qed.

(** ** Role quotas *)


Lemma classRoles_joinRoles role : role ∈ classRoles → role ∈ joinRoles.
Proof.
  unfold classRoles, joinRoles. rewrite !elem_of_cons, !elem_of_nil.
  intros [->|[->|[->|[]]]]; auto.
Qed.








(** ** Changing role *)




(** ** Scheduling reminders *)

Lemma elem_of_reminderJobs job eventId eventTimestamp participants now :
  job ∈ reminderJobs eventId eventTimestamp participants now ↔
  ∃ participant reminder,
    participant ∈ participants ∧ reminder ∈ reminderTimes
    ∧ (eventTimestamp - reminder.1 > now)%Z
    ∧ job = mkJob ("reminder_" +:+ eventId +:+ "_" +:+ participant +:+ "_" +:+ reminder.2)
                  (mkJobData eventId (Some participant) (Some reminder.2)
                             (Some eventTimestamp))
                  (eventTimestamp - reminder.1 - now) now.
Proof.
  unfold reminderJobs. rewrite list_elem_of_bind. split.
  - intros (participant & Hjob & Hp). apply list_elem_of_bind in Hjob as (reminder & Hjob & Hr).
    case_decide; [|by apply not_elem_of_nil in Hjob].
    apply list_elem_of_singleton in Hjob. by exists participant, reminder.
  - intros (participant & reminder & Hp & Hr & Hfuture & ->).
    exists participant. split; [|done]. apply list_elem_of_bind.
    exists reminder. split; [|done]. case_decide; [|done]. by apply list_elem_of_singleton.
Qed.

Lemma reminder_label_delay delay delay' label :
  (delay, label) ∈ reminderTimes → (delay', label) ∈ reminderTimes → delay' = delay.
Proof.
  unfold reminderTimes. rewrite !elem_of_cons, !elem_of_nil.
  intros [?|[?|[?|[]]]] [?|[?|[?|[]]]]; simplify_eq; done.
Qed.

(** C8. [scheduleReminders] walks over the participants and over the three
    fixed offsets (24 hours, 12 hours, 1 hour).  For a participant being
    scheduled and one of the offsets, a job for that participant and
    offset is added to the queue exactly when the event date minus the
    offset lies strictly after the current time; such a job fires at the
    event date minus the offset.  No job is added for an offset whose time
    has passed. *)
Theorem reminders_enqueued_iff_future eventId eventDate participants now w
    participant delay label :
  participant ∈ participants →
  (delay, label) ∈ reminderTimes →
  let added := reminderJobs eventId eventDate participants now in
  let isFor job :=
    jd_participantId (job_data job) = Some participant
    ∧ jd_reminderType (job_data job) = Some label in
  reminderTimes.*1 = [24 * 3600000; 12 * 3600000; 3600000]%Z
  ∧ reminderQueue (scheduleReminders eventId eventDate participants now w)
    = reminderQueue w ++ added
  ∧ ((∃ job, job ∈ added ∧ isFor job) ↔ (now < eventDate - delay)%Z)
  ∧ (∀ job, job ∈ added → isFor job →
       fireTime job = (eventDate - delay)%Z
       ∧ jd_eventId (job_data job) = eventId
       ∧ jd_eventDate (job_data job) = Some eventDate).
Proof.
  intros Hp Hr added isFor. subst added isFor. cbv beta.
  split; [reflexivity|]. split; [reflexivity|]. split; [split|].
  - intros (job & (p & r & _ & Hr' & Hfuture & ->)%elem_of_reminderJobs & Hpid & Hlabel).
    simpl in Hpid, Hlabel. destruct r as [delay' label']. simpl in *. simplify_eq.
    rewrite (reminder_label_delay _ _ _ Hr Hr') in Hfuture. lia.
  - intros Hfuture. eexists. split.
    + apply elem_of_reminderJobs. exists participant, (delay, label).
      split; [done|]. split; [done|]. split; [simpl; lia|reflexivity].
    + done.
  - intros job (p & r & _ & Hr' & Hfuture & ->)%elem_of_reminderJobs [Hpid Hlabel].
    simpl in Hpid, Hlabel. destruct r as [delay' label']. simpl in *. simplify_eq.
    rewrite (reminder_label_delay _ _ _ Hr Hr'). unfold fireTime. simpl.
    split; [lia|done].
Qed.

(** ** Jobs that fire *)

(** C9. A reminder job reads the event from the store when it fires.  If
    the event is gone, or the participant of the job is not on its roster,
    the job ends there: nothing is sent and nothing changes.  Otherwise a
    reminder DM to that participant is sent; when Discord refuses it the
    failure is logged and the job still ends normally. *)
Theorem reminder_fire_checks_store now job w :
  String.prefix "cleanup_" (job_name job) = false →
  let data := job_data job in
  let result := reminderWorker now job w in
  (getEventFromRedis (jd_eventId data) w = None →
     result = (SkippedNoEvent, w))
  ∧ (∀ event,
       getEventFromRedis (jd_eventId data) w = Some event →
       (∀ participantId, jd_participantId data = Some participantId →
                         ¬ isListed participantId (ev_participants event)) →
       result = (SkippedNotParticipating, w))
  ∧ (∀ event participantId,
       getEventFromRedis (jd_eventId data) w = Some event →
       jd_participantId data = Some participantId →
       isListed participantId (ev_participants event) →
       let reminder := EventReminder (jd_reminderType data) (jd_eventDate data) in
       (participantId ∉ dm_closed w →
          result.1 = ReminderSent (pretty (next_message w))
          ∧ inbox result.2
            = inbox w ++ [mkDM participantId (pretty (next_message w)) reminder]
          ∧ events result.2 = events w)
       ∧ (participantId ∈ dm_closed w → result = (ReminderFailed, w))).
Proof.
  intros Hname data result. subst data result. unfold reminderWorker. rewrite Hname.
  unfold reminderJob. split; [|split].
  - by intros ->.
  - intros event -> Hnot. destruct (jd_participantId _) as [participantId|]; [|done].
    case_decide; [|done]. by destruct (Hnot participantId).
  - intros event participantId -> -> Hlisted. cbv zeta.
    case_decide; [|done]. unfold sendDM. split; intros Hreach; by case_decide.
Qed.

(** ** Changing the time *)

Lemma reminderJobs_not_cleanup job eventId eventTimestamp participants now :
  job ∈ reminderJobs eventId eventTimestamp participants now →
  String.prefix "cleanup_" (job_name job) = false
  ∧ is_Some (jd_participantId (job_data job)).
Proof. intros (p & r & _ & _ & _ & ->)%elem_of_reminderJobs. by split. Qed.

(** C10. After a time change that went through, the queue holds no
    cleanup job for the event.  The cancel step removes every pending job
    whose payload carries the event id, which the cleanup job does as well
    as the reminders, and the jobs scheduled afterwards are reminder jobs
    of the participants only. *)
Theorem changeTime_leaves_no_cleanup now modal w oldDate newDate w' :
  handleModalSubmission now modal w = (TimeChangedReply oldDate newDate, w') →
  (∃ event,
     getEventFromRedis (m_eventId modal) w = Some event
     ∧ reminderQueue w'
       = filter (λ job, ¬ jd_eventId (job_data job) = m_eventId modal) (reminderQueue w)
         ++ reminderJobs (m_eventId modal) newDate (p_id <$> ev_participants event) now)
  ∧ (∀ job, job ∈ reminderQueue w' →
            jd_eventId (job_data job) = m_eventId modal →
            String.prefix "cleanup_" (job_name job) = false
            ∧ is_Some (jd_participantId (job_data job))).
Proof.
  unfold handleModalSubmission. intros Hrun.
  destruct (getEventFromRedis _ w) as [event|] eqn:Hget; [|done].
  destruct (isEventOrganizerOrAdmin _ _ _); [|done].
  destruct (validateDateTime _ _ _ _) as [newEventDate|]; [|done].
  cbv zeta in Hrun. injection Hrun as _ <- Hw.
  assert (reminderQueue w'
          = filter (λ job, ¬ jd_eventId (job_data job) = m_eventId modal) (reminderQueue w)
            ++ reminderJobs (m_eventId modal) newEventDate
                 (p_id <$> ev_participants event) now) as Hqueue.
  { rewrite <- Hw. unfold notifyTimeChange. by rewrite reminderQueue_foldl_sendTrackedDM. }
  split; [by exists event|].
  intros job Hin Hid. rewrite Hqueue in Hin.
  apply elem_of_app in Hin as [Hold|Hnew].
  - apply list_elem_of_filter in Hold as [Hne _]. done.
  - by eapply reminderJobs_not_cleanup.
Qed.

(** ** Cleanup of a future event *)

(** C2, as the code has it.  When a cleanup job fires for an event whose
    date is still ahead, the pruning step does nothing: no DM-tracking
    record is removed and no direct message is deleted.  The rest of the
    cleanup runs as for a past event: the announcement is removed from
    the event channel (when the channel is cached and the event has a
    message id) and the event record is deleted from the store. *)
Theorem cleanup_of_future_event now job w event :
  String.prefix "cleanup_" (job_name job) = true →
  getEventFromRedis (jd_eventId (job_data job)) w = Some event →
  (ev_date event > now)%Z →
  let result := reminderWorker now job w in
  result.1 = AutoDeleted
  ∧ dm_messages result.2 = dm_messages w
  ∧ inbox result.2 = inbox w
  ∧ getEventFromRedis (jd_eventId (job_data job)) result.2 = None
  ∧ announcements result.2
    = match channel_cached w, ev_messageId event with
      | true, Some messageId => announcements w ∖ {[messageId]}
      | _, _ => announcements w
      end.
Proof.
  intros Hname Hget Hfuture result. subst result.
  unfold reminderWorker, cleanupJob. rewrite Hname, Hget. cbv zeta.
  unfold pruneDMsForCompletedEvent. rewrite decide_True by done.
  unfold deleteAnnouncement, getEventFromRedis.
  destruct (channel_cached w), (ev_messageId event); simpl;
    by rewrite lookup_delete_eq.
Qed.

(** ** Deleting an event *)

Lemma dmHash_sendTrackedDM eventId userId kind messageType now w :
  dom (dmHash eventId w) ⊆ dom (dmHash eventId (sendTrackedDM eventId userId kind messageType now w))
  ∧ (userId ∉ dm_closed w →
     dmField userId messageType now
       ∈ dom (dmHash eventId (sendTrackedDM eventId userId kind messageType now w)))
  ∧ dm_closed (sendTrackedDM eventId userId kind messageType now w) = dm_closed w.
Proof.
  unfold sendTrackedDM, sendDM. case_decide as Hclosed; [by repeat split|].
  unfold dmHash at 2 3. simpl. rewrite lookup_insert_eq. simpl.
  rewrite dom_insert_L. unfold dmHash. simpl.
  split; [apply union_subseteq_r|]. split; [|done].
  intros _. by apply elem_of_union_l, elem_of_singleton.
Qed.

Lemma dmHash_notify eventId kind messageType now (l : list Participant) w :
  let w' := foldl (λ w p, sendTrackedDM eventId (p_id p) kind messageType now w) w l in
  dom (dmHash eventId w) ⊆ dom (dmHash eventId w')
  ∧ (∀ p, p ∈ l → p_id p ∉ dm_closed w →
          dmField (p_id p) messageType now ∈ dom (dmHash eventId w'))
  ∧ dm_closed w' = dm_closed w.
Proof.
  revert w. induction l as [|q l IH]; intros w; simpl.
  { split; [done|]. split; [|done]. by intros p Hin%elem_of_nil. }
  destruct (dmHash_sendTrackedDM eventId (p_id q) kind messageType now w)
    as (Hsub & Hadd & Hclosed).
  destruct (IH (sendTrackedDM eventId (p_id q) kind messageType now w))
    as (Hsub' & Hadd' & Hclosed').
  split; [by etrans|]. split; [|congruence].
  intros p [->|Hin]%elem_of_cons Hopen.
  - apply Hsub', Hadd, Hopen.
  - apply Hadd'; [done|]. by rewrite Hclosed.
Qed.

Lemma length_append (a b : string) :
  String.length (a +:+ b) = String.length a + String.length b.
Proof. induction a as [|c a IH]; simpl; [done|]. by rewrite IH. Qed.

Lemma append_cancel_r (a b s : string) : a +:+ s = b +:+ s → a = b.
Proof.
  revert b. induction a as [|c a IH]; intros [|c' b] Heq; simpl in Heq.
  - done.
  - apply (f_equal String.length) in Heq.
    rewrite !length_append in Heq. simpl in Heq. rewrite ?length_append in Heq. lia.
  - apply (f_equal String.length) in Heq.
    rewrite !length_append in Heq. simpl in Heq. rewrite ?length_append in Heq. lia.
  - injection Heq as -> Heq. f_equal. by apply IH.
Qed.

Lemma dmField_user userId userId' messageType now :
  dmField userId messageType now = dmField userId' messageType now → userId = userId'.
Proof. unfold dmField. apply append_cancel_r. Qed.

(** One tracked send to a user who can be reached. *)
Lemma sendTrackedDM_open eventId userId kind messageType now w :
  userId ∉ dm_closed w →
  let w' := sendTrackedDM eventId userId kind messageType now w in
  let messageId := pretty (next_message w) in
  dmHash eventId w'
  = <[dmField userId messageType now := mkDMData userId messageId messageType now]>
      (dmHash eventId w)
  ∧ (∀ other, other ≠ eventId → dmHash other w' = dmHash other w)
  ∧ inbox w' = inbox w ++ [mkDM userId messageId kind]
  ∧ next_message w' = N.succ (next_message w).
Proof.
  intros Hopen. unfold sendTrackedDM, sendDM. rewrite decide_False by done.
  cbv zeta. unfold dmHash, saveDMMessageForEvent. simpl.
  rewrite lookup_insert_eq. split; [done|]. split; [|done].
  intros other Hother. by rewrite lookup_insert_ne.
Qed.

Lemma sendTrackedDM_closed eventId userId kind messageType now w :
  userId ∈ dm_closed w → sendTrackedDM eventId userId kind messageType now w = w.
Proof. intros Hclosed. unfold sendTrackedDM, sendDM. by rewrite decide_True. Qed.

(** The tracked sends of a notification loop, in whatever order they are
    taken: what they leave of the tracking records. *)
Lemma notify_keeps eventId kind messageType now (l : list Participant) w :
  let w' := foldl (λ w p, sendTrackedDM eventId (p_id p) kind messageType now w) w l in
  (∀ field record,
     dmHash eventId w !! field = Some record →
     dmHash eventId w' !! field = Some record
     ∨ ∃ p, p ∈ l ∧ (p_id p ∉ dm_closed w) ∧ field = dmField (p_id p) messageType now)
  ∧ (∀ other, other ≠ eventId → dmHash other w' = dmHash other w)
  ∧ (∀ d, d ∈ inbox w → d ∈ inbox w')
  ∧ dm_closed w' = dm_closed w.
Proof.
  revert w. induction l as [|q l IH]; intros w; cbn [foldl].
  { cbv zeta. split; [by left|]. done. }
  specialize (IH (sendTrackedDM eventId (p_id q) kind messageType now w)).
  cbv zeta in IH |- *. destruct IH as (IHkeep & IHother & IHinbox & IHclosed).
  destruct (dmHash_sendTrackedDM eventId (p_id q) kind messageType now w)
    as (_ & _ & Hclosed).
  destruct (decide (p_id q ∈ dm_closed w)) as [Hq|Hq].
  - rewrite sendTrackedDM_closed in IHkeep, IHother, IHinbox, IHclosed |- * by done.
    split; [|done]. intros field record Hlookup.
    destruct (IHkeep field record Hlookup) as [Hkept|(p & Hp & Hopen & Hfield)];
      [by left|right].
    exists p. split; [by right|done].
  - destruct (sendTrackedDM_open eventId (p_id q) kind messageType now w Hq)
      as (Hhash & Hothers & Hinbox & _).
    split; [|split; [|split]].
    + intros field record Hlookup.
      destruct (decide (field = dmField (p_id q) messageType now)) as [->|Hne].
      { right. exists q. split; [by left|done]. }
      assert (dmHash eventId (sendTrackedDM eventId (p_id q) kind messageType now w)
                !! field = Some record) as Hlookup1.
      { rewrite Hhash. by rewrite lookup_insert_ne. }
      destruct (IHkeep field record Hlookup1) as [Hkept|(p & Hp & Hopen & Hfield)];
        [by left|right].
      exists p. split; [by right|]. split; [|done]. by rewrite <- Hclosed.
    + intros other Hother. rewrite IHother by done. by apply Hothers.
    + intros d Hd. apply IHinbox. rewrite Hinbox. apply elem_of_app. by left.
    + by rewrite IHclosed.
Qed.

(** What they add: a record for each participant reached, under the
    field of that participant, pointing to the message sent. *)
Lemma notify_adds eventId kind messageType now (l : list Participant) w :
  let w' := foldl (λ w p, sendTrackedDM eventId (p_id p) kind messageType now w) w l in
  ∀ p, p ∈ l → p_id p ∉ dm_closed w →
  ∃ record,
    dmHash eventId w' !! dmField (p_id p) messageType now = Some record
    ∧ dm_userId record = p_id p ∧ dm_messageType record = messageType
    ∧ mkDM (p_id p) (dm_messageId record) kind ∈ inbox w'.
Proof.
  revert w. induction l as [|q l IH]; intros w; cbn [foldl]; cbv zeta.
  { by intros p Hin%elem_of_nil. }
  destruct (dmHash_sendTrackedDM eventId (p_id q) kind messageType now w)
    as (_ & _ & Hclosed).
  assert (∀ p', p' ∈ l → p_id p' ∉ dm_closed w →
            ∃ record,
              dmHash eventId
                (foldl (λ w p, sendTrackedDM eventId (p_id p) kind messageType now w)
                       (sendTrackedDM eventId (p_id q) kind messageType now w) l)
                !! dmField (p_id p') messageType now = Some record
              ∧ dm_userId record = p_id p' ∧ dm_messageType record = messageType
              ∧ mkDM (p_id p') (dm_messageId record) kind
                ∈ inbox
                    (foldl (λ w p, sendTrackedDM eventId (p_id p) kind messageType now w)
                           (sendTrackedDM eventId (p_id q) kind messageType now w) l))
    as Hlater.
  { intros p' Hp' Hopen'. apply IH; [done|]. by rewrite Hclosed. }
  intros p [->|Hin]%elem_of_cons Hopen; [|by apply Hlater].
  destruct (sendTrackedDM_open eventId (p_id q) kind messageType now w Hopen)
    as (Hhash & _ & Hinbox & _).
  destruct (notify_keeps eventId kind messageType now l
              (sendTrackedDM eventId (p_id q) kind messageType now w))
    as (Hkeep & _ & Hgrow & _).
  cbv zeta in Hkeep, Hgrow.
  destruct (Hkeep (dmField (p_id q) messageType now)
              (mkDMData (p_id q) (pretty (next_message w)) messageType now))
    as [Hkept|(p' & Hp' & Hopen' & Hfield)].
  { rewrite Hhash. apply lookup_insert_eq. }
  - eexists. split; [exact Hkept|]. split; [done|]. split; [done|]. simpl.
    apply Hgrow. rewrite Hinbox. apply elem_of_app. right. by apply list_elem_of_singleton.
  - apply dmField_user in Hfield. rewrite Hclosed in Hopen'.
    destruct (Hlater p' Hp' Hopen') as (record & Hlookup & Huser & Htype & Hdm).
    rewrite <- Hfield in Hlookup, Huser, Hdm. by exists record.
Qed.

Lemma elem_of_startedTogether arrival (l : list Participant) p :
  p ∈ startedTogether arrival l ↔ p ∈ l.
Proof. unfold startedTogether. by rewrite merge_sort_Permutation. Qed.

(** C3, as the code has it.  A delete by the organizer, or by a member
    holding the authorized role, goes through and removes the event
    record: a lookup of the event id afterwards finds nothing.  The
    DM-tracking records of the event are not removed.  Every entry present
    before is still present with the record it had, unless it sat under
    the field that a new cancellation entry is written to (same user, type
    cancellation, same time), which then holds the new entry.  For each
    participant other than the organizer whom the cancellation DM reached,
    an entry has been added under that participant's cancellation field,
    of type cancellation, with the participant's user id and the id of
    the cancellation DM, which is in the participant's inbox.  The
    tracking records of other events are untouched.  All of this holds
    whatever the order in which the notices reach Discord. *)
Theorem delete_removes_event_keeps_tracking now interaction w event :
  getEventFromRedis (i_eventId interaction) w = Some event →
  i_action interaction = act_delete →
  isEventOrganizerOrAdmin (i_user interaction) event (i_member interaction) = true →
  let eventId := i_eventId interaction in
  let result := handleButtonInteraction now interaction w in
  result.1 = EventDeleted
  ∧ getEventFromRedis eventId result.2 = None
  ∧ dom (dmHash eventId w) ⊆ dom (dmHash eventId result.2)
  ∧ (∀ p, p ∈ ev_participants event → p_id p ≠ ev_organizer event →
          p_id p ∉ dm_closed w →
          dmField (p_id p) "cancellation" now ∈ dom (dmHash eventId result.2))
  ∧ (∀ field record,
       dmHash eventId w !! field = Some record →
       dmHash eventId result.2 !! field = Some record
       ∨ ∃ p, p ∈ ev_participants event ∧ p_id p ≠ ev_organizer event
              ∧ (p_id p ∉ dm_closed w)
              ∧ field = dmField (p_id p) "cancellation" now)
  ∧ (∀ p, p ∈ ev_participants event → p_id p ≠ ev_organizer event →
          p_id p ∉ dm_closed w →
          ∃ record,
            dmHash eventId result.2 !! dmField (p_id p) "cancellation" now = Some record
            ∧ dm_userId record = p_id p
            ∧ dm_messageType record = "cancellation"
            ∧ mkDM (p_id p) (dm_messageId record) EventCancelled ∈ inbox result.2)
  ∧ (∀ other, other ≠ eventId → dmHash other result.2 = dmHash other w).
Proof.
  intros Hget Haction Hauth eventId result. subst eventId result.
  unfold handleButtonInteraction. rewrite Hget, Haction.
  unfold onDelete. rewrite Hauth. cbv zeta. cbn [fst snd].
  set (w1 := cancelEventReminders (i_eventId interaction) w).
  set (l := startedTogether (i_arrival interaction)
              (filter (λ p, p_id p ≠ ev_organizer event) (ev_participants event))).
  assert (∀ p, p ∈ l ↔ p ∈ ev_participants event ∧ p_id p ≠ ev_organizer event) as Hl.
  { intros p. subst l. rewrite elem_of_startedTogether, list_elem_of_filter.
    split; intros [? ?]; by split. }
  pose proof (dmHash_notify (i_eventId interaction) EventCancelled "cancellation" now l w1)
    as (Hsub & Hadd & _).
  pose proof (notify_keeps (i_eventId interaction) EventCancelled "cancellation" now l w1)
    as (Hkeep & Hother & _ & _).
  pose proof (notify_adds (i_eventId interaction) EventCancelled "cancellation" now l w1)
    as Hrecord.
  cbv zeta in Hsub, Hadd, Hkeep, Hother, Hrecord.
  fold (notifyCancellation now (i_eventId interaction) event (i_arrival interaction) w1)
    in Hsub, Hadd, Hkeep, Hother, Hrecord.
  set (w2 := notifyCancellation now (i_eventId interaction) event
               (i_arrival interaction) w1) in *.
  assert (∀ key w3, dmHash key
                  (deleteInteractionMessage interaction
                     (deleteEventFromRedis (i_eventId interaction) w3))
                = dmHash key w3) as Hsame.
  { intros key w3. unfold deleteInteractionMessage.
    by destruct (i_message interaction) as [[m []]|]. }
  assert (∀ w3, inbox
                  (deleteInteractionMessage interaction
                     (deleteEventFromRedis (i_eventId interaction) w3))
                = inbox w3) as Hinbox.
  { intros w3. unfold deleteInteractionMessage.
    by destruct (i_message interaction) as [[m []]|]. }
  split; [done|]. split; [|split; [|split; [|split; [|split]]]].
  - unfold getEventFromRedis, deleteInteractionMessage.
    destruct (i_message interaction) as [[m []]|]; simpl; by rewrite lookup_delete_eq.
  - rewrite Hsame. exact Hsub.
  - intros p Hin Hnot Hopen. rewrite Hsame. apply Hadd; [|done]. by apply Hl.
  - intros field record Hlookup. rewrite Hsame.
    destruct (Hkeep field record Hlookup) as [Hkept|(p & Hp & Hopen & Hfield)];
      [by left|right].
    apply Hl in Hp as [Hp Hnot]. by exists p.
  - intros p Hin Hnot Hopen. rewrite Hsame, Hinbox.
    apply Hrecord; [|done]. by apply Hl.
  - intros other Hne. rewrite Hsame. by apply Hother.
Qed.

(** ** Button ids *)

Lemma splitOn_nonempty sep s : splitOn sep s ≠ [].
Proof.
  destruct s as [|c rest]; simpl; [done|].
  case_decide; [done|]. by destruct (splitOn sep rest).
Qed.

Lemma concat_cons_nonempty sep first (rest : list string) :
  rest ≠ [] →
  String.concat sep (first :: rest) = first +:+ sep +:+ String.concat sep rest.
Proof. by destruct rest. Qed.

Lemma concat_splitOn sep s :
  String.concat (String sep EmptyString) (splitOn sep s) = s.
Proof.
  induction s as [|c rest IH]; simpl; [done|].
  pose proof (splitOn_nonempty sep rest) as Hne.
  destruct (splitOn sep rest) as [|token tokens]; [done|].
  case_decide as Hc.
  - rewrite concat_cons_nonempty by done. rewrite IH. simpl. by rewrite Hc.
  - destruct tokens as [|second others].
    + simpl in *. by rewrite IH.
    + rewrite concat_cons_nonempty in IH |- * by done. by rewrite <- IH.
Qed.

Lemma splitOn_app sep a b :
  splitOn sep (a +:+ String sep b) = splitOn sep a ++ splitOn sep b.
Proof.
  induction a as [|c rest IH]; simpl.
  - by rewrite decide_True.
  - rewrite IH. pose proof (splitOn_nonempty sep rest) as Hne.
    case_decide; [done|]. by destruct (splitOn sep rest).
Qed.

Lemma splitOn_append sep a b :
  splitOn sep (a +:+ String sep EmptyString +:+ b) = splitOn sep a ++ splitOn sep b.
Proof. apply splitOn_app. Qed.

Lemma splitOn_token sep s token :
  token ∈ splitOn sep s → splitOn sep token = [token].
Proof.
  revert token. induction s as [|c rest IH]; simpl; intros token.
  - by intros ->%list_elem_of_singleton.
  - pose proof (splitOn_nonempty sep rest) as Hne.
    destruct (decide (c = sep)) as [Hc|Hc].
    + intros [->|Hin]%elem_of_cons; [done|]. by apply IH.
    + destruct (splitOn sep rest) as [|first others]; [done|].
      intros [->|Hin]%elem_of_cons.
      * simpl. rewrite decide_False by done. rewrite (IH first); [done|]. left.
      * apply IH. by right.
Qed.

(** The parse of an id whose first token is none of the four role and
    class actions: everything after the first underscore is the event
    id. *)
Lemma parse_plain action eventId :
  splitOn "_" action = [action] →
  action ∉ ["role"; "rolechange"; "class"; "rolechangeclass"] →
  parseButtonInteraction (action +:+ "_" +:+ eventId)
  = ParsedId (mkParsed action eventId None None).
Proof.
  intros Htoken Hplain. unfold parseButtonInteraction.
  rewrite splitOn_append, Htoken. simpl.
  rewrite decide_False, decide_False.
  - by rewrite concat_splitOn.
  - intros [->| ->]; apply Hplain; repeat constructor.
  - intros [->| ->]; apply Hplain; repeat constructor.
Qed.

(** The parse of a role button id. *)
Lemma parse_role action tail :
  action = "role" ∨ action = "rolechange" →
  parseButtonInteraction (action +:+ "_" +:+ tail)
  = ParsedId (mkParsed action (String.concat "_" (drop 1 (splitOn "_" tail)))
                       (splitOn "_" tail !! 0) None).
Proof.
  intros Haction. unfold parseButtonInteraction.
  assert (splitOn "_" action = [action]) as Htoken by (by destruct Haction as [->| ->]).
  rewrite splitOn_append, Htoken. simpl. by rewrite decide_True.
Qed.

Lemma parse_role_button action role eventId :
  action = "role" ∨ action = "rolechange" →
  splitOn "_" role = [role] →
  parseButtonInteraction (action +:+ "_" +:+ role +:+ "_" +:+ eventId)
  = ParsedId (mkParsed action eventId (Some role) None).
Proof.
  intros Haction Hrole. rewrite parse_role by done.
  rewrite splitOn_append, Hrole. simpl. by rewrite drop_0, concat_splitOn.
Qed.

(** The parse of a class button id for an event id that starts with the
    word event. *)
Lemma parse_class_button action role collapsed eventRest :
  action = "class" ∨ action = "rolechangeclass" →
  splitOn "_" role = [role] → role ≠ "event" →
  "event" ∉ splitOn "_" collapsed →
  parseButtonInteraction
    (action +:+ "_" +:+ role +:+ "_" +:+ collapsed +:+ "_" +:+ "event_" +:+ eventRest)
  = ParsedId (mkParsed action ("event_" +:+ eventRest) (Some role)
                       (Some (replaceChar "_" " " collapsed))).
Proof.
  intros Haction Hrole Hne Hclass. unfold parseButtonInteraction.
  assert (splitOn "_" action = [action]) as Htoken by (by destruct Haction as [->| ->]).
  rewrite splitOn_append, Htoken. simpl.
  rewrite decide_False by (by destruct Haction as [->| ->]; intros [?|?]).
  rewrite decide_True by done.
  rewrite splitOn_append, Hrole, splitOn_append.
  change ("event_" +:+ eventRest) with ("event" +:+ "_" +:+ eventRest).
  rewrite splitOn_append. change (splitOn "_" "event") with ["event"].
  set (classTokens := splitOn "_" collapsed) in *.
  set (restTokens := splitOn "_" eventRest).
  assert (list_find (λ token, token = "event")
            ([role] ++ classTokens ++ ["event"] ++ restTokens)
          = Some (S (length classTokens), "event")) as ->.
  { apply list_find_Some. split; [|split; [done|]].
    - simpl. by rewrite lookup_app_r, Nat.sub_diag.
    - intros j token Hlook Hj Hevent. subst token.
      destruct j as [|j]; simpl in Hlook; [by injection Hlook|].
      apply Hclass. rewrite lookup_app_l in Hlook by lia.
      by eapply list_elem_of_lookup_2. }
  simpl. rewrite Nat.sub_0_r, drop_0, drop_app_length, take_app_length.
  assert (restTokens ≠ []) as Hrest by apply splitOn_nonempty.
  rewrite (concat_cons_nonempty "_" "event" restTokens Hrest).
  subst classTokens restTokens. by rewrite !concat_splitOn.
Qed.

(** Splits every test of a handler branch. *)
Ltac split_branches :=
  repeat first
    [ case_decide
    | match goal with
      | |- context [bool_decide ?P && atLimit ?n ?l] =>
          destruct (bool_decide P && atLimit n l) eqn:?
      | |- context [bool_decide ?P || noClasses ?r] =>
          destruct (bool_decide P || noClasses r) eqn:?
      | |- context [invalidClass ?r ?c] => destruct (invalidClass r c) eqn:?
      | |- context [list_find ?P ?l] => destruct (list_find P l) as [[? ?]|] eqn:?
      | |- context [createClassButtons ?r] =>
          destruct (createClassButtons r) as [[|? ?]|] eqn:?
      | |- context [prop ROLE_CLASS ?r] =>
          destruct (prop ROLE_CLASS r) as [[|? ?]|] eqn:?
      | |- context [isEventOrganizerOrAdmin ?u ?e ?m] =>
          destruct (isEventOrganizerOrAdmin u e m) eqn:?
      end ];
  cbv zeta; cbn [fst snd].

Ltac unfold_branches :=
  unfold handleButtonInteraction, onWithdraw, onChangeRole, onParticipate, onRole,
    onClass, onRoleChange, onRoleChangeClass, onChangeTime, onDelete.

(** X1. Every answer of the button handler other than withdrawn, joined,
    role changed and event deleted leaves the whole state as it was: the
    store, the tracking records, the queue, the announcements and the
    direct messages. *)
Theorem refusals_change_nothing now interaction w :
  ¬ reportsChange (handleButtonInteraction now interaction w).1 →
  (handleButtonInteraction now interaction w).2 = w.
Proof.
  unfold_branches.
  destruct (getEventFromRedis _ w) as [event|]; [|done].
  destruct (i_action interaction); split_branches; simpl; try done;
    by intros [].
Qed.

Lemma joined_role now interaction w role className :
  (handleButtonInteraction now interaction w).1 = Joined role className →
  i_action interaction = act_role role
  ∨ ∃ picked, i_action interaction = act_class role picked ∧ role ∈ classRoles.
Proof.
  unfold_branches.
  destruct (getEventFromRedis _ w) as [event|]; [|done].
  destruct (i_action interaction) as [| | |r|r c|r|r c| | |];
    split_branches; simpl; try done; intros [= <- <-]; eauto.
Qed.

Lemma changed_role now interaction w oldRole role className :
  (handleButtonInteraction now interaction w).1 = RoleChanged oldRole role className →
  i_action interaction = act_rolechange role
  ∨ ∃ picked, i_action interaction = act_rolechangeclass role picked ∧ role ∈ classRoles.
Proof.
  unfold_branches.
  destruct (getEventFromRedis _ w) as [event|]; [|done].
  destruct (i_action interaction) as [| | |r|r c|r|r c| | |];
    split_branches; simpl; try done; intros [= <- <- <-]; eauto.
Qed.

Lemma parsed_role_token customId parsed role :
  parseButtonInteraction customId = ParsedId parsed →
  pa_role parsed = Some role →
  splitOn "_" role = [role].
Proof.
  unfold parseButtonInteraction.
  pose proof (splitOn_token "_" customId) as Htoken.
  destruct (splitOn "_" customId) as [|action rest]; [by intros [= <-]|].
  assert (∀ token, rest !! 0 = Some token → splitOn "_" token = [token]) as Hfirst.
  { intros token Hlook. apply Htoken. right. by eapply list_elem_of_lookup_2. }
  repeat case_decide.
  - intros [= <-]. simpl. apply Hfirst.
  - destruct (list_find _ rest) as [[eventIndex token]|]; [|done].
    intros [= <-]. simpl. apply Hfirst.
  - by intros [= <-].
Qed.

(** X2. The buttons under an announcement.  [createEventButtons] always
    returns a single row of at most five buttons (the second row of the
    source is never built); the change-time and delete buttons are on it
    exactly when the viewer passed in is the organizer; the Participate
    button is disabled exactly when the roster has reached the limit shown
    for the group type; and every button id parses back to its own
    action and to the event id it was built from, whatever the id is. *)
Theorem announcement_buttons_route_back eventId organizerId currentUserId participants
    groupType :
  let rows := createEventButtons eventId organizerId currentUserId participants groupType in
  (∃ row, rows = [row] ∧ length row ≤ 5
          ∧ (length row = 5 ↔ currentUserId = organizerId)
          ∧ (∃ label others,
               row = mkButton ("participate_" +:+ eventId) label
                       (bool_decide (maxParticipants groupType ≤ length participants))
                     :: others
               ∧ Forall (λ button, btn_disabled button = false) others))
  ∧ (∀ button, button ∈ concat rows →
       ∃ action,
         action ∈ ["participate"; "withdraw"; "changeRole"; "changeTime"; "delete"]
         ∧ btn_customId button = action +:+ "_" +:+ eventId
         ∧ parseButtonInteraction (btn_customId button)
           = ParsedId (mkParsed action eventId None None)).
Proof.
  intros rows. subst rows. unfold createEventButtons.
  assert (∀ action,
            action ∈ ["participate"; "withdraw"; "changeRole"; "changeTime"; "delete"] →
            parseButtonInteraction (action +:+ "_" +:+ eventId)
            = ParsedId (mkParsed action eventId None None)) as Hparse.
  { intros action Hin. apply parse_plain.
    - rewrite !elem_of_cons, elem_of_nil in Hin.
      by destruct Hin as [->|[->|[->|[->|[->|[]]]]]].
    - rewrite !elem_of_cons, elem_of_nil in Hin.
      destruct Hin as [->|[->|[->|[->|[->|[]]]]]];
        rewrite !elem_of_cons, elem_of_nil; intros [?|[?|[?|[?|[]]]]]; done. }
  assert (∀ button (action : string),
            action ∈ ["participate"; "withdraw"; "changeRole"; "changeTime"; "delete"] →
            btn_customId button = action +:+ "_" +:+ eventId →
            ∃ action,
              action ∈ ["participate"; "withdraw"; "changeRole"; "changeTime"; "delete"]
              ∧ btn_customId button = action +:+ "_" +:+ eventId
              ∧ parseButtonInteraction (btn_customId button)
                = ParsedId (mkParsed action eventId None None)) as Hbutton.
  { intros button action Hin Hid. exists action. split; [done|]. split; [done|].
    rewrite Hid. by apply Hparse. }
  set (known := ["participate"; "withdraw"; "changeRole"; "changeTime"; "delete"]) in *.
  assert ("participate" ∈ known ∧ "withdraw" ∈ known ∧ "changeRole" ∈ known
          ∧ "changeTime" ∈ known ∧ "delete" ∈ known) as (K1 & K2 & K3 & K4 & K5).
  { subst known. split_and!; repeat constructor. }
  destruct (decide (currentUserId = organizerId)) as [Heq|Hne].
  - rewrite decide_True by (cbn [length]; lia). split.
    + eexists. split; [reflexivity|]. cbn [length app]. split; [lia|]. split; [done|].
      eexists _, _. split; [reflexivity|]. by repeat constructor.
    + intros button Hin. cbn [concat app] in Hin.
      rewrite !elem_of_cons, elem_of_nil in Hin.
      destruct Hin as [->|[->|[->|[->|[->|[]]]]]].
      * by apply (Hbutton _ "participate").
      * by apply (Hbutton _ "withdraw").
      * by apply (Hbutton _ "changeRole").
      * by apply (Hbutton _ "changeTime").
      * by apply (Hbutton _ "delete").
  - split.
    + eexists. split; [reflexivity|]. cbn [length]. split; [lia|].
      split; [split; [lia|done]|].
      eexists _, _. split; [reflexivity|]. by repeat constructor.
    + intros button Hin. cbn [concat app] in Hin.
      rewrite !elem_of_cons, elem_of_nil in Hin.
      destruct Hin as [->|[->|[->|[]]]].
      * by apply (Hbutton _ "participate").
      * by apply (Hbutton _ "withdraw").
      * by apply (Hbutton _ "changeRole").
Qed.

(** X3. The role buttons.  The tank, healer and dps buttons of the join
    row and of the change row parse back to their role and to the event id,
    whatever the id is.  The Blue Mage button does not: its id parses to
    the role blue and to an event id that starts with mage. *)
Theorem role_buttons_parse eventId :
  (∀ customId,
     customId ∈ createRoleButtons eventId ++ createRoleChangeButtons eventId →
     customId ≠ "role_blue_mage_" +:+ eventId →
     ∃ action role,
       (action = "role" ∨ action = "rolechange") ∧ role ∈ classRoles
       ∧ customId = action +:+ "_" +:+ role +:+ "_" +:+ eventId
       ∧ parseButtonInteraction customId = ParsedId (mkParsed action eventId (Some role) None)
       ∧ toAction (mkParsed action eventId (Some role) None)
         = (if decide (action = "role") then act_role role else act_rolechange role))
  ∧ "role_blue_mage_" +:+ eventId ∈ createRoleButtons eventId
  ∧ parseButtonInteraction ("role_blue_mage_" +:+ eventId)
    = ParsedId (mkParsed "role" ("mage_" +:+ eventId) (Some "blue") None).
Proof.
  split; [|split].
  - assert (∀ action role,
              action = "role" ∨ action = "rolechange" → role ∈ classRoles →
              ∃ action' role',
                (action' = "role" ∨ action' = "rolechange") ∧ role' ∈ classRoles
                ∧ action +:+ "_" +:+ role +:+ "_" +:+ eventId
                  = action' +:+ "_" +:+ role' +:+ "_" +:+ eventId
                ∧ parseButtonInteraction (action +:+ "_" +:+ role +:+ "_" +:+ eventId)
                  = ParsedId (mkParsed action' eventId (Some role') None)
                ∧ toAction (mkParsed action' eventId (Some role') None)
                  = (if decide (action' = "role") then act_role role'
                     else act_rolechange role')) as Hgeneric.
    { intros action role Haction Hrole. exists action, role.
      split; [done|]. split; [done|]. split; [done|]. split.
      - apply parse_role_button; [done|].
        unfold classRoles in Hrole. rewrite !elem_of_cons, elem_of_nil in Hrole.
        by destruct Hrole as [->|[->|[->|[]]]].
      - by destruct Haction as [->| ->]. }
    assert ("tank" ∈ classRoles ∧ "healer" ∈ classRoles ∧ "dps" ∈ classRoles)
      as (T & H & D) by (split_and!; repeat constructor).
    intros customId Hin Hblue. unfold createRoleButtons, createRoleChangeButtons in Hin.
    cbn [app] in Hin. rewrite !elem_of_cons, elem_of_nil in Hin.
    destruct Hin as [->|[->|[->|[->|[->|[->|[->|[]]]]]]]]; [| | |done| | |].
    + apply (Hgeneric "role" "tank"); auto.
    + apply (Hgeneric "role" "healer"); auto.
    + apply (Hgeneric "role" "dps"); auto.
    + apply (Hgeneric "rolechange" "tank"); auto.
    + apply (Hgeneric "rolechange" "healer"); auto.
    + apply (Hgeneric "rolechange" "dps"); auto.
  - unfold createRoleButtons. repeat constructor.
  - apply (parse_role_button "role" "blue" ("mage_" +:+ eventId)); auto.
Qed.

(** X4. No button id at all makes the handler add a blue mage: whatever is
    pressed, the answer is never "joined as blue mage" nor "role changed
    to blue mage", because the role read from an id is a single token
    between underscores.  Pressing the Blue Mage button of the join row is
    answered with "event not found" or "invalid role" and changes
    nothing. *)
Theorem no_button_adds_blue_mage now press w :
  (∀ className, (handleButtonPress now press w).1 ≠ Replied (Joined "blue_mage" className))
  ∧ (∀ oldRole className,
       (handleButtonPress now press w).1
       ≠ Replied (RoleChanged oldRole "blue_mage" className))
  ∧ (∀ eventId,
       bp_customId press = "role_blue_mage_" +:+ eventId →
       ((handleButtonPress now press w).1 = Replied EventNotFound
        ∨ (handleButtonPress now press w).1 = Replied InvalidRole)
       ∧ (handleButtonPress now press w).2 = w).
Proof.
  assert (∀ parsed, parseButtonInteraction (bp_customId press) = ParsedId parsed →
                    toAction parsed ≠ act_role "blue_mage"
                    ∧ toAction parsed ≠ act_rolechange "blue_mage"
                    ∧ (∀ picked, toAction parsed ≠ act_class "blue_mage" picked)
                    ∧ (∀ picked, toAction parsed ≠ act_rolechangeclass "blue_mage" picked))
    as Hnever.
  { intros parsed Hparse.
    assert (default "" (pa_role parsed) ≠ "blue_mage") as Hrole.
    { destruct (pa_role parsed) as [role|] eqn:Hsome; [|done].
      simpl. intros ->.
      by pose proof (parsed_role_token _ _ _ Hparse Hsome). }
    unfold toAction. cbv zeta.
    repeat case_decide; split_and!; try done;
      (first [intros picked Heq | intros Heq]); by injection Heq. }
  split; [|split].
  - intros className. unfold handleButtonPress.
    destruct (String.prefix _ _); [by case_decide|].
    destruct (parseButtonInteraction _) as [|parsed] eqn:Hparse; [done|].
    cbv zeta. cbn [fst]. intros [= Hreply].
    destruct (Hnever parsed eq_refl) as (Hrole & _ & Hclass & _).
    apply joined_role in Hreply as [Haction|(picked & Haction & _)]; simpl in Haction.
    + by apply Hrole.
    + by apply (Hclass picked).
  - intros oldRole className. unfold handleButtonPress.
    destruct (String.prefix _ _); [by case_decide|].
    destruct (parseButtonInteraction _) as [|parsed] eqn:Hparse; [done|].
    cbv zeta. cbn [fst]. intros [= Hreply].
    destruct (Hnever parsed eq_refl) as (_ & Hrole & _ & Hclass).
    apply changed_role in Hreply as [Haction|(picked & Haction & _)]; simpl in Haction.
    + by apply Hrole.
    + by apply (Hclass picked).
  - intros eventId Hid. unfold handleButtonPress. rewrite Hid.
    change (String.prefix "verifyMember_" ("role_blue_mage_" +:+ eventId)) with false.
    cbv iota.
    assert (parseButtonInteraction ("role_blue_mage_" +:+ eventId)
            = ParsedId (mkParsed "role" ("mage_" +:+ eventId) (Some "blue") None))
      as Hblue by (apply (parse_role_button "role" "blue" ("mage_" +:+ eventId)); auto).
    rewrite Hblue.
    cbv zeta. cbn [fst snd pa_eventId toAction].
    unfold handleButtonInteraction. cbn [i_eventId i_action i_user].
    destruct (getEventFromRedis _ w) as [event|]; [|by auto].
    change (toAction (mkParsed "role" ("mage_" +:+ eventId) (Some "blue") None))
      with (act_role "blue").
    unfold onRole. rewrite decide_True; [by auto|].
    unfold joinRoles. rewrite !elem_of_cons, elem_of_nil. by intros [?|[?|[?|[?|[]]]]].
Qed.

Ltac closed_goal :=
  match goal with
  | |- ?P => apply (@bool_decide_unpack P _); vm_compute; exact I
  end.

(** X5. The class buttons.  For every role with classes and every class
    of the role, the id built by [createClassButtons] or
    [createRoleChangeClassButtons] for an event id that starts with
    [event_] (as every id made by [handleCreateEvent] does) parses back to
    the role, the class name with its spaces, and the event id; pressing
    the button is the class branch of the handler for exactly that role
    and class. *)
Theorem class_buttons_parse now action role className eventRest user member message
    arrival w :
  action = "class" ∨ action = "rolechangeclass" →
  role ∈ classRoles →
  invalidClass role className = false →
  let eventId := "event_" +:+ eventRest in
  let customId := classButtonId action role className eventId in
  let picked :=
    if decide (action = "class") then act_class role className
    else act_rolechangeclass role className in
  parseButtonInteraction customId
  = ParsedId (mkParsed action eventId (Some role) (Some className))
  ∧ handleButtonPress now (mkButtonPress customId user member message arrival) w
    = (Replied (handleButtonInteraction now
                  (mkInteraction user member eventId picked message arrival) w).1,
       (handleButtonInteraction now
          (mkInteraction user member eventId picked message arrival) w).2).
Proof.
  intros Haction Hrole Hclass eventId customId picked.
  assert (parseButtonInteraction customId
          = ParsedId (mkParsed action eventId (Some role) (Some className))) as Hparse.
  { subst customId eventId. unfold classButtonId.
    unfold invalidClass in Hclass.
    destruct (prop ROLE_CLASS role) as [classes|] eqn:Hclasses; [|done].
    apply bool_decide_eq_false, dec_stable in Hclass.
    unfold classRoles in Hrole. rewrite !elem_of_cons, elem_of_nil in Hrole.
    destruct Hrole as [->|[->|[->|[]]]];
      vm_compute in Hclasses; injection Hclasses as <-;
      rewrite !elem_of_cons, elem_of_nil in Hclass;
      repeat (destruct Hclass as [->|Hclass]); try done;
      (rewrite parse_class_button; [reflexivity|done|reflexivity|done|closed_goal]). }
  split; [done|].
  unfold handleButtonPress. cbn [bp_customId bp_user bp_member bp_message].
  assert (String.prefix "verifyMember_" customId = false) as ->.
  { subst customId. unfold classButtonId. by destruct Haction as [->| ->]. }
  rewrite Hparse. cbv zeta. cbn [pa_eventId].
  assert (toAction (mkParsed action eventId (Some role) (Some className)) = picked) as ->.
  { subst picked. by destruct Haction as [->| ->]. }
  done.
Qed.

(** X6. A class button id in which no token after the action is the word
    event cannot be parsed: the handler answers with the format error and
    changes nothing. *)
Theorem class_id_without_event_rejected now action tail user member message arrival w :
  action = "class" ∨ action = "rolechangeclass" →
  "event" ∉ splitOn "_" tail →
  parseButtonInteraction (action +:+ "_" +:+ tail) = MissingEventIdentifier
  ∧ handleButtonPress now
      (mkButtonPress (action +:+ "_" +:+ tail) user member message arrival) w
    = (InvalidButtonFormat, w).
Proof.
  intros Haction Hevent.
  assert (parseButtonInteraction (action +:+ "_" +:+ tail) = MissingEventIdentifier)
    as Hparse.
  { unfold parseButtonInteraction.
    assert (splitOn "_" action = [action]) as Htoken by (by destruct Haction as [->| ->]).
    rewrite splitOn_append, Htoken. cbn [app].
    rewrite decide_False by (by destruct Haction as [->| ->]; intros [?|?]).
    rewrite decide_True by done.
    assert (list_find (λ token, token = "event") (splitOn "_" tail) = None) as ->; [|done].
    apply list_find_None, Forall_forall. by intros token Hin ->. }
  split; [done|].
  unfold handleButtonPress. cbn [bp_customId]. rewrite Hparse.
  by destruct Haction as [->| ->].
Qed.

Lemma substring_all s : String.substring 0 (String.length s) s = s.
Proof. induction s as [|c rest IH]; simpl; [done|]. by rewrite IH. Qed.

(** X7. The verification button.  An id made of [verifyMember_] and a
    member id is answered before any event is looked at: the member named
    in the id is shown the verification form, anybody else is told the
    button is not for them, and nothing changes. *)
Theorem verification_button now memberId user member message arrival w :
  handleButtonPress now
    (mkButtonPress ("verifyMember_" +:+ memberId) user member message arrival) w
  = (if decide (user = memberId) then VerificationModal memberId
     else VerificationNotForYou, w).
Proof.
  unfold handleButtonPress. cbn [bp_customId bp_user].
  assert (String.prefix "verifyMember_" ("verifyMember_" +:+ memberId) = true) as ->
    by (by destruct memberId).
  cbv iota zeta.
  assert (substringFrom (String.length "verifyMember_") ("verifyMember_" +:+ memberId)
          = memberId) as ->.
  { unfold substringFrom. simpl. rewrite Nat.sub_0_r. apply substring_all. }
  by repeat case_decide.
Qed.

(** ** The PvP calculator *)

Lemma level_table_checked :
  Forall (λ i, Forall (λ j, i < j →
                 (levelMemory (Z.of_nat i) + 2000 ≤ levelMemory (Z.of_nat j))%Z
                 ∧ (0 ≤ levelMemory (Z.of_nat i))%Z
                 ∧ (levelMemory (Z.of_nat j) ≤ 358000)%Z
                 ∧ pvpErrorLine
                     (errorMessage
                        (ProgressOutOfRange
                           (levelMemory (Z.of_nat j) - levelMemory (Z.of_nat i))))
                   = errorMessage
                       (ProgressOutOfRange
                          (levelMemory (Z.of_nat j) - levelMemory (Z.of_nat i))))
                (seq 1 40))
         (seq 1 40).
Proof.
  match goal with |- ?P => apply (@bool_decide_unpack P _) end.
  vm_compute. exact I.
Qed.

Lemma level_pair currentLevel goalLevel :
  (1 ≤ currentLevel)%Z → (currentLevel < goalLevel)%Z → (goalLevel ≤ 40)%Z →
  (levelMemory currentLevel + 2000 ≤ levelMemory goalLevel)%Z
  ∧ (0 ≤ levelMemory currentLevel)%Z
  ∧ (levelMemory goalLevel ≤ 358000)%Z
  ∧ pvpErrorLine
      (errorMessage (ProgressOutOfRange (levelMemory goalLevel - levelMemory currentLevel)))
    = errorMessage (ProgressOutOfRange (levelMemory goalLevel - levelMemory currentLevel)).
Proof.
  intros Hlow Hlt Hhigh.
  pose proof level_table_checked as Htable.
  rewrite Forall_forall in Htable.
  specialize (Htable (Z.to_nat currentLevel)).
  rewrite elem_of_seq in Htable. specialize (Htable ltac:(lia)).
  rewrite Forall_forall in Htable.
  specialize (Htable (Z.to_nat goalLevel)).
  rewrite elem_of_seq in Htable. specialize (Htable ltac:(lia) ltac:(lia)).
  by rewrite !Z2Nat.id in Htable by lia.
Qed.

Lemma matchesNeeded_least exp reward :
  (0 < reward)%Z →
  (reward * (matchesNeeded exp reward - 1) < exp ≤ reward * matchesNeeded exp reward)%Z.
Proof.
  intros Hreward. unfold matchesNeeded.
  pose proof (Z.div_mod (- exp) reward ltac:(lia)) as Hdiv.
  pose proof (Z.mod_pos_bound (- exp) reward Hreward) as Hmod.
  set (q := (- exp / reward)%Z) in *.
  clearbody q. nia.
Qed.

Lemma matchesNeeded_antitone exp better worse :
  (0 ≤ exp)%Z → (0 < worse)%Z → (worse ≤ better)%Z →
  (matchesNeeded exp better ≤ matchesNeeded exp worse)%Z.
Proof.
  intros Hexp Hworse Hle.
  pose proof (matchesNeeded_least exp better ltac:(lia)) as [Hb1 Hb2].
  pose proof (matchesNeeded_least exp worse ltac:(lia)) as [Hw1 Hw2].
  set (nb := matchesNeeded exp better) in *. set (nw := matchesNeeded exp worse) in *.
  clearbody nb nw.
  assert (0 ≤ nw)%Z as Hnw by nia.
  assert (worse * nw ≤ better * nw)%Z as Hmul by nia.
  assert (better * (nb - 1) < better * nw)%Z as Hlt by lia.
  nia.
Qed.

Lemma matchesNeeded_positive exp reward :
  (1 ≤ exp)%Z → (0 < reward)%Z → (1 ≤ matchesNeeded exp reward)%Z.
Proof.
  intros Hexp Hreward.
  pose proof (matchesNeeded_least exp reward Hreward) as [_ Hreach].
  set (n := matchesNeeded exp reward) in *. clearbody n. nia.
Qed.

(** X8. The calculator accepts exactly the inputs with
    1 <= current < goal <= 40 and a progress from 0 up to, but not
    including, the XP between the two levels.  That XP is at least 2000
    for every such pair of levels, so a request without the optional
    progress is always answered; and a current level of 40 is always
    refused. *)
Theorem pvp_accepts_iff currentLevel goalLevel currentProgress :
  ((∃ results, calculatePvPXP currentLevel goalLevel currentProgress = inr results)
   ↔ (1 ≤ currentLevel)%Z ∧ (currentLevel < goalLevel)%Z ∧ (goalLevel ≤ 40)%Z
     ∧ (0 ≤ currentProgress)%Z
     ∧ (currentProgress < levelMemory goalLevel - levelMemory currentLevel)%Z)
  ∧ ((1 ≤ currentLevel)%Z → (currentLevel < goalLevel)%Z → (goalLevel ≤ 40)%Z →
     (2000 ≤ levelMemory goalLevel - levelMemory currentLevel)%Z
     ∧ ∃ results, handlePvPCalculator currentLevel goalLevel None = inr results
                  ∧ expNeeded results
                    = (levelMemory goalLevel - levelMemory currentLevel)%Z)
  ∧ (∃ e, calculatePvPXP 40 goalLevel currentProgress = inl e).
Proof.
  split; [|split].
  - split.
    + intros [results Hrun]. revert Hrun. unfold calculatePvPXP.
      repeat case_decide; try done. intros _. lia.
    + intros (Hlow & Hlt & Hhigh & Hzero & Hbelow). unfold calculatePvPXP.
      cbv zeta. repeat (rewrite decide_False by lia). eauto.
  - intros Hlow Hlt Hhigh.
    destruct (level_pair _ _ Hlow Hlt Hhigh) as (Hgap & _).
    split; [lia|]. unfold handlePvPCalculator, calculatePvPXP. cbn [default].
    cbv zeta. repeat (rewrite decide_False by lia).
    eexists. split; [reflexivity|]. cbn [expNeeded]. lia.
  - unfold calculatePvPXP. repeat case_decide; eauto; lia.
Qed.

(** X9. Every accepted request needs between 1 and 358000 XP, namely the
    XP between the two levels less the progress, and each number of
    matches reported is the least number of matches of that reward that
    reaches the XP needed: one match fewer falls short. *)
Theorem pvp_matches_are_least currentLevel goalLevel currentProgress results :
  calculatePvPXP currentLevel goalLevel currentProgress = inr results →
  let exp := expNeeded results in
  let least reward count := (reward * (count - 1) < exp ≤ reward * count)%Z in
  exp = (levelMemory goalLevel - levelMemory currentLevel - currentProgress)%Z
  ∧ (1 ≤ exp ≤ 358000)%Z
  ∧ least CrystalineWin_Exp (crystallineConflict_wins results)
  ∧ least CrystalineLose_Exp (crystallineConflict_losses results)
  ∧ least frontlineWin_Exp (frontline_wins results)
  ∧ least frontlineLose2_Exp (frontline_secondPlace results)
  ∧ least frontlineLose_Exp (frontline_losses results)
  ∧ least frontlineDailyWin_Exp (frontlineDaily_wins results)
  ∧ least frontlineDailyLose2_Exp (frontlineDaily_secondPlace results)
  ∧ least frontlineDailyLose_Exp (frontlineDaily_losses results)
  ∧ least rivalwingsWin_Exp (rivalWings_wins results)
  ∧ least rivalwingsLose_Exp (rivalWings_losses results).
Proof.
  unfold calculatePvPXP. repeat case_decide; try done. intros [= <-]. cbv zeta.
  cbn [expNeeded crystallineConflict_wins crystallineConflict_losses frontline_wins
       frontline_secondPlace frontline_losses frontlineDaily_wins
       frontlineDaily_secondPlace frontlineDaily_losses rivalWings_wins
       rivalWings_losses].
  destruct (level_pair currentLevel goalLevel) as (_ & Hzero & Hmax & _); [lia..|].
  split; [done|]. split; [lia|].
  split_and!; by apply matchesNeeded_least.
Qed.

(** X10. A better result never needs more matches: in every mode the
    number of wins needed is at most the number for second place, which
    is at most the number of losses, and the frontline roulette with the
    daily bonus never needs more matches than plain frontline. *)
Theorem pvp_better_results_need_fewer currentLevel goalLevel currentProgress results :
  calculatePvPXP currentLevel goalLevel currentProgress = inr results →
  (1 ≤ crystallineConflict_wins results ≤ crystallineConflict_losses results)%Z
  ∧ (1 ≤ frontline_wins results ≤ frontline_secondPlace results)%Z
  ∧ (frontline_secondPlace results ≤ frontline_losses results)%Z
  ∧ (1 ≤ frontlineDaily_wins results ≤ frontlineDaily_secondPlace results)%Z
  ∧ (frontlineDaily_secondPlace results ≤ frontlineDaily_losses results)%Z
  ∧ (1 ≤ rivalWings_wins results ≤ rivalWings_losses results)%Z
  ∧ (frontlineDaily_wins results ≤ frontline_wins results)%Z
  ∧ (frontlineDaily_secondPlace results ≤ frontline_secondPlace results)%Z
  ∧ (frontlineDaily_losses results ≤ frontline_losses results)%Z.
Proof.
  unfold calculatePvPXP. repeat case_decide; try done. intros [= <-]. cbv zeta.
  cbn [expNeeded crystallineConflict_wins crystallineConflict_losses frontline_wins
       frontline_secondPlace frontline_losses frontlineDaily_wins
       frontlineDaily_secondPlace frontlineDaily_losses rivalWings_wins
       rivalWings_losses].
  destruct (level_pair currentLevel goalLevel) as (_ & Hzero & Hmax & _); [lia..|].
  split_and!;
    first [ apply matchesNeeded_positive; [lia|reflexivity]
          | apply matchesNeeded_antitone; [lia|reflexivity|by vm_compute] ].
Qed.

(** X11. Each error of the calculator reaches the user with its own line:
    a goal that is not higher, a level outside 1 to 40, or the allowed
    range of the progress; the general line for unknown errors is never
    used for them. *)
Theorem pvp_error_lines currentLevel goalLevel currentProgress e :
  calculatePvPXP currentLevel goalLevel (default 0%Z currentProgress) = inl e →
  handlePvPCalculator currentLevel goalLevel currentProgress
  = inl match e with
        | CurrentLevelOutOfRange | GoalLevelOutOfRange =>
            "PvP levels must be between 1 and 40"
        | GoalNotHigher => "Goal level must be higher than current level"
        | ProgressOutOfRange maxProgress =>
            "Current progress must be between 0 and " +:+ pretty (maxProgress - 1)%Z
        end.
Proof.
  intros Hrun. unfold handlePvPCalculator. rewrite Hrun.
  revert Hrun. unfold calculatePvPXP. repeat case_decide; try done; intros [= <-];
    try reflexivity.
  f_equal. destruct (level_pair currentLevel goalLevel) as (_ & _ & _ & Hline); [lia..|].
  exact Hline.
Qed.

(** ** More on withdrawing, joining and deleting *)

Lemma announcements_sendTrackedDM eventId userId kind messageType now w :
  announcements (sendTrackedDM eventId userId kind messageType now w) = announcements w.
Proof. unfold sendTrackedDM, sendDM. case_decide; reflexivity. Qed.

Lemma announcements_foldl_sendTrackedDM eventId kind messageType now l w :
  announcements (foldl (λ w p, sendTrackedDM eventId (p_id p) kind messageType now w) w l)
  = announcements w.
Proof.
  revert w. induction l as [|p l IH]; intros w; simpl; [reflexivity|].
  rewrite IH. apply announcements_sendTrackedDM.
Qed.

(** X12. A participant who withdraws leaves the roster, the others keeping
    their order, and every pending reminder job of that participant for
    that event is removed from the queue; all other jobs stay, in the
    same order.  When the withdrawal notice reaches the user it is
    tracked under the type withdrawal. *)
Theorem withdraw_cancels_own_reminders now interaction w event :
  getEventFromRedis (i_eventId interaction) w = Some event →
  ev_id event = i_eventId interaction →
  i_action interaction = act_withdraw →
  isListed (i_user interaction) (ev_participants event) →
  let eventId := i_eventId interaction in
  let userId := i_user interaction in
  let result := handleButtonInteraction now interaction w in
  let mine job :=
    jd_eventId (job_data job) = eventId ∧ jd_participantId (job_data job) = Some userId in
  result.1 = Withdrawn
  ∧ getEventFromRedis eventId result.2
    = Some (setParticipants event (filter (λ p, p_id p ≠ userId) (ev_participants event)))
  ∧ reminderQueue result.2 = filter (λ job, ¬ mine job) (reminderQueue w)
  ∧ (∀ job, job ∈ reminderQueue result.2 → ¬ mine job)
  ∧ (userId ∉ dm_closed w →
     ∃ field record,
       dmHash eventId result.2 !! field = Some record
       ∧ dm_userId record = userId ∧ dm_messageType record = "withdrawal").
Proof.
  intros Hget Hkey Haction Hlisted eventId userId result mine.
  subst eventId userId result mine.
  unfold handleButtonInteraction. rewrite Hget, Haction.
  rewrite (withdraw_listed _ _ _ _ _ Hlisted). cbn [fst snd].
  split; [done|]. split; [|split; [|split]].
  - unfold getEventFromRedis. rewrite events_sendTrackedDM. simpl.
    by rewrite Hkey, lookup_insert_eq.
  - by rewrite reminderQueue_sendTrackedDM.
  - intros job. rewrite reminderQueue_sendTrackedDM. simpl.
    by intros [Hnot _]%list_elem_of_filter.
  - intros Hopen. unfold sendTrackedDM, sendDM.
    rewrite decide_False by exact Hopen.
    eexists _, (mkDMData _ _ _ _). split; [|done].
    unfold dmHash, saveDMMessageForEvent. simpl.
    rewrite lookup_insert_eq. simpl. apply lookup_insert_eq.
Qed.

(** X13. Whenever the handler answers "joined", the user was not on the
    roster, the roster had fewer than eight entries and the role is one of
    the four roles; the stored roster is the old one with the new record
    at the end, and the queue has grown by exactly the reminder jobs of
    that user for the event date (at most three), nothing else being
    removed or added. *)
Theorem join_appends_and_schedules now interaction w role className :
  (handleButtonInteraction now interaction w).1 = Joined role className →
  ∃ event,
    getEventFromRedis (i_eventId interaction) w = Some event
    ∧ role ∈ joinRoles
    ∧ ¬ isListed (i_user interaction) (ev_participants event)
    ∧ length (ev_participants event) < 8
    ∧ events (handleButtonInteraction now interaction w).2
      = <[ev_id event :=
            setParticipants event
              (ev_participants event
                 ++ [mkParticipant (i_user interaction) role className])]> (events w)
    ∧ reminderQueue (handleButtonInteraction now interaction w).2
      = reminderQueue w
          ++ reminderJobs (i_eventId interaction) (ev_date event)
               [i_user interaction] now
    ∧ length (reminderJobs (i_eventId interaction) (ev_date event)
                [i_user interaction] now) ≤ 3.
Proof.
  assert (∀ eventId date userId,
            length (reminderJobs eventId date [userId] now) ≤ 3) as Hthree.
  { intros eventId date userId. unfold reminderJobs. simpl.
    repeat case_decide; simpl; lia. }
  unfold_branches.
  destruct (getEventFromRedis _ w) as [event|] eqn:Hget; [|done].
  destruct (i_action interaction) as [| | |r|r c|r|r c| | |];
    split_branches; cbn [fst snd]; try done; intros [= <- <-];
    exists event; (split; [done|]);
    (split; [first [done | by apply dec_stable | by apply classRoles_joinRoles
                   | by apply classRoles_joinRoles, dec_stable]|]);
    (split; [done|]); (split; [lia|]);
    rewrite ?events_sendTrackedDM, ?reminderQueue_sendTrackedDM; by split_and!.
Qed.

(** X14. Whenever the handler answers "event deleted", the requester is
    the organizer or holds the authorized role, the event record is gone,
    no pending job carrying the event id is left in the queue (reminders
    and cleanup alike) while the jobs of other events stay in order, and
    the message that carried the button is removed when it is
    deletable. *)
Theorem delete_cancels_every_job now interaction w :
  (handleButtonInteraction now interaction w).1 = EventDeleted →
  ∃ event,
    getEventFromRedis (i_eventId interaction) w = Some event
    ∧ isEventOrganizerOrAdmin (i_user interaction) event (i_member interaction) = true
    ∧ events (handleButtonInteraction now interaction w).2
      = delete (i_eventId interaction) (events w)
    ∧ reminderQueue (handleButtonInteraction now interaction w).2
      = filter (λ job, ¬ jd_eventId (job_data job) = i_eventId interaction)
               (reminderQueue w)
    ∧ announcements (handleButtonInteraction now interaction w).2
      = match i_message interaction with
        | Some (messageId, true) => announcements w ∖ {[messageId]}
        | _ => announcements w
        end.
Proof.
  unfold_branches.
  destruct (getEventFromRedis _ w) as [event|] eqn:Hget; [|done].
  destruct (i_action interaction) as [| | |r|r c|r|r c| | |];
    split_branches; simpl; try done.
  intros _. exists event. split; [done|]. split; [done|].
  unfold deleteInteractionMessage, notifyCancellation.
  destruct (i_message interaction) as [[messageId []]|]; simpl;
    rewrite events_foldl_sendTrackedDM, reminderQueue_foldl_sendTrackedDM,
      announcements_foldl_sendTrackedDM; by split_and!.
Qed.

(** ** Cleanup of a past event *)

Lemma filter_all {A} (P : A → Prop) `{∀ x, Decision (P x)} (l : list A) :
  (∀ x, x ∈ l → P x) → filter P l = l.
Proof.
  induction l as [|x l IH]; intros Hall; [reflexivity|].
  rewrite filter_cons_True by (apply Hall; constructor).
  f_equal. apply IH. intros y Hy. apply Hall. by constructor.
Qed.

Lemma foldr_pruneOne tracked w :
  inbox (foldr pruneOne w tracked) = filter (λ d, ¬ prunedBy tracked d) (inbox w)
  ∧ events (foldr pruneOne w tracked) = events w
  ∧ dm_messages (foldr pruneOne w tracked) = dm_messages w
  ∧ reminderQueue (foldr pruneOne w tracked) = reminderQueue w
  ∧ announcements (foldr pruneOne w tracked) = announcements w
  ∧ channel_cached (foldr pruneOne w tracked) = channel_cached w.
Proof.
  induction tracked as [|r tracked (IHinbox & IHevents & IHdm & IHqueue & IHann & IHch)].
  - simpl. split; [|done]. symmetry. apply filter_all.
    intros d _ Hex. unfold prunedBy in Hex. by apply Exists_nil in Hex.
  - cbn [foldr]. unfold pruneOne at 1 3 5 7 9 11. case_decide as Htype.
    + unfold deleteDM. simpl. split; [|done].
      rewrite IHinbox, list_filter_filter. apply list_filter_iff.
      intros d. unfold prunedBy. rewrite Exists_cons. tauto.
    + split; [|done]. rewrite IHinbox. apply list_filter_iff.
      intros d. unfold prunedBy. rewrite Exists_cons. tauto.
Qed.

(** X15. When a cleanup job fires for an event whose date has passed, the
    tracking records of the event are all erased, and exactly those direct
    messages are deleted that a tracking record of a prunable type pointed
    to; the event record is deleted as well.  A message whose records all
    have the type role_change therefore stays in the user's inbox, as does
    any message that was never tracked. *)
Theorem cleanup_of_past_event now job w event :
  String.prefix "cleanup_" (job_name job) = true →
  getEventFromRedis (jd_eventId (job_data job)) w = Some event →
  (ev_date event ≤ now)%Z →
  let eventId := jd_eventId (job_data job) in
  let tracked := getDMMessagesForEvent eventId w in
  let result := reminderWorker now job w in
  result.1 = AutoDeleted
  ∧ dm_messages result.2 = delete eventId (dm_messages w)
  ∧ events result.2 = delete eventId (events w)
  ∧ inbox result.2 = filter (λ d, ¬ prunedBy tracked d) (inbox w)
  ∧ (∀ d, d ∈ inbox w →
          (∀ r, r ∈ tracked → sent_to d = dm_userId r → sent_id d = dm_messageId r →
                dm_messageType r = "role_change") →
          d ∈ inbox result.2).
Proof.
  intros Hname Hget Hpast eventId tracked result. subst eventId tracked result.
  unfold reminderWorker, cleanupJob. rewrite Hname, Hget. cbv zeta.
  unfold pruneDMsForCompletedEvent. rewrite decide_False by lia.
  destruct (foldr_pruneOne (getDMMessagesForEvent (jd_eventId (job_data job)) w) w)
    as (Hinbox & Hevents & Hdm & _ & _ & Hch).
  assert (inbox
            (deleteEventFromRedis (jd_eventId (job_data job))
               (deleteAnnouncement event
                  (deleteDMMessagesForEvent (jd_eventId (job_data job))
                     (foldr pruneOne w
                        (getDMMessagesForEvent (jd_eventId (job_data job)) w)))))
          = filter (λ d, ¬ prunedBy (getDMMessagesForEvent (jd_eventId (job_data job)) w) d)
                   (inbox w)) as Hresult.
  { unfold deleteAnnouncement. simpl.
    destruct (channel_cached _), (ev_messageId event); simpl; exact Hinbox. }
  cbn [fst snd]. split; [done|]. split; [|split; [|split]].
  - unfold deleteAnnouncement. simpl.
    destruct (channel_cached _), (ev_messageId event); simpl; by rewrite Hdm.
  - unfold deleteAnnouncement. simpl.
    destruct (channel_cached _), (ev_messageId event); simpl; by rewrite Hevents.
  - exact Hresult.
  - intros d Hd Honly. rewrite Hresult. apply list_elem_of_filter. split; [|done].
    unfold prunedBy. rewrite Exists_exists. intros (r & Hr & Htype & Hto & Hid).
    rewrite (Honly r Hr Hto Hid) in Htype. revert Htype.
    unfold typesToPrune. rewrite !elem_of_cons, elem_of_nil.
    intros [?|[?|[?|[?|[?|[]]]]]]; discriminate.
Qed.

(** X16. A reminder job never writes to the store, the tracking records,
    the queue or the announcements, whatever it finds.  It adds at most
    one direct message, to the participant named in the job, and that
    message is not tracked. *)
Theorem reminder_delivery_is_untracked now job w :
  String.prefix "cleanup_" (job_name job) = false →
  let result := reminderWorker now job w in
  events result.2 = events w
  ∧ dm_messages result.2 = dm_messages w
  ∧ reminderQueue result.2 = reminderQueue w
  ∧ announcements result.2 = announcements w
  ∧ (inbox result.2 = inbox w
     ∨ ∃ participantId messageId,
         jd_participantId (job_data job) = Some participantId
         ∧ result.1 = ReminderSent messageId
         ∧ inbox result.2
           = inbox w ++ [mkDM participantId messageId
                           (EventReminder (jd_reminderType (job_data job))
                                          (jd_eventDate (job_data job)))]).
Proof.
  intros Hname result. subst result. unfold reminderWorker. rewrite Hname.
  unfold reminderJob.
  destruct (getEventFromRedis _ w) as [event|]; [|by split_and!; try left].
  destruct (jd_participantId _) as [participantId|]; [|by split_and!; try left].
  case_decide; [|by split_and!; try left].
  unfold sendDM. case_decide; cbn [fst snd]; [by split_and!; try left|].
  split_and!; try done. right. by eexists _, _.
Qed.

(** ** Creating an event *)

(** X17. [handleCreateEvent] either creates the event or leaves the state
    as it was.  An event is created only for an authorized user, with a
    description that an embed field takes (at most 1024 characters) and
    with the event channel cached; its id is built from the current time
    and the random suffix, its roster is empty, its date lies after the
    current time, its announcement is in the channel, and one cleanup job
    is added to the queue, firing five minutes after the event date.  As
    the date is in the future, the cleanup job is never skipped.  With a
    longer description the command of an authorized user with a valid
    date fails before anything is written, whether or not the channel is
    cached. *)
Theorem created_event_gets_cleanup_job now cmd w :
  let result := handleCreateEvent now cmd w in
  ((∀ eventId, result.1 ≠ EventCreated eventId) ∧ result.2 = w
   ∨ ∃ event job,
       result.1 = EventCreated (ev_id event)
       ∧ ev_id event = "event_" +:+ pretty now +:+ "_" +:+ c_random cmd
       ∧ checkAuthorization (c_user cmd) (c_member cmd) = true
       ∧ channel_cached w = true
       ∧ validateDateTime (c_date cmd) (c_time cmd) (c_timezone cmd) now
         = Some (ev_date event)
       ∧ (now < ev_date event)%Z
       ∧ ev_participants event = []
       ∧ ev_organizer event = c_user cmd
       ∧ ev_description event = default "" (c_description cmd)
       ∧ jsLength (ev_description event) ≤ 1024
       ∧ getEventFromRedis (ev_id event) result.2 = Some event
       ∧ (∃ messageId, ev_messageId event = Some messageId
                       ∧ messageId ∈ announcements result.2)
       ∧ reminderQueue result.2 = reminderQueue w ++ [job]
       ∧ String.prefix "cleanup_" (job_name job) = true
       ∧ jd_eventId (job_data job) = ev_id event
       ∧ fireTime job = (ev_date event + 5 * 60 * 1000)%Z)
  ∧ (checkAuthorization (c_user cmd) (c_member cmd) = true →
     is_Some (validateDateTime (c_date cmd) (c_time cmd) (c_timezone cmd) now) →
     1024 < jsLength (default "" (c_description cmd)) →
     result = (CommandFailed, w)).
Proof.
  intros result. subst result. unfold handleCreateEvent. split.
  - destruct (checkAuthorization _ _) eqn:Hauth; [|by left].
    destruct (validateDateTime _ _ _ _) as [eventDate|] eqn:Hvalid; [|by left].
    cbv zeta. destruct (decide (maxFieldValue < _)) as [Hlong|Hshort]; [by left|].
    destruct (channel_cached w) eqn:Hcached; [|by left].
    assert (now < eventDate)%Z as Hfuture.
    { revert Hvalid. unfold validateDateTime.
      destruct (parseDateTime _ _ _); [|done]. case_decide; [done|]. intros [= <-]. lia. }
    right. unfold channelSend, scheduleEventCleanup. cbv zeta. cbn [fst snd].
    rewrite decide_True by lia.
    eexists (mkEvent _ _ _ _ _ _ _ _), (mkJob _ _ _ _). cbn.
    split_and!; try reflexivity; try done.
    + unfold maxFieldValue in Hshort. lia.
    + unfold getEventFromRedis. simpl. by rewrite lookup_insert_eq.
    + eexists. split; [reflexivity|]. simpl. apply elem_of_union_r, elem_of_singleton.
      reflexivity.
    + unfold fireTime. simpl. lia.
  - intros -> [eventDate ->] Hlong. cbv zeta.
    by rewrite decide_True by (unfold maxFieldValue; lia).
Qed.

(** ** Changing the time of an event *)

(** X18. A time-change submission either goes through or leaves the state
    as it was.  When it goes through, the requester is the organizer or
    holds the authorized role, the new date lies after the current time,
    the event is stored with the new date and the same roster, and every
    pending job of the event carries the new date, belongs to a
    participant of the roster and fires after the current time, at least
    one hour before the new date. *)
Theorem time_change_outcome now modal w :
  let result := handleModalSubmission now modal w in
  (∀ oldDate newDate, result.1 ≠ TimeChangedReply oldDate newDate) ∧ result.2 = w
  ∨ ∃ event newDate,
      result.1 = TimeChangedReply (ev_date event) newDate
      ∧ getEventFromRedis (m_eventId modal) w = Some event
      ∧ isEventOrganizerOrAdmin (m_user modal) event (m_member modal) = true
      ∧ (now < newDate)%Z
      ∧ events result.2 = <[ev_id event := setDate event newDate]> (events w)
      ∧ (∀ job, job ∈ reminderQueue result.2 →
                jd_eventId (job_data job) = m_eventId modal →
                jd_eventDate (job_data job) = Some newDate
                ∧ (now < fireTime job ≤ newDate - 60 * 60 * 1000)%Z
                ∧ ∃ p, p ∈ ev_participants event
                       ∧ jd_participantId (job_data job) = Some (p_id p)).
Proof.
  intros result. subst result. unfold handleModalSubmission.
  destruct (getEventFromRedis _ w) as [event|] eqn:Hget; [|by left].
  destruct (isEventOrganizerOrAdmin _ _ _) eqn:Hauth; [|by left].
  destruct (validateDateTime _ _ _ _) as [newDate|] eqn:Hvalid; [|by left].
  assert (now < newDate)%Z as Hfuture.
  { revert Hvalid. unfold validateDateTime.
    destruct (parseDateTime _ _ _); [|done]. case_decide; [done|]. intros [= <-]. lia. }
  right. exists event, newDate. cbv zeta. cbn [fst snd].
  unfold notifyTimeChange.
  rewrite events_foldl_sendTrackedDM, reminderQueue_foldl_sendTrackedDM.
  split_and!; try done.
  intros job Hin Hid. simpl in Hin.
  apply elem_of_app in Hin as [Hold|Hnew].
  { apply list_elem_of_filter in Hold as [Hne _]. done. }
  apply elem_of_reminderJobs in Hnew as (u & r & Hu & Hr & Hahead & ->).
  apply list_elem_of_fmap in Hu as (p & -> & Hp).
  unfold fireTime. simpl. split; [done|]. split; [|by exists p].
  revert Hr Hahead. unfold reminderTimes. rewrite !elem_of_cons, elem_of_nil.
  intros [->|[->|[->|[]]]]; simpl; lia.
Qed.

(** ** Who is notified *)

Lemma recipients_foldl_sendTrackedDM eventId kind messageType now l w :
  (sent_to <$> inbox (foldl (λ w p, sendTrackedDM eventId (p_id p) kind messageType now w) w l))
  = (sent_to <$> inbox w) ++ filter (λ u, u ∉ dm_closed w) (p_id <$> l).
Proof.
  revert w. induction l as [|p l IH]; intros w.
  - simpl. by rewrite app_nil_r.
  - cbn [foldl]. rewrite IH. destruct (dmHash_sendTrackedDM eventId (p_id p) kind
      messageType now w) as (_ & _ & ->).
    rewrite fmap_cons. unfold sendTrackedDM at 1, sendDM. case_decide as Hclosed.
    + by rewrite filter_cons_False by (by intros ?).
    + rewrite filter_cons_True by done. simpl. rewrite fmap_app. simpl.
      by rewrite <- app_assoc.
Qed.

#[local] Instance arrivesBefore_trans arrival : Transitive (arrivesBefore arrival).
Proof. intros p q r. unfold arrivesBefore. lia. Qed.

#[local] Instance arrivesBefore_total arrival : Total (arrivesBefore arrival).
Proof. intros p q. unfold arrivesBefore. lia. Qed.

Lemma StronglySorted_impl_elem {A} (R R' : relation A) (l : list A) :
  StronglySorted R l →
  (∀ x y, x ∈ l → y ∈ l → R x y → R' x y) →
  StronglySorted R' l.
Proof.
  induction 1 as [|x l Hsorted IH Hhead]; intros Himpl; constructor.
  - apply IH. intros y z Hy Hz. apply Himpl; by constructor.
  - rewrite Forall_forall in Hhead |- *. intros y Hy.
    apply Himpl; [by constructor|by constructor|by apply Hhead].
Qed.

Lemma position_lookup u ids : u ∈ ids → ids !! position u ids = Some u.
Proof.
  induction ids as [|v ids IH]; [by intros ?%elem_of_nil|].
  intros Hin. simpl. case_decide as Hv; [by rewrite Hv|].
  simpl. apply IH. apply elem_of_cons in Hin as [->|Hin]; done.
Qed.

Lemma fmap_inj_elem {A B} (f : A → B) (l : list A) x y :
  NoDup (f <$> l) → x ∈ l → y ∈ l → f x = f y → x = y.
Proof.
  induction l as [|z l IH]; [by intros _ ?%elem_of_nil|].
  rewrite fmap_cons, NoDup_cons.
  intros [Hz Hnd] [->|Hx]%elem_of_cons [->|Hy]%elem_of_cons Heq.
  - done.
  - destruct Hz. rewrite Heq. by apply list_elem_of_fmap_2.
  - destruct Hz. rewrite <- Heq. by apply list_elem_of_fmap_2.
  - by apply IH.
Qed.

Lemma position_sorted (l : list Participant) :
  NoDup (p_id <$> l) →
  StronglySorted (arrivesBefore (λ u, position u (p_id <$> l))) l.
Proof.
  induction l as [|x l IH]; [constructor|].
  rewrite fmap_cons, NoDup_cons. intros [Hx Hnd]. constructor.
  - apply (StronglySorted_impl_elem _ _ _ (IH Hnd)).
    intros y z Hy Hz. unfold arrivesBefore. simpl.
    rewrite !decide_False; [lia| |].
    + intros Heq. destruct Hx. rewrite Heq. by apply list_elem_of_fmap_2.
    + intros Heq. destruct Hx. rewrite Heq. by apply list_elem_of_fmap_2.
  - apply Forall_forall. intros y _. unfold arrivesBefore. simpl.
    rewrite decide_True by done. lia.
Qed.

(** Every order of a list of participants with distinct ids comes out of
    [startedTogether] for some arrival. *)
Lemma startedTogether_any_order (l order : list Participant) :
  NoDup (p_id <$> l) → order ≡ₚ l →
  startedTogether (λ u, position u (p_id <$> order)) l = order.
Proof.
  intros Hnd Hperm.
  assert (NoDup (p_id <$> order)) as Hnd' by (by rewrite Hperm).
  unfold startedTogether.
  apply (StronglySorted_unique_strong
           (arrivesBefore (λ u, position u (p_id <$> order)))).
  - intros x y Hx Hy Hxy Hyx. unfold arrivesBefore in Hxy, Hyx.
    rewrite merge_sort_Permutation, <- Hperm in Hx.
    apply (fmap_inj_elem p_id order); [done..|].
    assert (position (p_id x) (p_id <$> order) = position (p_id y) (p_id <$> order))
      as Hsame by lia.
    pose proof (position_lookup (p_id x) (p_id <$> order)
                  (list_elem_of_fmap_2 _ _ _ Hx)) as Hlx.
    pose proof (position_lookup (p_id y) (p_id <$> order)
                  (list_elem_of_fmap_2 _ _ _ Hy)) as Hly.
    rewrite Hsame in Hlx. congruence.
  - apply StronglySorted_merge_sort; apply _.
  - by apply position_sorted.
  - by rewrite merge_sort_Permutation.
Qed.

(** X19. The cancellation notices of a deleted event and the time-change
    notices go to the participants other than the organizer whose direct
    messages are open, one message each, in an order that the code does
    not fix: whatever the order in which the sends reach Discord, the new
    messages are a permutation of those participants, and for a roster
    with distinct ids every order of them occurs.  The organizer is never
    notified, also when they are on the roster. *)
Theorem notices_skip_the_organizer now eventId event w :
  let others :=
    filter (λ p, p_id p ≠ ev_organizer event) (ev_participants event) in
  let reached (l : list Participant) := filter (λ u, u ∉ dm_closed w) (p_id <$> l) in
  (∀ arrival,
     ∃ order,
       order ≡ₚ others
       ∧ (sent_to <$> inbox (notifyCancellation now eventId event arrival w))
         = (sent_to <$> inbox w) ++ reached order
       ∧ (sent_to <$> inbox (notifyTimeChange now eventId event arrival w))
         = (sent_to <$> inbox w) ++ reached order)
  ∧ (∀ order, order ≡ₚ others → reached order ≡ₚ reached others)
  ∧ (ev_organizer event ∉ reached others)
  ∧ (NoDup (p_id <$> ev_participants event) →
     NoDup (reached others)
     ∧ ∀ order,
         order ≡ₚ others →
         ∃ arrival,
           (sent_to <$> inbox (notifyCancellation now eventId event arrival w))
           = (sent_to <$> inbox w) ++ reached order
           ∧ (sent_to <$> inbox (notifyTimeChange now eventId event arrival w))
             = (sent_to <$> inbox w) ++ reached order).
Proof.
  intros others reached. subst others reached. cbv beta.
  unfold notifyCancellation, notifyTimeChange.
  split; [|split; [|split]].
  - intros arrival. eexists. split; [|by rewrite !recipients_foldl_sendTrackedDM].
    unfold startedTogether. apply merge_sort_Permutation.
  - intros order Hperm. by rewrite Hperm.
  - intros (_ & (p & Horg & (Hne & _)%list_elem_of_filter)%list_elem_of_fmap)%list_elem_of_filter.
    by destruct Hne.
  - intros Hnd.
    assert (NoDup (p_id <$> filter (λ p, p_id p ≠ ev_organizer event)
                              (ev_participants event))) as Hnd'.
    { eapply sublist_NoDup; [exact Hnd|]. apply fmap_sublist, sublist_filter. }
    split; [by apply NoDup_filter|].
    intros order Hperm. exists (λ u, position u (p_id <$> order)).
    rewrite !recipients_foldl_sendTrackedDM.
    by rewrite (startedTogether_any_order _ order Hnd' Hperm).
Qed.

(** ** The number of reminder jobs *)

Lemma reminderJobs_cons eventId eventDate participant participants now :
  reminderJobs eventId eventDate (participant :: participants) now
  = reminderJobs eventId eventDate [participant] now
    ++ reminderJobs eventId eventDate participants now.
Proof. unfold reminderJobs. simpl. by rewrite !app_nil_r. Qed.

(** X20. [scheduleReminders] adds at most three jobs per participant:
    exactly three each when the event is more than 24 hours ahead, and
    none at all when it is an hour ahead or less.  Every job it adds has a
    positive delay and fires after the current time, at least an hour
    before the event. *)
Theorem reminder_jobs_bounds eventId eventDate participants now :
  let jobs := reminderJobs eventId eventDate participants now in
  length jobs ≤ 3 * length participants
  ∧ ((now < eventDate - 24 * 60 * 60 * 1000)%Z → length jobs = 3 * length participants)
  ∧ ((eventDate - 60 * 60 * 1000 ≤ now)%Z → jobs = [])
  ∧ (∀ job, job ∈ jobs →
            (0 < job_delay job)%Z
            ∧ (now < fireTime job ≤ eventDate - 60 * 60 * 1000)%Z).
Proof.
  intros jobs. subst jobs. split_and!.
  - induction participants as [|p ps IH]; [done|].
    rewrite reminderJobs_cons, length_app. cbn [length].
    assert (length (reminderJobs eventId eventDate [p] now) ≤ 3); [|lia].
    unfold reminderJobs. simpl. repeat case_decide; simpl; lia.
  - intros Hahead. induction participants as [|p ps IH]; [done|].
    rewrite reminderJobs_cons, length_app. cbn [length].
    assert (length (reminderJobs eventId eventDate [p] now) = 3); [|lia].
    unfold reminderJobs. simpl. by repeat (rewrite decide_True by lia).
  - intros Hlate. induction participants as [|p ps IH]; [done|].
    rewrite reminderJobs_cons, IH, app_nil_r.
    unfold reminderJobs. simpl. by repeat (rewrite decide_False by lia).
  - intros job (p & r & _ & Hr & Hahead & ->)%elem_of_reminderJobs.
    unfold fireTime. simpl. revert Hr Hahead.
    unfold reminderTimes. rewrite !elem_of_cons, elem_of_nil.
    intros [->|[->|[->|[]]]]; simpl; lia.
Qed.

(** ** Purging *)

Lemma purge_foldl keys w :
  let result :=
    foldl (λ w eventId, cancelEventReminders eventId (deleteEventFromRedis eventId w))
          w keys in
  (∀ key, events result !! key = if decide (key ∈ keys) then None else events w !! key)
  ∧ reminderQueue result
    = filter (λ job, jd_eventId (job_data job) ∉ keys) (reminderQueue w)
  ∧ dm_messages result = dm_messages w
  ∧ announcements result = announcements w
  ∧ inbox result = inbox w.
Proof.
  revert w. induction keys as [|k keys IH]; intros w; cbn [foldl].
  - cbv zeta. split; [done|]. split; [|done]. symmetry. apply filter_all.
    intros job _. apply not_elem_of_nil.
  - specialize (IH (cancelEventReminders k (deleteEventFromRedis k w))).
    cbv zeta in IH |- *. destruct IH as (IHevents & IHqueue & IHdm & IHann & IHinbox).
    rewrite IHqueue, IHdm, IHann, IHinbox.
    split; [|split; [|done]].
    + intros key. rewrite IHevents. simpl.
      destruct (decide (key ∈ keys)) as [Hin|Hnot].
      * by rewrite decide_True by (by constructor).
      * destruct (decide (key = k)) as [->|Hne].
        -- rewrite decide_True by constructor. apply lookup_delete_eq.
        -- rewrite decide_False by (rewrite elem_of_cons; by intros [?|?]).
           by apply lookup_delete_ne.
    + simpl. rewrite list_filter_filter. apply list_filter_iff.
      intros job. rewrite elem_of_cons. split.
      * intros [Hkeys Hne] [?|?]; [by apply Hne | by apply Hkeys].
      * intros Hnot. split; intros ?; apply Hnot; [by right | by left].
Qed.

(** X21. The purge command is refused for a user who is not in the list
    of authorized users, whatever roles they hold, and then changes
    nothing.  For an authorized user it empties the event store and
    removes the pending jobs of the events that were stored; jobs of
    events that were no longer stored stay in the queue, and the tracking
    records, the announcements and the direct messages are all left
    behind. *)
Theorem purge_removes_events_and_their_jobs userId w :
  let result := purgeEventsCommand userId w in
  (userId ∉ AUTHORIZED_USERS → result = (PurgeNotAuthorized, w))
  ∧ (userId ∈ AUTHORIZED_USERS →
       result.1 = AllEventsPurged
       ∧ events result.2 = ∅
       ∧ reminderQueue result.2
         = filter (λ job, events w !! jd_eventId (job_data job) = None) (reminderQueue w)
       ∧ dm_messages result.2 = dm_messages w
       ∧ announcements result.2 = announcements w
       ∧ inbox result.2 = inbox w).
Proof.
  intros result. subst result. unfold purgeEventsCommand, isAuthorizedUser. split.
  - intros Hnot. by rewrite bool_decide_eq_false_2.
  - intros Hin. rewrite bool_decide_eq_true_2 by done. cbn [fst snd].
    unfold purgeAllEvents.
    destruct (purge_foldl (map_to_list (events w)).*1 w) as (Hevents & -> & -> & -> & ->).
    assert (∀ key, key ∈ (map_to_list (events w)).*1 ↔ is_Some (events w !! key)) as Hkeys.
    { intros key. rewrite list_elem_of_fmap. split.
      - intros ([key' event] & -> & Hpair). apply elem_of_map_to_list in Hpair. by eexists.
      - intros [event Hlookup]. exists (key, event). split; [done|].
        by apply elem_of_map_to_list. }
    split_and!; try done.
    + apply map_eq. intros key. rewrite Hevents, lookup_empty.
      case_decide as Hkey; [done|].
      rewrite Hkeys in Hkey. by apply eq_None_not_Some.
    + apply list_filter_iff. intros job. rewrite Hkeys. symmetry.
      apply eq_None_not_Some.
Qed.

(** ** What the tracking records can be *)

Lemma trackingOK_sendTrackedDM eventId userId kind messageType now w :
  messageType ∈ trackedTypes →
  trackingOK w → trackingOK (sendTrackedDM eventId userId kind messageType now w).
Proof.
  intros Htype Hok. unfold sendTrackedDM, sendDM. case_decide; [done|].
  unfold trackingOK. simpl. apply map_Forall_insert_2; [|done].
  apply map_Forall_insert_2; [split; [done|by eexists]|].
  unfold dmHash. simpl.
  destruct (dm_messages w !! eventId) as [hash|] eqn:Hhash; simpl.
  - by apply (Hok eventId).
  - apply map_Forall_empty.
Qed.

Lemma trackingOK_foldl eventId kind messageType now l w :
  messageType ∈ trackedTypes →
  trackingOK w →
  trackingOK (foldl (λ w p, sendTrackedDM eventId (p_id p) kind messageType now w) w l).
Proof.
  intros Htype. revert w. induction l as [|p l IH]; intros w Hok; [done|].
  cbn [foldl]. by apply IH, trackingOK_sendTrackedDM.
Qed.

Lemma trackingOK_same w w' :
  dm_messages w' = dm_messages w → trackingOK w → trackingOK w'.
Proof. unfold trackingOK. by intros ->. Qed.

Lemma trackedTypes_mem :
  "registration" ∈ trackedTypes ∧ "withdrawal" ∈ trackedTypes
  ∧ "cancellation" ∈ trackedTypes ∧ "role_change" ∈ trackedTypes
  ∧ "time_change" ∈ trackedTypes.
Proof. unfold trackedTypes. rewrite !elem_of_cons. split_and!; auto 6. Qed.

Lemma trackingOK_set_announcements f w :
  trackingOK w → trackingOK (set_announcements f w).
Proof. done. Qed.

Ltac tracking_frame Hok :=
  repeat first
    [ apply trackingOK_sendTrackedDM; [apply trackedTypes_mem|]
    | apply trackingOK_foldl; [apply trackedTypes_mem|]
    | apply trackingOK_set_announcements ];
  first [ exact Hok | exact (trackingOK_same _ _ eq_refl Hok) ].

Lemma trackingOK_button now interaction w :
  trackingOK w → trackingOK (handleButtonInteraction now interaction w).2.
Proof.
  intros Hok. unfold_branches.
  destruct (getEventFromRedis _ w) as [event|]; [|done].
  destruct (i_action interaction) as [| | |r|r c|r|r c| | |];
    split_branches; cbn [fst snd]; try done;
    unfold notifyCancellation, deleteInteractionMessage;
    try (destruct (i_message interaction) as [[? []]|]);
    tracking_frame Hok.
Qed.

Lemma trackingOK_modal now modal w :
  trackingOK w → trackingOK (handleModalSubmission now modal w).2.
Proof.
  intros Hok. unfold handleModalSubmission.
  destruct (getEventFromRedis _ w) as [event|]; [|done].
  destruct (isEventOrganizerOrAdmin _ _ _); [|done].
  destruct (validateDateTime _ _ _ _) as [newEventDate|]; [|done].
  cbv zeta; cbn [snd]. unfold notifyTimeChange. tracking_frame Hok.
Qed.

Lemma trackingOK_command now cmd w :
  trackingOK w → trackingOK (handleCreateEvent now cmd w).2.
Proof.
  intros Hok. unfold handleCreateEvent.
  destruct (checkAuthorization _ _); [|done].
  destruct (validateDateTime _ _ _ _) as [eventDate|]; [|done].
  cbv zeta. destruct (decide (maxFieldValue < _)); [done|].
  destruct (channel_cached w); [|done].
  cbv zeta; cbn [snd channelSend]. unfold scheduleEventCleanup.
  case_decide; tracking_frame Hok.
Qed.

Lemma trackingOK_worker now job w :
  trackingOK w → trackingOK (reminderWorker now job w).2.
Proof.
  intros Hok. unfold reminderWorker. destruct (String.prefix _ _).
  - unfold cleanupJob. destruct (getEventFromRedis _ w) as [event|]; [|done].
    cbv zeta; cbn [snd]. unfold pruneDMsForCompletedEvent, deleteAnnouncement.
    case_decide.
    + destruct (channel_cached _), (ev_messageId event); tracking_frame Hok.
    + destruct (foldr_pruneOne (getDMMessagesForEvent (jd_eventId (job_data job)) w) w)
        as (_ & _ & Hdm & _).
      unfold trackingOK.
      destruct (channel_cached _), (ev_messageId event); simpl; rewrite Hdm;
        by apply map_Forall_delete.
  - unfold reminderJob. destruct (getEventFromRedis _ w) as [event|]; [|done].
    destruct (jd_participantId _) as [participantId|]; [|done].
    case_decide; [|done]. unfold sendDM. by case_decide.
Qed.

Lemma trackingOK_run steps w : trackingOK w → trackingOK (run steps w).
Proof.
  revert w. induction steps as [|s steps IH]; intros w Hok; [done|].
  apply IH. destruct s as [now cmd | now interaction | now modal | now index]; simpl.
  - by apply trackingOK_command.
  - by apply trackingOK_button.
  - by apply trackingOK_modal.
  - destruct (reminderQueue w !! index) as [job|]; [|done].
    case_decide; [|done]. by apply trackingOK_worker.
Qed.

(** *** Message ids of tracked messages *)

Lemma messagesOK_shrink w w' :
  (∀ d, d ∈ inbox w' → d ∈ inbox w) →
  (∀ eventId field record,
     dmHash eventId w' !! field = Some record → dmHash eventId w !! field = Some record) →
  (next_message w ≤ next_message w')%N →
  messagesOK w → messagesOK w'.
Proof.
  intros Hinbox Hhash Hnext [Hids Hrecords]. split.
  - intros d Hd. destruct (Hids d (Hinbox d Hd)) as (n & Hn & Hid).
    exists n. split; [lia|done].
  - intros eventId field record Hlookup.
    destruct (Hrecords eventId field record (Hhash _ _ _ Hlookup)) as [(n & Hn & Hid) Hkind].
    split; [exists n; split; [lia|done]|].
    intros d Hd. apply Hkind. by apply Hinbox.
Qed.

Lemma messagesOK_same w w' :
  inbox w' = inbox w → dm_messages w' = dm_messages w → next_message w' = next_message w →
  messagesOK w → messagesOK w'.
Proof.
  intros Hinbox Hdm Hnext. apply messagesOK_shrink.
  - by rewrite Hinbox.
  - unfold dmHash. by rewrite Hdm.
  - by rewrite Hnext.
Qed.

(** A send that is not tracked. *)
Lemma messagesOK_sendDM userId kind w :
  messagesOK w → messagesOK (sendDM userId kind w).2.
Proof.
  intros [Hids Hrecords]. unfold sendDM. case_decide; [done|]. split.
  - intros d. simpl. intros [Hd|Hnew%list_elem_of_singleton]%elem_of_app.
    + destruct (Hids d Hd) as (n & Hn & Hid). exists n. split; [lia|done].
    + subst d. exists (next_message w). split; [lia|done].
  - intros eventId field record Hlookup.
    destruct (Hrecords eventId field record Hlookup) as [(n & Hn & Hid) Hkind].
    split; [exists n; split; [simpl; lia|done]|].
    intros d. simpl. intros [Hd|Hnew%list_elem_of_singleton]%elem_of_app Hsame.
    + by apply Hkind.
    + subst d. simpl in Hsame. rewrite Hid in Hsame. apply (inj pretty) in Hsame. lia.
Qed.

(** A tracked send of a message that is not a reminder. *)
Lemma messagesOK_sendTrackedDM eventId userId kind messageType now w :
  ¬ isReminder kind →
  messagesOK w → messagesOK (sendTrackedDM eventId userId kind messageType now w).
Proof.
  intros Hkind [Hids Hrecords].
  destruct (decide (userId ∈ dm_closed w)) as [Hclosed|Hopen].
  { by rewrite sendTrackedDM_closed. }
  destruct (sendTrackedDM_open eventId userId kind messageType now w Hopen)
    as (Hhash & Hothers & Hinbox & Hnext).
  split.
  - intros d. rewrite Hinbox, Hnext.
    intros [Hd|Hnew%list_elem_of_singleton]%elem_of_app.
    + destruct (Hids d Hd) as (n & Hn & Hid). exists n. split; [lia|done].
    + subst d. exists (next_message w). split; [lia|done].
  - intros key field record Hlookup. rewrite Hinbox, Hnext.
    assert (record = mkDMData userId (pretty (next_message w)) messageType now
            ∨ dmHash key w !! field = Some record) as [->|Hold].
    { destruct (decide (key = eventId)) as [->|Hkey].
      - rewrite Hhash in Hlookup.
        apply lookup_insert_Some in Hlookup as [[_ <-]|[_ Hlookup]]; [by left|by right].
      - right. by rewrite <- Hothers. }
    + split; [exists (next_message w); split; [lia|done]|].
      intros d [Hd|Hnew%list_elem_of_singleton]%elem_of_app Hsame; [|by subst d].
      destruct (Hids d Hd) as (n & Hn & Hid). simpl in Hsame.
      rewrite Hid in Hsame. apply (inj pretty) in Hsame. lia.
    + destruct (Hrecords key field record Hold) as [(n & Hn & Hid) Hnot].
      split; [exists n; split; [lia|done]|].
      intros d [Hd|Hnew%list_elem_of_singleton]%elem_of_app Hsame; [by apply Hnot|].
      subst d. simpl in Hsame. rewrite Hid in Hsame. apply (inj pretty) in Hsame. lia.
Qed.

Lemma messagesOK_foldl eventId kind messageType now l w :
  ¬ isReminder kind →
  messagesOK w →
  messagesOK (foldl (λ w p, sendTrackedDM eventId (p_id p) kind messageType now w) w l).
Proof.
  intros Hkind. revert w. induction l as [|p l IH]; intros w Hok; [done|].
  cbn [foldl]. by apply IH, messagesOK_sendTrackedDM.
Qed.

Lemma messagesOK_set_announcements f w :
  messagesOK w → messagesOK (set_announcements f w).
Proof. done. Qed.

Ltac messages_frame Hok :=
  repeat first
    [ apply messagesOK_sendTrackedDM; [exact id|]
    | apply messagesOK_foldl; [exact id|]
    | apply messagesOK_set_announcements ];
  first [ exact Hok | exact (messagesOK_same _ _ eq_refl eq_refl eq_refl Hok) ].

Lemma messagesOK_button now interaction w :
  messagesOK w → messagesOK (handleButtonInteraction now interaction w).2.
Proof.
  intros Hok. unfold_branches.
  destruct (getEventFromRedis _ w) as [event|]; [|done].
  destruct (i_action interaction) as [| | |r|r c|r|r c| | |];
    split_branches; cbn [fst snd]; try done;
    unfold notifyCancellation, deleteInteractionMessage;
    try (destruct (i_message interaction) as [[? []]|]);
    messages_frame Hok.
Qed.

Lemma messagesOK_modal now modal w :
  messagesOK w → messagesOK (handleModalSubmission now modal w).2.
Proof.
  intros Hok. unfold handleModalSubmission.
  destruct (getEventFromRedis _ w) as [event|]; [|done].
  destruct (isEventOrganizerOrAdmin _ _ _); [|done].
  destruct (validateDateTime _ _ _ _) as [newEventDate|]; [|done].
  cbv zeta; cbn [snd]. unfold notifyTimeChange. messages_frame Hok.
Qed.

Lemma messagesOK_command now cmd w :
  messagesOK w → messagesOK (handleCreateEvent now cmd w).2.
Proof.
  intros Hok. unfold handleCreateEvent.
  destruct (checkAuthorization _ _); [|done].
  destruct (validateDateTime _ _ _ _) as [eventDate|]; [|done].
  cbv zeta. destruct (decide (maxFieldValue < _)); [done|].
  destruct (channel_cached w); [|done].
  cbv zeta; cbn [snd channelSend]. unfold scheduleEventCleanup.
  case_decide; (eapply messagesOK_shrink; [| |
    |exact Hok]); simpl; try done; lia.
Qed.

Lemma next_message_foldr_pruneOne tracked w :
  next_message (foldr pruneOne w tracked) = next_message w.
Proof.
  induction tracked as [|r tracked IH]; [done|].
  cbn [foldr]. unfold pruneOne at 1. by case_decide.
Qed.

Lemma messagesOK_worker now job w :
  messagesOK w → messagesOK (reminderWorker now job w).2.
Proof.
  intros Hok. unfold reminderWorker. destruct (String.prefix _ _).
  - unfold cleanupJob. destruct (getEventFromRedis _ w) as [event|]; [|done].
    cbv zeta; cbn [snd]. unfold pruneDMsForCompletedEvent, deleteAnnouncement.
    case_decide.
    + destruct (channel_cached _), (ev_messageId event);
        exact (messagesOK_same _ _ eq_refl eq_refl eq_refl Hok).
    + destruct (foldr_pruneOne (getDMMessagesForEvent (jd_eventId (job_data job)) w) w)
        as (Hinbox & _ & Hdm & _).
      pose proof (next_message_foldr_pruneOne
                    (getDMMessagesForEvent (jd_eventId (job_data job)) w) w) as Hnext.
      eapply messagesOK_shrink; [| | |exact Hok].
      * intros d. destruct (channel_cached _), (ev_messageId event); simpl;
          rewrite Hinbox; by intros [_ ?]%list_elem_of_filter.
      * intros eventId field record. unfold dmHash.
        destruct (channel_cached _), (ev_messageId event); simpl; rewrite Hdm;
          (destruct (decide (eventId = jd_eventId (job_data job))) as [->|Hne];
           [by rewrite lookup_delete_eq|by rewrite lookup_delete_ne]).
      * destruct (channel_cached _), (ev_messageId event); simpl; rewrite Hnext; lia.
  - unfold reminderJob. destruct (getEventFromRedis _ w) as [event|]; [|done].
    destruct (jd_participantId _) as [participantId|]; [|done].
    case_decide; [|done].
    pose proof (messagesOK_sendDM participantId
                  (EventReminder (jd_reminderType (job_data job))
                                 (jd_eventDate (job_data job))) w Hok) as Hsent.
    by destruct (sendDM _ _ w) as [[messageId|] w'].
Qed.

Lemma messagesOK_run steps w : messagesOK w → messagesOK (run steps w).
Proof.
  revert w. induction steps as [|s steps IH]; intros w Hok; [done|].
  apply IH. destruct s as [now cmd | now interaction | now modal | now index]; simpl.
  - by apply messagesOK_command.
  - by apply messagesOK_button.
  - by apply messagesOK_modal.
  - destruct (reminderQueue w !! index) as [job|]; [|done].
    case_decide; [|done]. apply messagesOK_worker.
    exact (messagesOK_same _ _ eq_refl eq_refl eq_refl Hok).
Qed.

Lemma messagesOK_freshWorld closed cached : messagesOK (freshWorld closed cached).
Proof. split; [by intros d ?%elem_of_nil|]. intros eventId field record. done. Qed.

(** X22. In every state the bot reaches, a tracking record has one of the
    types registration, withdrawal, cancellation, role_change and
    time_change, and is stored under a field made of its user id, its
    type and a time; no record of type reminder is ever written, and no
    tracking record holds the id of a reminder message that is in an
    inbox.  So whatever job fires next, at whatever time, every reminder
    message in an inbox is still there afterwards: the cleanup never
    deletes a reminder. *)
Theorem tracking_records_are_never_reminders closed cached steps :
  let reached := run steps (freshWorld closed cached) in
  (∀ eventId field record,
     dmHash eventId reached !! field = Some record →
     dm_messageType record ∈ trackedTypes
     ∧ dm_messageType record ≠ "reminder"
     ∧ (∃ time, field = dmField (dm_userId record) (dm_messageType record) time)
     ∧ (dm_messageType record ∈ typesToPrune ↔ dm_messageType record ≠ "role_change")
     ∧ (∀ d, d ∈ inbox reached → sent_id d = dm_messageId record →
             ¬ isReminder (sent_kind d)))
  ∧ (∀ now job d,
       d ∈ inbox reached → isReminder (sent_kind d) →
       d ∈ inbox (reminderWorker now job reached).2).
Proof.
  intros reached.
  assert (trackingOK reached) as Hok.
  { apply trackingOK_run. apply map_Forall_empty. }
  assert (messagesOK reached) as [Hids Hrecords].
  { apply messagesOK_run, messagesOK_freshWorld. }
  split.
  - intros eventId field record Hlookup.
    assert (dm_messageType record ∈ trackedTypes
            ∧ ∃ time, field = dmField (dm_userId record) (dm_messageType record) time)
      as [Htype Hfield].
    { unfold dmHash in Hlookup.
      destruct (dm_messages reached !! eventId) as [hash|] eqn:Hhash; [|done].
      exact (Hok _ _ Hhash _ _ Hlookup). }
    split; [done|]. split; [|split; [done|split]].
    + revert Htype. unfold trackedTypes. rewrite !elem_of_cons, elem_of_nil.
      by intros [->|[->|[->|[->|[->|[]]]]]].
    + revert Htype. unfold trackedTypes, typesToPrune.
      rewrite !elem_of_cons, !elem_of_nil.
      intros [->|[->|[->|[->|[->|[]]]]]]; split;
        first [ by intros [?|[?|[?|[?|[?|[]]]]]]
              | by intros Hne; destruct Hne
              | by intros _; auto 7 ].
    + by apply (Hrecords eventId field record).
  - intros now job d Hd Hkind. unfold reminderWorker. destruct (String.prefix _ _).
    + unfold cleanupJob. destruct (getEventFromRedis _ reached) as [event|]; [|done].
      cbv zeta; cbn [snd]. unfold pruneDMsForCompletedEvent, deleteAnnouncement.
      case_decide.
      { by destruct (channel_cached _), (ev_messageId event). }
      destruct (foldr_pruneOne
                  (getDMMessagesForEvent (jd_eventId (job_data job)) reached) reached)
        as (Hinbox & _).
      assert (d ∈ inbox (foldr pruneOne reached
                           (getDMMessagesForEvent (jd_eventId (job_data job)) reached)))
        as Hkept.
      { rewrite Hinbox. apply list_elem_of_filter. split; [|done].
        unfold prunedBy. rewrite Exists_exists.
        intros (record & Hrecord & _ & _ & Hid).
        unfold getDMMessagesForEvent in Hrecord.
        apply list_elem_of_fmap in Hrecord as ([field record'] & -> & Hpair).
        apply elem_of_map_to_list in Hpair. simpl in Hid.
        destruct (Hrecords _ _ _ Hpair) as [_ Hnever].
        by apply (Hnever d Hd). }
      by destruct (channel_cached _), (ev_messageId event).
    + unfold reminderJob. destruct (getEventFromRedis _ reached) as [event|]; [|done].
      destruct (jd_participantId _) as [participantId|]; [|done].
      case_decide; [|done]. unfold sendDM. case_decide; [done|].
      simpl. apply elem_of_app. by left.
Qed.

(** ** What the pending jobs can be *)

Lemma queueOK_same w w' :
  reminderQueue w' = reminderQueue w → queueOK w → queueOK w'.
Proof. unfold queueOK. by intros ->. Qed.

Lemma queueOK_sendTrackedDM eventId userId kind messageType now w :
  queueOK w → queueOK (sendTrackedDM eventId userId kind messageType now w).
Proof. apply queueOK_same, reminderQueue_sendTrackedDM. Qed.

Lemma queueOK_foldl eventId kind messageType now l w :
  queueOK w →
  queueOK (foldl (λ w p, sendTrackedDM eventId (p_id p) kind messageType now w) w l).
Proof. apply queueOK_same, reminderQueue_foldl_sendTrackedDM. Qed.

Lemma jobOK_reminderJobs eventId eventDate participants now :
  Forall jobOK (reminderJobs eventId eventDate participants now).
Proof.
  apply Forall_forall. intros job (p & r & _ & Hr & Hahead & ->)%elem_of_reminderJobs.
  split; [simpl; lia|]. right. split; [reflexivity|].
  eexists _, _, _. split; [reflexivity|]. unfold fireTime. simpl.
  revert Hr Hahead. unfold reminderTimes. rewrite !elem_of_cons, elem_of_nil.
  intros [->|[->|[->|[]]]]; simpl; lia.
Qed.

Lemma queueOK_scheduleReminders eventId eventDate participants now w :
  queueOK w → queueOK (scheduleReminders eventId eventDate participants now w).
Proof.
  intros Hok. unfold queueOK. simpl. apply Forall_app. split; [done|].
  apply jobOK_reminderJobs.
Qed.

Lemma queueOK_removeJobs (selected : Job → Prop) `{∀ j, Decision (selected j)} w :
  queueOK w → queueOK (removeJobs selected w).
Proof.
  unfold queueOK. simpl. rewrite !Forall_forall.
  intros Hok job [_ Hin]%list_elem_of_filter. by apply Hok.
Qed.

Lemma queueOK_set_announcements f w : queueOK w → queueOK (set_announcements f w).
Proof. done. Qed.

Ltac queue_frame Hok :=
  repeat first
    [ apply queueOK_sendTrackedDM
    | apply queueOK_set_announcements
    | apply queueOK_foldl
    | apply queueOK_scheduleReminders
    | apply queueOK_removeJobs ];
  first [ exact Hok | exact (queueOK_same _ _ eq_refl Hok) ].

Lemma queueOK_button now interaction w :
  queueOK w → queueOK (handleButtonInteraction now interaction w).2.
Proof.
  intros Hok. unfold_branches.
  destruct (getEventFromRedis _ w) as [event|]; [|done].
  destruct (i_action interaction) as [| | |r|r c|r|r c| | |];
    split_branches; cbn [fst snd]; try done;
    unfold notifyCancellation, pushParticipant, cancelParticipantReminders,
      cancelEventReminders, deleteInteractionMessage;
    try (destruct (i_message interaction) as [[? []]|]);
    queue_frame Hok.
Qed.

Lemma queueOK_modal now modal w :
  queueOK w → queueOK (handleModalSubmission now modal w).2.
Proof.
  intros Hok. unfold handleModalSubmission.
  destruct (getEventFromRedis _ w) as [event|]; [|done].
  destruct (isEventOrganizerOrAdmin _ _ _); [|done].
  destruct (validateDateTime _ _ _ _) as [newEventDate|]; [|done].
  cbv zeta; cbn [snd]. unfold notifyTimeChange, cancelEventReminders. queue_frame Hok.
Qed.

Lemma queueOK_command now cmd w :
  queueOK w → queueOK (handleCreateEvent now cmd w).2.
Proof.
  intros Hok. unfold handleCreateEvent.
  destruct (checkAuthorization _ _); [|done].
  destruct (validateDateTime _ _ _ _) as [eventDate|]; [|done].
  cbv zeta. destruct (decide (maxFieldValue < _)); [done|].
  destruct (channel_cached w); [|done].
  cbv zeta; cbn [snd channelSend]. unfold scheduleEventCleanup.
  case_decide; [|exact Hok].
  unfold queueOK. simpl. apply Forall_app. split; [exact Hok|].
  apply Forall_singleton. split; [simpl; lia|]. left. by split.
Qed.

Lemma queueOK_worker now job w :
  queueOK w → queueOK (reminderWorker now job w).2.
Proof.
  intros Hok. unfold reminderWorker. destruct (String.prefix _ _).
  - unfold cleanupJob. destruct (getEventFromRedis _ w) as [event|]; [|done].
    cbv zeta; cbn [snd]. unfold pruneDMsForCompletedEvent, deleteAnnouncement.
    case_decide.
    + destruct (channel_cached _), (ev_messageId event); exact Hok.
    + destruct (foldr_pruneOne (getDMMessagesForEvent (jd_eventId (job_data job)) w) w)
        as (_ & _ & _ & Hqueue & _).
      unfold queueOK.
      destruct (channel_cached _), (ev_messageId event); simpl; by rewrite Hqueue.
  - unfold reminderJob. destruct (getEventFromRedis _ w) as [event|]; [|done].
    destruct (jd_participantId _) as [participantId|]; [|done].
    case_decide; [|done]. unfold sendDM. by case_decide.
Qed.

Lemma queueOK_run steps w : queueOK w → queueOK (run steps w).
Proof.
  revert w. induction steps as [|s steps IH]; intros w Hok; [done|].
  apply IH. destruct s as [now cmd | now interaction | now modal | now index]; simpl.
  - by apply queueOK_command.
  - by apply queueOK_button.
  - by apply queueOK_modal.
  - destruct (reminderQueue w !! index) as [job|]; [|done].
    case_decide; [|done]. apply queueOK_worker.
    unfold queueOK. simpl. by apply Forall_delete.
Qed.

(** X23. In every state the bot reaches, each pending job has a positive
    delay and a name that agrees with its payload.  A job whose name
    starts with cleanup_, which the worker treats as a cleanup, carries
    the event id only; every other job carries a participant, a label and
    the event date, and fires at least an hour before that date. *)
Theorem pending_jobs_match_their_names closed cached steps job :
  job ∈ reminderQueue (run steps (freshWorld closed cached)) →
  (0 < job_delay job)%Z
  ∧ (String.prefix "cleanup_" (job_name job) = true
     ∧ job_data job = mkJobData (jd_eventId (job_data job)) None None None
     ∨ String.prefix "cleanup_" (job_name job) = false
       ∧ ∃ participantId label eventDate,
           job_data job
           = mkJobData (jd_eventId (job_data job)) (Some participantId) (Some label)
                       (Some eventDate)
           ∧ (fireTime job ≤ eventDate - 60 * 60 * 1000)%Z).
Proof.
  intros Hin.
  assert (queueOK (run steps (freshWorld closed cached))) as Hok.
  { apply queueOK_run. apply Forall_nil_2. }
  unfold queueOK in Hok. rewrite Forall_forall in Hok. by apply Hok.
Qed.

End Bot.

(** * Worked examples *)

(** Closes a decidable goal by evaluation. *)
Ltac by_evaluation :=
  match goal with
  | |- ?P => apply (@bool_decide_unpack P _); vm_compute; exact I
  end.

(** C1. The capacity check of the join handlers compares the roster with
    8 for every group type, while the announcement shows, and disables the
    Participate button at, 4 for a light party.  A light party is created
    and four users join; the class button of a fifth user is then accepted
    and the roster holds five participants. *)
Theorem light_party_accepts_fifth_participant :
  let w := run None ["org"] demoParse lightPartySetup (freshWorld ∅ true) in
  let fifth :=
    handleButtonInteraction None (demoNow + 5000)
      (press "u5" lightPartyId (act_class "dps" "Viper")) w in
  (ev_groupType <$> getEventFromRedis lightPartyId w) = Some "light_party"
  ∧ (length ∘ ev_participants <$> getEventFromRedis lightPartyId w) = Some 4
  ∧ maxParticipants "light_party" = 4
  ∧ fifth.1 = Joined "dps" (Some "Viper")
  ∧ (length ∘ ev_participants <$> getEventFromRedis lightPartyId fifth.2) = Some 5.
Proof. vm_compute. repeat split. Qed.

(** C2 as stated fails: the cleanup job of the light party fires a week
    before its date; the tracking records stay, but the announcement is
    gone and the event record no longer exists. *)
Lemma cleanup_of_future_event_not_noop :
  let result := reminderWorker demoNow cleanupE2 demoWorld in
  (ev_date lightParty > demoNow)%Z
  ∧ getEventFromRedis "e2" demoWorld = Some lightParty
  ∧ ¬ (dm_messages result.2 = dm_messages demoWorld
       ∧ "101" ∈ announcements result.2
       ∧ is_Some (getEventFromRedis "e2" result.2)).
Proof.
  split; [reflexivity|]. split; [reflexivity|].
  intros (_ & _ & [event Hevent]). vm_compute in Hevent. discriminate.
Qed.

Lemma cleanup_of_future_event_witness :
  String.prefix "cleanup_" (job_name cleanupE2) = true
  ∧ getEventFromRedis (jd_eventId (job_data cleanupE2)) demoWorld = Some lightParty
  ∧ (ev_date lightParty > demoNow)%Z
  ∧ dm_messages (reminderWorker demoNow cleanupE2 demoWorld).2 = dm_messages demoWorld
  ∧ getEventFromRedis "e2" (reminderWorker demoNow cleanupE2 demoWorld).2 = None.
Proof.
  assert (String.prefix "cleanup_" (job_name cleanupE2) = true) as H1 by reflexivity.
  assert (getEventFromRedis (jd_eventId (job_data cleanupE2)) demoWorld = Some lightParty)
    as H2 by reflexivity.
  assert (ev_date lightParty > demoNow)%Z as H3 by reflexivity.
  destruct (cleanup_of_future_event demoNow cleanupE2 demoWorld lightParty H1 H2 H3)
    as (_ & Hdm & _ & Hgone & _).
  repeat split; assumption.
Defined.

(** C3 as stated fails: after the organizer deletes the light party, the
    event is gone but its DM-tracking hash is not empty. *)
Lemma delete_keeps_tracking_records :
  let result := handleButtonInteraction None demoNow (press "org" "e2" act_delete) demoWorld in
  getEventFromRedis "e2" demoWorld = Some lightParty
  ∧ result.1 = EventDeleted
  ∧ ¬ (getEventFromRedis "e2" result.2 = None ∧ dmHash "e2" result.2 = ∅).
Proof.
  split; [reflexivity|]. split; [reflexivity|].
  intros [_ Hempty].
  apply (f_equal (λ m : gmap string DMData, m !! "u1_registration_1892751000000")) in Hempty.
  vm_compute in Hempty. discriminate.
Qed.

Lemma delete_removes_event_keeps_tracking_witness :
  getEventFromRedis "e2" demoWorld = Some lightParty
  ∧ isEventOrganizerOrAdmin None "org" lightParty None = true
  ∧ getEventFromRedis "e2"
      (handleButtonInteraction None demoNow (press "org" "e2" act_delete) demoWorld).2 = None
  ∧ dom (dmHash "e2" demoWorld)
    ⊆ dom (dmHash "e2"
             (handleButtonInteraction None demoNow (press "org" "e2" act_delete) demoWorld).2).
Proof.
  assert (getEventFromRedis (i_eventId (press "org" "e2" act_delete)) demoWorld
          = Some lightParty) as H1 by reflexivity.
  assert (i_action (press "org" "e2" act_delete) = act_delete) as H2 by reflexivity.
  assert (isEventOrganizerOrAdmin None (i_user (press "org" "e2" act_delete)) lightParty
            (i_member (press "org" "e2" act_delete)) = true) as H3 by reflexivity.
  destruct (delete_removes_event_keeps_tracking None demoNow
              (press "org" "e2" act_delete) demoWorld lightParty H1 H2 H3)
    as (_ & Hgone & Hkept & _).
  repeat split; assumption.
Defined.



Lemma second_join_rejected_witness :
  getEventFromRedis "e1" demoWorld = Some raid
  ∧ isListed "u1" (ev_participants raid)
  ∧ (handleButtonInteraction None demoNow (press "u1" "e1" (act_class "dps" "Monk"))
       demoWorld).2 = demoWorld
  ∧ (handleButtonInteraction None demoNow (press "u1" "e1" (act_class "dps" "Monk"))
       demoWorld).1 = AlreadyParticipating.
Proof.
  pose (interaction := press "u1" "e1" (act_class "dps" "Monk")).
  assert (getEventFromRedis (i_eventId interaction) demoWorld = Some raid) as H1
    by reflexivity.
  assert (isListed (i_user interaction) (ev_participants raid)) as H2 by by_evaluation.
  assert (isJoinAttempt (i_action interaction)) as H3 by exact I.
  destruct (second_join_rejected None demoNow interaction demoWorld raid H1 H2 H3)
    as (Hsame & _ & _ & Hreply).
  split; [exact H1|]. split; [exact H2|]. split; [exact Hsame|].
  apply Hreply. split; [by_evaluation|reflexivity].
Defined.

Lemma withdraw_then_join_appends_witness :
  getEventFromRedis "e1" demoWorld = Some raid
  ∧ isListed "u1" (ev_participants raid)
  ∧ (ev_participants
       <$> getEventFromRedis "e1"
             (handleButtonInteraction None (demoNow + 1000)
                (mkInteraction "u1" None "e1" (act_class "healer" "Scholar") None (λ _, 0))
                (handleButtonInteraction None demoNow
                   (mkInteraction "u1" None "e1" act_withdraw None (λ _, 0))
                   demoWorld).2).2)
    = Some [mkParticipant "u2" "tank" (Some "Warrior");
            mkParticipant "u3" "healer" (Some "Sage");
            mkParticipant "u4" "dps" (Some "Monk");
            mkParticipant "u1" "healer" (Some "Scholar")].
Proof.
  assert (getEventFromRedis "e1" demoWorld = Some raid) as H1 by reflexivity.
  assert (ev_id raid = "e1") as H2 by reflexivity.
  assert (isListed "u1" (ev_participants raid)) as H3 by by_evaluation.
  assert (act_class "healer" "Scholar" = act_role "blue_mage"
          ∧ mkParticipant "u1" "healer" (Some "Scholar")
            = mkParticipant "u1" "blue_mage" (Some "Blue Mage")
          ∨ ∃ role className,
              act_class "healer" "Scholar" = act_class role className
              ∧ role ∈ classRoles ∧ invalidClass role className = false
              ∧ mkParticipant "u1" "healer" (Some "Scholar")
                = mkParticipant "u1" role (Some className)) as H4.
  { right. exists "healer", "Scholar". split; [reflexivity|].
    split; [by_evaluation|]. split; reflexivity. }
  destruct (withdraw_then_join_appends None demoNow (demoNow + 1000) "e1" "u1" None None
              None None (λ _, 0) (λ _, 0) demoWorld raid (act_class "healer" "Scholar")
              (mkParticipant "u1" "healer" (Some "Scholar")) H1 H2 H3 H4)
    as (_ & _ & Hroster & _); [by_evaluation|reflexivity|].
  split; [exact H1|]. split; [exact H3|]. exact Hroster.
Defined.

Lemma reminders_enqueued_iff_future_witness :
  "u2" ∈ ["u1"; "u2"]
  ∧ (3600000%Z, "1 hour") ∈ reminderTimes
  ∧ (demoNow < raidDate - 3600000)%Z
  ∧ ∃ job, job ∈ reminderJobs "e1" raidDate ["u1"; "u2"] demoNow
           ∧ jd_participantId (job_data job) = Some "u2"
           ∧ jd_reminderType (job_data job) = Some "1 hour"
           ∧ fireTime job = (raidDate - 3600000)%Z.
Proof.
  assert ("u2" ∈ ["u1"; "u2"]) as H1 by by_evaluation.
  assert (H2 : (3600000%Z, "1 hour") ∈ reminderTimes) by by_evaluation.
  assert (demoNow < raidDate - 3600000)%Z as H3 by reflexivity.
  destruct (reminders_enqueued_iff_future "e1" raidDate ["u1"; "u2"] demoNow demoWorld
              "u2" 3600000 "1 hour" H1 H2) as (_ & _ & Hiff & Hfire).
  destruct (proj2 Hiff H3) as (job & Hin & Hfor).
  split; [exact H1|]. split; [exact H2|]. split; [exact H3|].
  exists job. destruct (Hfire job Hin Hfor) as (Htime & _). destruct Hfor as [Hp Hl].
  repeat split; assumption.
Defined.

Lemma reminder_fire_checks_store_witness :
  String.prefix "cleanup_" (job_name reminderU1) = false
  ∧ isListed "u1" (ev_participants raid)
  ∧ ("u1" ∉ dm_closed demoWorld)
  ∧ inbox (reminderWorker (fireTime reminderU1) reminderU1 demoWorld).2
    = inbox demoWorld ++ [mkDM "u1" "200" (EventReminder (Some "1 hour") (Some raidDate))]
  ∧ reminderWorker (fireTime reminderU7) reminderU7 demoWorld
    = (SkippedNotParticipating, demoWorld).
Proof.
  assert (String.prefix "cleanup_" (job_name reminderU1) = false) as H1 by reflexivity.
  assert (String.prefix "cleanup_" (job_name reminderU7) = false) as H1' by reflexivity.
  assert (getEventFromRedis (jd_eventId (job_data reminderU1)) demoWorld = Some raid)
    as H2 by reflexivity.
  assert (isListed "u1" (ev_participants raid)) as H3 by by_evaluation.
  assert ("u1" ∉ dm_closed demoWorld) as H4 by by_evaluation.
  destruct (reminder_fire_checks_store (fireTime reminderU1) reminderU1 demoWorld H1)
    as (_ & _ & Hsend).
  destruct (Hsend raid "u1" H2 eq_refl H3) as (Hsent & _).
  destruct (Hsent H4) as (_ & Hinbox & _).
  destruct (reminder_fire_checks_store (fireTime reminderU7) reminderU7 demoWorld H1')
    as (_ & Hskip & _).
  split; [exact H1|]. split; [exact H3|]. split; [exact H4|]. split; [exact Hinbox|].
  apply (Hskip raid); [reflexivity|].
  intros participantId [= <-]. by_evaluation.
Defined.

Lemma changeTime_leaves_no_cleanup_witness :
  (handleModalSubmission None demoParse demoNow changeTimeE1 demoWorld).1
    = TimeChangedReply raidDate demoDate
  ∧ cleanupE1 ∈ reminderQueue demoWorld
  ∧ ∀ job,
      job ∈ reminderQueue
              (handleModalSubmission None demoParse demoNow changeTimeE1 demoWorld).2 →
      jd_eventId (job_data job) = "e1" →
      String.prefix "cleanup_" (job_name job) = false.
Proof.
  assert (handleModalSubmission None demoParse demoNow changeTimeE1 demoWorld
          = (TimeChangedReply raidDate demoDate,
             (handleModalSubmission None demoParse demoNow changeTimeE1 demoWorld).2))
    as H1 by (vm_compute; reflexivity).
  destruct (changeTime_leaves_no_cleanup None demoParse demoNow changeTimeE1 demoWorld
              raidDate demoDate _ H1) as (_ & Hnone).
  split; [vm_compute; reflexivity|]. split; [simpl; constructor|].
  intros job Hin Hid. exact (proj1 (Hnone job Hin Hid)).
Defined.

(** ** The date conversion *)

Lemma isDigit_value c : isDigit c = true → (0 ≤ digitValue c ≤ 9)%Z.
Proof.
  unfold isDigit, digitValue. intros Hdigit%bool_decide_eq_true. lia.
Qed.

Lemma isDigit_not_sep c : isDigit c = true → c ≠ "-"%char ∧ c ≠ ":"%char.
Proof. intros Hdigit. split; intros ->; by vm_compute in Hdigit. Qed.

Ltac split_digits :=
  cbn [splitOn];
  repeat match goal with
    | |- context [decide (?c = ?sep)] =>
        first [ rewrite (decide_True (P := c = sep)) by reflexivity
              | rewrite (decide_False (P := c = sep)) by (by apply isDigit_not_sep) ]
    end;
  cbn [fmap list_fmap].

Lemma dateRegex_numbers dateString :
  dateRegex dateString = true →
  ∃ year month day,
    toNumber <$> splitOn "-" dateString = [year; month; day]
    ∧ (0 ≤ year ≤ 9999)%Z ∧ (0 ≤ month ≤ 99)%Z ∧ (0 ≤ day ≤ 99)%Z.
Proof.
  unfold dateRegex.
  destruct dateString as [|y1 [|y2 [|y3 [|y4 [|s1 [|m1 [|m2 [|s2 [|d1 [|d2 [|]]]]]]]]]]];
    try done.
  cbn [forallb]. rewrite !andb_true_r. intros Hmatch.
  repeat match goal with
    | H : _ && _ = true |- _ => apply andb_prop in H as [? ?]
    | H : bool_decide (_ = _) = true |- _ => apply bool_decide_eq_true in H as ->
    end.
  split_digits. eexists _, _, _. split; [reflexivity|].
  unfold toNumber. cbn [toNumberFrom].
  repeat match goal with
    | H : isDigit _ = true |- _ => apply isDigit_value in H
    end.
  lia.
Qed.

Lemma timeRegex_numbers timeString :
  timeRegex timeString = true →
  ∃ hour minute,
    toNumber <$> splitOn ":" timeString = [hour; minute]
    ∧ (0 ≤ hour ≤ 99)%Z ∧ (0 ≤ minute ≤ 99)%Z.
Proof.
  unfold timeRegex.
  destruct timeString as [|h1 [|h2 [|s1 [|m1 [|m2 [|]]]]]]; try done.
  cbn [forallb]. rewrite !andb_true_r. intros Hmatch.
  repeat match goal with
    | H : _ && _ = true |- _ => apply andb_prop in H as [? ?]
    | H : bool_decide (_ = _) = true |- _ => apply bool_decide_eq_true in H as ->
    end.
  split_digits. eexists _, _. split; [reflexivity|].
  unfold toNumber. cbn [toNumberFrom].
  repeat match goal with
    | H : isDigit _ = true |- _ => apply isDigit_value in H
    end.
  lia.
Qed.

Lemma dayWithinYear_bounds leap month : (0 ≤ dayWithinYear leap month ≤ 335)%Z.
Proof.
  unfold dayWithinYear, monthStart.
  destruct (Z.to_nat month) as [|[|[|[|[|[|[|[|[|[|[|[|?]]]]]]]]]]]]; simpl;
    destruct (leap && _); lia.
Qed.

Lemma dateUTC_finite year month day hours minutes :
  (0 ≤ year ≤ 9999)%Z → (0 ≤ month ≤ 99)%Z → (0 ≤ day ≤ 99)%Z →
  (-2 ≤ hours ≤ 99)%Z → (0 ≤ minutes ≤ 99)%Z →
  ∃ days,
    dateUTC year (month - 1) day hours minutes
    = Some (days * 86400000 + makeTime hours minutes)%Z
    ∧ ∀ hours', (-2 ≤ hours' ≤ 99)%Z →
        dateUTC year (month - 1) day hours' minutes
        = Some (days * 86400000 + makeTime hours' minutes)%Z.
Proof.
  intros Hyear Hmonth Hday Hhours Hminutes. unfold dateUTC. cbv zeta.
  set (yr := if decide (0 ≤ year ≤ 99)%Z then (1900 + year)%Z else year).
  assert (100 ≤ yr ≤ 9999)%Z as Hyr by (subst yr; case_decide; lia).
  clearbody yr.
  assert (-700500 ≤ makeDay yr (month - 1) day ≤ 3000500)%Z as Hdays.
  { unfold makeDay. cbv zeta.
    pose proof (dayWithinYear_bounds (inLeapYear (yr + (month - 1) / 12))
                  ((month - 1) mod 12)) as Hwithin.
    set (within := dayWithinYear _ _) in *. clearbody within.
    unfold dayFromYear. Z.div_mod_to_equations. lia. }
  exists (makeDay yr (month - 1) day).
  unfold timeClip, makeTime. split.
  - rewrite decide_True by lia. done.
  - intros hours' Hhours'. rewrite decide_True by lia. done.
Qed.

(** X24. The timezones BST and CET are converted in the same way: for
    every date and time the two give the same timestamp, and so the same
    answer of [validateDateTime].  Where the date and time give a
    timestamp for UTC, BST (and so CET) gives that timestamp minus two
    hours when [isUKDST] holds of the local date built from the same
    numbers, that is inside the summer-time window of the host, and minus
    one hour when it does not. *)
Theorem bst_is_read_as_cet host dateString timeString :
  convertDateTime host dateString timeString "BST"
  = convertDateTime host dateString timeString "CET"
  ∧ (∀ now,
       validateDateTime (parseDateTimeOn host) dateString timeString "BST" now
       = validateDateTime (parseDateTimeOn host) dateString timeString "CET" now)
  ∧ (∀ utc,
       convertDateTime host dateString timeString "UTC" = inr utc →
       ∃ year month day hour minute,
         toNumber <$> splitOn "-" dateString = [year; month; day]
         ∧ toNumber <$> splitOn ":" timeString = [hour; minute]
         ∧ let bstDate := h_newDate host year (month - 1)%Z day hour minute in
           let ahead := if isUKDST host bstDate then 2%Z else 1%Z in
           (isUKDST host bstDate = true
            ↔ (lastSunday host (h_getFullYear host bstDate) 2 ≤ bstDate)%Z
              ∧ (bstDate < lastSunday host (h_getFullYear host bstDate) 9)%Z)
           ∧ convertDateTime host dateString timeString "BST"
             = inr (utc - ahead * 3600000)%Z).
Proof.
  assert (convertDateTime host dateString timeString "BST"
          = convertDateTime host dateString timeString "CET") as Hsame.
  { unfold convertDateTime.
    destruct (dateRegex dateString); [|done]. destruct (timeRegex timeString); [|done].
    cbn [negb].
    destruct (toNumber <$> splitOn "-" dateString) as [|year [|month [|day ?]]]; try done.
    destruct (toNumber <$> splitOn ":" timeString) as [|hour [|minute ?]]; try done.
    cbv zeta. rewrite (decide_False (P := "BST" = "UTC")) by done.
    rewrite (decide_True (P := "BST" = "BST")) by done.
    rewrite (decide_False (P := "CET" = "UTC")) by done.
    rewrite (decide_False (P := "CET" = "BST")) by done.
    rewrite (decide_True (P := "CET" = "CET")) by done.
    change (isEuropeDST host) with (isUKDST host).
    by destruct (isUKDST host _). }
  split; [done|]. split.
  - intros now. unfold validateDateTime, parseDateTimeOn. by rewrite Hsame.
  - unfold convertDateTime.
    destruct (dateRegex dateString) eqn:Hdate; [|done].
    destruct (timeRegex timeString) eqn:Htime; [|done].
    cbn [negb].
    destruct (dateRegex_numbers _ Hdate) as (year & month & day & Hd & Hyear & Hmonth & Hday).
    destruct (timeRegex_numbers _ Htime) as (hour & minute & Ht & Hhour & Hminute).
    rewrite Hd, Ht.
    cbv zeta. rewrite (decide_True (P := "UTC" = "UTC")) by done.
    rewrite (decide_False (P := "BST" = "UTC")) by done.
    rewrite (decide_True (P := "BST" = "BST")) by done.
    destruct (dateUTC_finite year month day hour minute) as (days & -> & Hother);
      [lia..|].
    intros utc [= <-]. exists year, month, day, hour, minute.
    split; [done|]. split; [done|]. split.
    { unfold isUKDST. cbv zeta.
      rewrite andb_true_iff, !bool_decide_eq_true. done. }
    destruct (isUKDST host _).
    + rewrite Hother by lia. f_equal. unfold makeTime. lia.
    + rewrite Hother by lia. f_equal. unfold makeTime. lia.
Qed.

(** X25. The conversion checks the shape of the two strings and the name
    of the timezone, and nothing else: every date of the form dddd-dd-dd
    and every time of the form dd:dd gives a timestamp for UTC, BST and
    CET, whatever the month, day, hour and minute are, and no other input
    does.  The answer "invalid date or time" is never given. *)
Theorem calendar_is_not_checked host dateString timeString timezone :
  convertDateTime host dateString timeString timezone ≠ inl InvalidDateOrTime
  ∧ ((∃ time, convertDateTime host dateString timeString timezone = inr time)
     ↔ dateRegex dateString = true ∧ timeRegex timeString = true
       ∧ timezone ∈ ["UTC"; "BST"; "CET"]).
Proof.
  unfold convertDateTime.
  destruct (dateRegex dateString) eqn:Hdate; cbn [negb];
    [|split; [done|split; [by intros [? ?]|by intros [? _]]]].
  destruct (timeRegex timeString) eqn:Htime; cbn [negb];
    [|split; [done|split; [by intros [? ?]|by intros (_ & ? & _)]]].
  destruct (dateRegex_numbers _ Hdate) as (year & month & day & -> & Hyear & Hmonth & Hday).
  destruct (timeRegex_numbers _ Htime) as (hour & minute & -> & Hhour & Hminute).
  cbv zeta.
  destruct (dateUTC_finite year month day hour minute) as (days & _ & Hall); [lia..|].
  rewrite !elem_of_cons, elem_of_nil.
  repeat case_decide; try destruct (isUKDST host _); try destruct (isEuropeDST host _);
    rewrite ?Hall by lia;
    (split; [done|]); split; try (intros _; split_and!; by auto);
    try (by intros [? ?]); try (intros _; by eexists).
  by intros (_ & _ & [?|[?|[?|[]]]]).
Qed.


(** ** Worked examples for the properties above *)

Lemma refusals_change_nothing_witness :
  (handleButtonInteraction None demoNow (press "u1" "e1" act_participate) demoWorld).1
  = AlreadyParticipating
  ∧ (handleButtonInteraction None demoNow (press "u1" "e1" act_participate) demoWorld).2
    = demoWorld.
Proof.
  pose (interaction := press "u1" "e1" act_participate).
  assert ((handleButtonInteraction None demoNow interaction demoWorld).1
          = AlreadyParticipating) as H1 by reflexivity.
  assert (¬ reportsChange (handleButtonInteraction None demoNow interaction demoWorld).1)
    as H2 by (rewrite H1; exact id).
  split; [exact H1|].
  exact (refusals_change_nothing None demoNow interaction demoWorld H2).
Defined.

Lemma class_buttons_parse_witness :
  ("tank" ∈ classRoles)
  ∧ invalidClass "tank" "Dark Knight" = false
  ∧ classButtonId "class" "tank" "Dark Knight" "event_1892851200000_p0w7c5r2d"
    = "class_tank_Dark_Knight_event_1892851200000_p0w7c5r2d"
  ∧ parseButtonInteraction "class_tank_Dark_Knight_event_1892851200000_p0w7c5r2d"
    = ParsedId (mkParsed "class" "event_1892851200000_p0w7c5r2d" (Some "tank")
                         (Some "Dark Knight")).
Proof.
  assert ("class" = "class" ∨ "class" = "rolechangeclass") as H1 by (left; reflexivity).
  assert ("tank" ∈ classRoles) as H2 by by_evaluation.
  assert (invalidClass "tank" "Dark Knight" = false) as H3 by reflexivity.
  destruct (class_buttons_parse None demoNow "class" "tank" "Dark Knight"
              "1892851200000_p0w7c5r2d" "u5" None None (λ _, 0) demoWorld H1 H2 H3)
    as (Hparse & _).
  split; [exact H2|]. split; [exact H3|]. split; [reflexivity|]. exact Hparse.
Defined.

Lemma class_id_without_event_rejected_witness :
  ("event" ∉ splitOn "_" "tank_Paladin")
  ∧ handleButtonPress None demoNow
      (mkButtonPress "class_tank_Paladin" "u5" None None (λ _, 0)) demoWorld
    = (InvalidButtonFormat, demoWorld).
Proof.
  assert ("class" = "class" ∨ "class" = "rolechangeclass") as H1 by (left; reflexivity).
  assert ("event" ∉ splitOn "_" "tank_Paladin") as H2 by by_evaluation.
  destruct (class_id_without_event_rejected None demoNow "class" "tank_Paladin" "u5"
              None None (λ _, 0) demoWorld H1 H2) as (_ & Hpress).
  split; [exact H2|]. exact Hpress.
Defined.

Lemma pvp_matches_are_least_witness :
  ∃ results,
    calculatePvPXP 1 2 0 = inr results
    ∧ expNeeded results = 2000%Z
    ∧ (frontlineWin_Exp * (frontline_wins results - 1) < 2000
       ≤ frontlineWin_Exp * frontline_wins results)%Z.
Proof.
  pose (results := mkPvPResult 2000 3 3 2 2 2 1 1 1 2 3).
  assert (calculatePvPXP 1 2 0 = inr results) as H1 by reflexivity.
  destruct (pvp_matches_are_least 1 2 0 results H1)
    as (_ & _ & _ & _ & Hfrontline & _).
  exists results. split; [exact H1|]. split; [reflexivity|]. exact Hfrontline.
Defined.

Lemma pvp_better_results_need_fewer_witness :
  ∃ results,
    calculatePvPXP 1 2 0 = inr results
    ∧ (1 ≤ rivalWings_wins results ≤ rivalWings_losses results)%Z.
Proof.
  pose (results := mkPvPResult 2000 3 3 2 2 2 1 1 1 2 3).
  assert (calculatePvPXP 1 2 0 = inr results) as H1 by reflexivity.
  destruct (pvp_better_results_need_fewer 1 2 0 results H1)
    as (_ & _ & _ & _ & _ & Hrival & _).
  exists results. split; [exact H1|]. exact Hrival.
Defined.

Lemma pvp_error_lines_witness :
  calculatePvPXP 5 3 0 = inl GoalNotHigher
  ∧ handlePvPCalculator 5 3 None = inl "Goal level must be higher than current level".
Proof.
  assert (calculatePvPXP 5 3 (default 0%Z None) = inl GoalNotHigher) as H1 by reflexivity.
  split; [exact H1|].
  exact (pvp_error_lines 5 3 None GoalNotHigher H1).
Defined.

Lemma withdraw_cancels_own_reminders_witness :
  getEventFromRedis "e1" demoWorld = Some raid
  ∧ isListed "u1" (ev_participants raid)
  ∧ (reminderU1 ∈ reminderQueue demoWorld)
  ∧ (handleButtonInteraction None demoNow (press "u1" "e1" act_withdraw) demoWorld).1
    = Withdrawn
  ∧ (reminderU1
     ∉ reminderQueue
         (handleButtonInteraction None demoNow (press "u1" "e1" act_withdraw) demoWorld).2).
Proof.
  pose (interaction := press "u1" "e1" act_withdraw).
  assert (getEventFromRedis (i_eventId interaction) demoWorld = Some raid) as H1
    by reflexivity.
  assert (ev_id raid = i_eventId interaction) as H2 by reflexivity.
  assert (i_action interaction = act_withdraw) as H3 by reflexivity.
  assert (isListed (i_user interaction) (ev_participants raid)) as H4 by by_evaluation.
  destruct (withdraw_cancels_own_reminders None demoNow interaction demoWorld raid
              H1 H2 H3 H4) as (Hreply & _ & _ & Hnone & _).
  split; [exact H1|]. split; [exact H4|].
  split; [simpl; repeat constructor|]. split; [exact Hreply|].
  intros Hin. apply (Hnone reminderU1 Hin). split; reflexivity.
Defined.

Lemma join_appends_and_schedules_witness :
  (handleButtonInteraction None demoNow (press "u5" "e1" (act_class "dps" "Monk"))
     demoWorld).1 = Joined "dps" (Some "Monk")
  ∧ ∃ event,
      getEventFromRedis "e1" demoWorld = Some event
      ∧ reminderQueue
          (handleButtonInteraction None demoNow (press "u5" "e1" (act_class "dps" "Monk"))
             demoWorld).2
        = reminderQueue demoWorld ++ reminderJobs "e1" (ev_date event) ["u5"] demoNow.
Proof.
  pose (interaction := press "u5" "e1" (act_class "dps" "Monk")).
  assert ((handleButtonInteraction None demoNow interaction demoWorld).1
          = Joined "dps" (Some "Monk")) as H1 by reflexivity.
  destruct (join_appends_and_schedules None demoNow interaction demoWorld "dps"
              (Some "Monk") H1) as (event & Hget & _ & _ & _ & _ & Hqueue & _).
  split; [exact H1|]. exists event. split; [exact Hget|]. exact Hqueue.
Defined.

Lemma delete_cancels_every_job_witness :
  (handleButtonInteraction None demoNow (press "org" "e1" act_delete) demoWorld).1
  = EventDeleted
  ∧ reminderQueue
      (handleButtonInteraction None demoNow (press "org" "e1" act_delete) demoWorld).2
    = [cleanupE2].
Proof.
  pose (interaction := press "org" "e1" act_delete).
  assert ((handleButtonInteraction None demoNow interaction demoWorld).1 = EventDeleted)
    as H1 by reflexivity.
  destruct (delete_cancels_every_job None demoNow interaction demoWorld H1)
    as (event & _ & _ & _ & Hqueue & _).
  split; [exact H1|]. exact (eq_trans Hqueue eq_refl).
Defined.

Lemma cleanup_of_past_event_witness :
  String.prefix "cleanup_" (job_name cleanupE1) = true
  ∧ getEventFromRedis "e1" demoWorld = Some raid
  ∧ (ev_date raid ≤ fireTime cleanupE1)%Z
  ∧ (reminderWorker (fireTime cleanupE1) cleanupE1 demoWorld).1 = AutoDeleted
  ∧ events (reminderWorker (fireTime cleanupE1) cleanupE1 demoWorld).2
    = delete "e1" (events demoWorld).
Proof.
  assert (String.prefix "cleanup_" (job_name cleanupE1) = true) as H1 by reflexivity.
  assert (getEventFromRedis (jd_eventId (job_data cleanupE1)) demoWorld = Some raid)
    as H2 by reflexivity.
  assert (ev_date raid ≤ fireTime cleanupE1)%Z as H3 by by_evaluation.
  destruct (cleanup_of_past_event (fireTime cleanupE1) cleanupE1 demoWorld raid H1 H2 H3)
    as (Hlog & _ & Hevents & _).
  split; [exact H1|]. split; [exact H2|]. split; [exact H3|].
  split; [exact Hlog|exact Hevents].
Defined.

Lemma reminder_delivery_is_untracked_witness :
  String.prefix "cleanup_" (job_name reminderU1) = false
  ∧ dm_messages (reminderWorker (fireTime reminderU1) reminderU1 demoWorld).2
    = dm_messages demoWorld
  ∧ reminderQueue (reminderWorker (fireTime reminderU1) reminderU1 demoWorld).2
    = reminderQueue demoWorld.
Proof.
  assert (String.prefix "cleanup_" (job_name reminderU1) = false) as H1 by reflexivity.
  destruct (reminder_delivery_is_untracked (fireTime reminderU1) reminderU1 demoWorld H1)
    as (_ & Hdm & Hqueue & _).
  split; [exact H1|]. split; [exact Hdm|exact Hqueue].
Defined.

Lemma tracking_records_are_never_reminders_witness :
  dmHash standardId (run None ["org"] demoParse standardSetup (freshWorld ∅ true))
    !! "u1_registration_1892851201000"
  = Some (mkDMData "u1" "1" "registration" 1892851201000)
  ∧ ("registration" ∈ trackedTypes)
  ∧ ∃ time, "u1_registration_1892851201000" = dmField "u1" "registration" time.
Proof.
  pose (record := mkDMData "u1" "1" "registration" 1892851201000).
  assert (dmHash standardId
            (run None ["org"] demoParse standardSetup (freshWorld ∅ true))
            !! "u1_registration_1892851201000" = Some record) as H1 by reflexivity.
  destruct (tracking_records_are_never_reminders None ["org"] demoParse ∅ true
              standardSetup) as (Hrecords & _).
  destruct (Hrecords standardId "u1_registration_1892851201000" record H1)
    as (Htype & _ & Hfield & _).
  split; [exact H1|]. split; [exact Htype|exact Hfield].
Defined.

Lemma pending_jobs_match_their_names_witness :
  reminderQueue (run None ["org"] demoParse standardSetup (freshWorld ∅ true)) !! 0
  = Some (mkJob ("cleanup_" +:+ standardId) (mkJobData standardId None None None)
                677100000 demoNow)
  ∧ (0 < 677100000)%Z.
Proof.
  pose (job := mkJob ("cleanup_" +:+ standardId) (mkJobData standardId None None None)
                     677100000 demoNow).
  assert (reminderQueue (run None ["org"] demoParse standardSetup (freshWorld ∅ true))
            !! 0 = Some job) as H1 by reflexivity.
  assert (job ∈ reminderQueue
                  (run None ["org"] demoParse standardSetup (freshWorld ∅ true)))
    as H2 by exact (list_elem_of_lookup_2 _ _ _ H1).
  destruct (pending_jobs_match_their_names None ["org"] demoParse ∅ true standardSetup
              job H2) as (Hdelay & _).
  split; [exact H1|exact Hdelay].
Defined.

Lemma roster_at_most_eight_witness :
  events (run None ["org"] demoParse standardSetup (freshWorld ∅ true)) !! standardId
  = Some standardAfterSetup
  ∧ length (ev_participants standardAfterSetup) ≤ 8.
Proof.
  assert (events (run None ["org"] demoParse standardSetup (freshWorld ∅ true))
            !! standardId = Some standardAfterSetup) as H1 by reflexivity.
  destruct (roster_at_most_eight None ["org"] demoParse ∅ true standardSetup standardId
              standardAfterSetup H1) as (Hlength & _).
  split; [exact H1|exact Hlength].
Defined.
